(** * scst_local: the SCSI/SCST loopback adapter

    A shallow embedding of [scst_local/scst_local.c]: the per-target version
    descriptors, the task-management handlers, the command entry point, the
    AEN queue of a session with its worker and its two-phase teardown, and
    the registry of targets and sessions behind the exit barrier; then the
    loading of the module, the TransportID and version attributes, and the
    response path of a command.

    Conventions.  C integers are [Z]; where the C type wraps, the wrap is
    written out.  Calls into the SCSI mid-layer and into the SCST core are
    recorded as [event]s; what those calls return is an input of the model
    (an [env] record or an argument).  The sources are read for a current
    kernel (every [LINUX_VERSION_CODE] test taken on its newest branch). *)

From Stdlib Require Import ZArith List String Ascii Bool Lia.
Import ListNotations.
Open Scope Z_scope.

(** ** Constants of the headers

    [scst.h] and the kernel headers are not part of the sources at hand, so
    the constants the driver takes from them are an interface; the
    development is carried out for any value of them. *)

Class kernel_abi : Type := {
  ENOENT : Z;
  ENOMEM : Z;
  EINVAL : Z;
  EFAULT : Z;
  SUCCESS : Z;                       (* <scsi/scsi.h> *)
  DID_BAD_TARGET : Z;                (* <scsi/scsi.h> *)
  SCSI_MLQUEUE_HOST_BUSY : Z;        (* <scsi/scsi.h> *)
  SCST_AEN_SCSI : Z;                 (* scst.h *)
  SCST_AEN_RES_NOT_SUPPORTED : Z     (* scst.h *)
}.

(** The values Linux and SCST give them. *)
#[export] Instance linux_abi : kernel_abi := {|
  ENOENT := 2;
  ENOMEM := 12;
  EINVAL := 22;
  EFAULT := 14;
  SUCCESS := 0x2002;
  DID_BAD_TARGET := 0x04;
  SCSI_MLQUEUE_HOST_BUSY := 0x1055;
  SCST_AEN_SCSI := 0;
  SCST_AEN_RES_NOT_SUPPORTED := -1
|}.

(** ** Machine integers *)

(** [int], two's complement on 32 bits: the kernel's [atomic_t] wraps. *)
Definition wrap_int (v : Z) : Z := (v + 2 ^ 31) mod 2 ^ 32 - 2 ^ 31.

(** Conversion to [uint16_t]. *)
Definition to_u16 (v : Z) : Z := v mod 2 ^ 16.

Definition atomic_inc (v : Z) : Z := wrap_int (v + 1).

(** ** Data model *)

(** [struct scst_aen], as far as the driver reads it. *)
Record scst_aen : Type := {
  aen_id : nat;          (* identity of the notification handle *)
  event_fn : Z
}.

Definition Scsi_Host : Type := nat.   (* a host, by its host number *)

Record scst_local_sess : Type := {
  initiator_name : string;            (* scst_sess->initiator_name *)
  unregistering : bool;
  shost : option Scsi_Host;
  number : Z;
  aen_work_queued : bool;             (* aen_work pending on aen_workqueue *)
  aen_work_list : list scst_aen;      (* head of the list first *)
  remove_work_queued : bool           (* remove_work pending *)
}.

Record scst_local_tgt : Type := {
  tgt_name : string;                  (* scst_tgt->tgt_name *)
  sessions_list : list scst_local_sess;
  scsi_transport_version : Z;         (* uint16_t *)
  phys_transport_version : Z          (* uint16_t *)
}.

Definition set_unregistering (b : bool) (s : scst_local_sess) :=
  {| initiator_name := initiator_name s; unregistering := b;
     shost := shost s; number := number s;
     aen_work_queued := aen_work_queued s;
     aen_work_list := aen_work_list s;
     remove_work_queued := remove_work_queued s |}.

Definition set_shost (h : option Scsi_Host) (s : scst_local_sess) :=
  {| initiator_name := initiator_name s; unregistering := unregistering s;
     shost := h; number := number s;
     aen_work_queued := aen_work_queued s;
     aen_work_list := aen_work_list s;
     remove_work_queued := remove_work_queued s |}.

Definition set_aen_work_queued (b : bool) (s : scst_local_sess) :=
  {| initiator_name := initiator_name s; unregistering := unregistering s;
     shost := shost s; number := number s;
     aen_work_queued := b;
     aen_work_list := aen_work_list s;
     remove_work_queued := remove_work_queued s |}.

Definition set_aen_work_list (l : list scst_aen) (s : scst_local_sess) :=
  {| initiator_name := initiator_name s; unregistering := unregistering s;
     shost := shost s; number := number s;
     aen_work_queued := aen_work_queued s;
     aen_work_list := l;
     remove_work_queued := remove_work_queued s |}.

Definition set_remove_work_queued (b : bool) (s : scst_local_sess) :=
  {| initiator_name := initiator_name s; unregistering := unregistering s;
     shost := shost s; number := number s;
     aen_work_queued := aen_work_queued s;
     aen_work_list := aen_work_list s;
     remove_work_queued := b |}.

Definition set_sessions_list (l : list scst_local_sess) (t : scst_local_tgt) :=
  {| tgt_name := tgt_name t; sessions_list := l;
     scsi_transport_version := scsi_transport_version t;
     phys_transport_version := phys_transport_version t |}.

Definition set_scsi_transport_version (v : Z) (t : scst_local_tgt) :=
  {| tgt_name := tgt_name t; sessions_list := sessions_list t;
     scsi_transport_version := v;
     phys_transport_version := phys_transport_version t |}.

Definition set_phys_transport_version (v : Z) (t : scst_local_tgt) :=
  {| tgt_name := tgt_name t; sessions_list := sessions_list t;
     scsi_transport_version := scsi_transport_version t;
     phys_transport_version := v |}.

(** ** Version descriptors of a target *)

Module Version.

(** [scst_local_scsi_transport_version_store], after [kstrtoul] gave [val]. *)
Definition scst_local_scsi_transport_version_store (val : Z)
    (tgt : scst_local_tgt) : scst_local_tgt :=
  set_scsi_transport_version (to_u16 val) tgt.

Definition scst_local_phys_transport_version_store (val : Z)
    (tgt : scst_local_tgt) : scst_local_tgt :=
  set_phys_transport_version (to_u16 val) tgt.

Definition scst_local_get_scsi_transport_version (tgt : scst_local_tgt) : Z :=
  if scsi_transport_version tgt =? 0 then 0x0BE0 (* SAS *)
  else scsi_transport_version tgt.

Definition scst_local_get_phys_transport_version (tgt : scst_local_tgt) : Z :=
  phys_transport_version tgt.

(** What it means for a getter to report a built-in default for an unset
    field: some constant other than the sentinel zero is what every target
    with the field unset reports. *)
Definition reports_default_when_unset
    (field getter : scst_local_tgt -> Z) : Prop :=
  exists c : Z, c <> 0 /\ forall tgt, field tgt = 0 -> getter tgt = c.

End Version.

(** ** Calls that leave the driver

    Every call into the SCST core or the SCSI mid-layer that the properties
    speak of is an [event]; a function of the model returns the events of one
    call of the C function, oldest first.  The last two constructors are not
    calls: they mark an update of the session that later calls depend on. *)

Inductive mgmt_fn : Type := SCST_ABORT_TASK | SCST_LUN_RESET | SCST_TARGET_RESET.

Inductive queue_type : Type :=
  | SCST_CMD_QUEUE_UNTAGGED
  | SCST_CMD_QUEUE_SIMPLE.

Inductive data_direction : Type :=
  | SCST_DATA_NONE | SCST_DATA_READ | SCST_DATA_WRITE.

Inductive dma_data_direction : Type :=
  | DMA_BIDIRECTIONAL | DMA_TO_DEVICE | DMA_FROM_DEVICE | DMA_NONE.

(** The command object of the engine, as the driver fills it in. *)
Record scst_cmd : Type := {
  cmd_lun : Z;
  cmd_cdb : list Z;
  cmd_tag : Z;
  cmd_queue_type : queue_type;
  cmd_expected : option (data_direction * Z);
  cmd_noio_mem_alloc : bool;
  cmd_tgt_sg : option (list Z)
}.

(** [struct scsi_cmnd] with the fields of [scmd->device] the driver reads. *)
Record scsi_cmnd : Type := {
  lun : Z;
  cmnd : list Z;
  request_tag : Z;                    (* blk_mq_unique_tag(scsi_cmd_to_rq(scmd)) *)
  tagged_supported : bool;
  simple_tags : bool;
  sc_data_direction : dma_data_direction;
  bidi : bool;                        (* scsi_bidi_cmnd(scmd) *)
  bufflen : Z;
  sglist : list Z;
  result : Z;
  resid : Z
}.

Definition set_result (r : Z) (c : scsi_cmnd) : scsi_cmnd :=
  {| lun := lun c; cmnd := cmnd c; request_tag := request_tag c;
     tagged_supported := tagged_supported c; simple_tags := simple_tags c;
     sc_data_direction := sc_data_direction c; bidi := bidi c;
     bufflen := bufflen c; sglist := sglist c; result := r; resid := resid c |}.

Definition scsi_set_resid (r : Z) (c : scsi_cmnd) : scsi_cmnd :=
  {| lun := lun c; cmnd := cmnd c; request_tag := request_tag c;
     tagged_supported := tagged_supported c; simple_tags := simple_tags c;
     sc_data_direction := sc_data_direction c; bidi := bidi c;
     bufflen := bufflen c; sglist := sglist c; result := result c; resid := r |}.

Inductive event : Type :=
  (* task management *)
  | scst_rx_mgmt_fn_tag (fn : mgmt_fn) (tag : Z)
  | scst_rx_mgmt_fn_lun (fn : mgmt_fn) (l : Z)
  | wait_for_completion_interruptible
  (* commands *)
  | scst_rx_cmd (l : Z) (cdb : list Z)
  | scst_cmd_init_done (c : scst_cmd)
  | scsi_done (c : scsi_cmnd)
  (* AENs *)
  | scsi_scan_target (h : Scsi_Host) (a : option scst_aen)
      (* a rescan of host [h]; [Some a] when made to deliver the AEN [a] *)
  | scst_aen_done (a : scst_aen)
  | queue_work_aen            (* queue_work(aen_workqueue, &sess->aen_work) *)
  (* registration *)
  | scst_register_target (name : string)
  | scst_unregister_target (name : string)
  | scst_register_session (name : string)
  | device_register (name : string)
  | sysfs_create_link (name : string)
  (* teardown of a session *)
  | schedule_work_remove      (* schedule_work(&sess->remove_work) *)
  | list_del_session          (* list_del in scst_local_remove_adapter *)
  | scsi_remove_host (h : option Scsi_Host)
  | cancel_work_sync_aen      (* cancel_work_sync(&sess->aen_work) *)
  | WARN_ON_ONCE
  | scst_unregister_session
  (* marks *)
  | aen_enqueued (a : scst_aen)   (* list_add_tail on aen_work_list *)
  | latch_set.                    (* unregistering went from 0 to 1 *)

(** ** Task management *)

Module TaskMgmt.

Record stats : Type := {
  num_aborts : Z;
  num_dev_resets : Z;
  num_target_resets : Z
}.

(** How [wait_for_completion_interruptible] ends: the callback
    [scst_local_targ_task_mgmt_done] completes the completion, or a signal
    interrupts the wait, or neither ever happens and the caller stays
    blocked. *)
Inductive wait_outcome : Type := completed | interrupted | blocked.

(** What the engine and the scheduler do to one handler call: the value
    [scst_rx_mgmt_fn_*] returns, the status the engine gives the management
    command (the addressed command or device found, or not), and the way the
    wait ends. *)
Record mgmt_env : Type := {
  rx_mgmt_ret : Z;
  mgmt_status : Z;
  wait : wait_outcome
}.

Definition wait_returns (w : wait_outcome) : bool :=
  match w with blocked => false | _ => true end.

Section Handlers.
Context {abi : kernel_abi}.

(** A handler gives the value it returns, [None] when it never returns, the
    counters, and the calls made. *)
Definition scst_local_abort (e : mgmt_env) (scmd : scsi_cmnd) (st : stats)
    : option Z * stats * list event :=
  let ret := rx_mgmt_ret e in
  let tr := [scst_rx_mgmt_fn_tag SCST_ABORT_TASK (request_tag scmd);
             wait_for_completion_interruptible] in
  if wait_returns (wait e) then
    (Some (if ret =? 0 then SUCCESS else ret),
     {| num_aborts := atomic_inc (num_aborts st);
        num_dev_resets := num_dev_resets st;
        num_target_resets := num_target_resets st |},
     tr)
  else (None, st, tr).

Definition scst_local_device_reset (e : mgmt_env) (scmd : scsi_cmnd)
    (st : stats) : option Z * stats * list event :=
  let ret := rx_mgmt_ret e in
  let tr := [scst_rx_mgmt_fn_lun SCST_LUN_RESET (lun scmd);
             wait_for_completion_interruptible] in
  if wait_returns (wait e) then
    (Some (if ret =? 0 then SUCCESS else ret),
     {| num_aborts := num_aborts st;
        num_dev_resets := atomic_inc (num_dev_resets st);
        num_target_resets := num_target_resets st |},
     tr)
  else (None, st, tr).

Definition scst_local_target_reset (e : mgmt_env) (scmd : scsi_cmnd)
    (st : stats) : option Z * stats * list event :=
  let ret := rx_mgmt_ret e in
  let tr := [scst_rx_mgmt_fn_lun SCST_TARGET_RESET (lun scmd);
             wait_for_completion_interruptible] in
  if wait_returns (wait e) then
    (Some (if ret =? 0 then SUCCESS else ret),
     {| num_aborts := num_aborts st;
        num_dev_resets := num_dev_resets st;
        num_target_resets := atomic_inc (num_target_resets st) |},
     tr)
  else (None, st, tr).

End Handlers.

(** The three entry points, to speak of them together. *)
Inductive handler : Type := Abort | DeviceReset | TargetReset.

Definition run_handler {abi : kernel_abi} (h : handler)
    : mgmt_env -> scsi_cmnd -> stats -> option Z * stats * list event :=
  match h with
  | Abort => scst_local_abort
  | DeviceReset => scst_local_device_reset
  | TargetReset => scst_local_target_reset
  end.

(** The counter a handler owns. *)
Definition counter (h : handler) (st : stats) : Z :=
  match h with
  | Abort => num_aborts st
  | DeviceReset => num_dev_resets st
  | TargetReset => num_target_resets st
  end.

Definition is_wait (ev : event) : bool :=
  match ev with wait_for_completion_interruptible => true | _ => false end.

(** A call waits on the completion when its events contain the wait. *)
Definition waits (tr : list event) : bool := existsb is_wait tr.

End TaskMgmt.

(** ** Command submission *)

Module Command.

Section Queuecommand.
Context {abi : kernel_abi}.

Definition queue_type_of (scmd : scsi_cmnd) : queue_type :=
  if tagged_supported scmd && simple_tags scmd
  then SCST_CMD_QUEUE_SIMPLE else SCST_CMD_QUEUE_UNTAGGED.

(** The command after the setters between [scst_rx_cmd] and
    [scst_cmd_init_done] have run. *)
Definition build_cmd (scmd : scsi_cmnd) : scst_cmd :=
  let base (e : option (data_direction * Z)) (noio : bool) (sg : option (list Z)) :=
    {| cmd_lun := lun scmd; cmd_cdb := cmnd scmd; cmd_tag := request_tag scmd;
       cmd_queue_type := queue_type_of scmd;
       cmd_expected := e; cmd_noio_mem_alloc := noio; cmd_tgt_sg := sg |} in
  if bidi scmd then base None false None
  else match sc_data_direction scmd with
       | DMA_TO_DEVICE =>
           base (Some (SCST_DATA_WRITE, bufflen scmd)) true (Some (sglist scmd))
       | DMA_FROM_DEVICE =>
           base (Some (SCST_DATA_READ, bufflen scmd)) true (Some (sglist scmd))
       | _ => base (Some (SCST_DATA_NONE, 0)) false None
       end.

(** [scst_local_queuecommand]; [rx_cmd_ok] tells whether [scst_rx_cmd] gave a
    command.  Returns the value returned, the command as left to the
    initiator, and the calls made. *)
Definition scst_local_queuecommand (rx_cmd_ok : bool)
    (sess : scst_local_sess) (scmd : scsi_cmnd) : Z * scsi_cmnd * list event :=
  if unregistering sess then
    let scmd' := set_result (wrap_int (Z.shiftl DID_BAD_TARGET 16)) scmd in
    (0, scmd', [scsi_done scmd'])
  else
    let scmd' := scsi_set_resid 0 scmd in
    if rx_cmd_ok then
      (0, scmd', [scst_rx_cmd (lun scmd) (cmnd scmd);
                  scst_cmd_init_done (build_cmd scmd)])
    else
      (SCSI_MLQUEUE_HOST_BUSY, scmd', [scst_rx_cmd (lun scmd) (cmnd scmd)]).

End Queuecommand.

(** Calls that hand something to the engine. *)
Definition reaches_engine (ev : event) : bool :=
  match ev with
  | scst_rx_cmd _ _ | scst_cmd_init_done _ => true
  | _ => false
  end.

End Command.

(** ** The AEN queue of a session *)

Module Aen.

Section Session.
Context {abi : kernel_abi}.

(** [scst_local_report_aen] up to the [spin_unlock] that follows the
    [list_add_tail]; [alloc_ok] tells whether [kzalloc] gave a work item.
    The first component is the value returned when the function ends there,
    and [None] when the item has been enqueued and [queue_work] is still to
    come. *)
Definition report_aen_enqueue (alloc_ok : bool) (aen : scst_aen)
    (sess : scst_local_sess) : option Z * scst_local_sess * list event :=
  if event_fn aen =? SCST_AEN_SCSI then
    if negb alloc_ok then (Some (- ENOMEM), sess, [])
    else if unregistering sess then
      (Some SCST_AEN_RES_NOT_SUPPORTED, sess, [])
    else (None,
          set_aen_work_list (aen_work_list sess ++ [aen]) sess,
          [aen_enqueued aen])
  else (Some SCST_AEN_RES_NOT_SUPPORTED, sess, []).

(** The [queue_work] that follows, outside the lock; on work that is already
    queued it changes nothing. *)
Definition report_aen_queue_work (sess : scst_local_sess)
    : scst_local_sess * list event :=
  (set_aen_work_queued true sess, [queue_work_aen]).

(** [scst_local_report_aen], run from its entry to its return. *)
Definition scst_local_report_aen (alloc_ok : bool) (aen : scst_aen)
    (sess : scst_local_sess) : Z * scst_local_sess * list event :=
  match report_aen_enqueue alloc_ok aen sess with
  | (Some res, sess', evs) => (res, sess', evs)
  | (None, sess', evs) =>
      let '(sess'', evs') := report_aen_queue_work sess' in
      (0, sess'', evs ++ evs')
  end.

(** Head of the loop of [scst_process_aens], under [aen_lock]: the first
    item is unlinked and a reference to the host is taken; [host_get_ok] is
    what [scsi_host_get] answers.  [None] when the list is empty. *)
Definition process_aens_pop (host_get_ok : bool) (sess : scst_local_sess)
    : option (scst_aen * option Scsi_Host * scst_local_sess) :=
  match aen_work_list sess with
  | [] => None
  | w :: rest =>
      let sh := match shost sess with
                | Some h => if host_get_ok then Some h else None
                | None => None
                end in
      Some (w, sh, set_aen_work_list rest sess)
  end.

(** From [spin_unlock] to the label [done]; [None] when [sBUG_ON] fires. *)
Definition process_aens_deliver (cleanup_only : bool) (w : scst_aen)
    (sh : option Scsi_Host) : option (list event) :=
  if cleanup_only then Some []
  else if negb (event_fn w =? SCST_AEN_SCSI) then None
  else match sh with
       | Some h => Some [scsi_scan_target h (Some w)]
       | None => Some []
       end.

(** The loop run alone, from its first test to its exit. *)
Fixpoint process_aens_items (cleanup_only : bool) (sh : option Scsi_Host)
    (l : list scst_aen) : option (list event) :=
  match l with
  | [] => Some []
  | w :: rest =>
      match process_aens_deliver cleanup_only w sh with
      | None => None
      | Some evs =>
          match process_aens_items cleanup_only sh rest with
          | None => None
          | Some tl => Some (evs ++ scst_aen_done w :: tl)
          end
      end
  end.

Definition scst_process_aens (host_get_ok cleanup_only : bool)
    (sess : scst_local_sess) : option (scst_local_sess * list event) :=
  let sh := match shost sess with
            | Some h => if host_get_ok then Some h else None
            | None => None
            end in
  match process_aens_items cleanup_only sh (aen_work_list sess) with
  | None => None
  | Some evs => Some (set_aen_work_list [] sess, evs)
  end.

(** The locked part of [scst_local_close_session_impl]: the old value of the
    latch, and the session with the latch set. *)
Definition close_session_mark (sess : scst_local_sess)
    : bool * scst_local_sess :=
  (unregistering sess, set_unregistering true sess).

(** [scst_local_driver_remove]: the host is taken out of the session under
    [aen_lock], then removed. *)
Definition scst_local_driver_remove (sess : scst_local_sess)
    : scst_local_sess * list event :=
  (set_shost None sess, [scsi_remove_host (shost sess)]).

(** [scst_local_release_adapter] run with no worker active. *)
Definition scst_local_release_adapter (sess : scst_local_sess)
    : scst_local_sess * list event :=
  let s1 := set_aen_work_queued false sess in
  let warn := if unregistering s1 then [] else [WARN_ON_ONCE] in
  match scst_process_aens true true s1 with
  | Some (s2, evs) =>
      (s2, cancel_work_sync_aen :: warn ++ evs ++ [scst_unregister_session])
  | None => (s1, cancel_work_sync_aen :: warn ++ [scst_unregister_session])
  end.

(** [device_unregister(&sess->dev)]: the bus removes the driver, then the
    last reference goes and the release function runs. *)
Definition device_unregister (sess : scst_local_sess)
    : scst_local_sess * list event :=
  let '(s1, e1) := scst_local_driver_remove sess in
  let '(s2, e2) := scst_local_release_adapter s1 in
  (s2, e1 ++ e2).

End Session.

(** *** The session under concurrency

    One session, the threads that touch its AEN queue, and the order in which
    they take [aen_lock].  A step of the machine is what one thread does in
    one hold of the lock, or between two holds: a report enqueues under the
    lock and calls [queue_work] after it has dropped it, so these are two
    steps, and other threads may run in between.

    What the machine takes from the kernel: [aen_work] never runs twice at
    the same time and is queued at most once; [cancel_work_sync] takes
    queued work off the queue and returns only when no run of it is under
    way, and does not keep the work from being queued again; [remove_work]
    runs after [schedule_work] has queued it. *)

(** Where a run of [scst_process_aens] stands. *)
Inductive drain_pc : Type :=
  | AtLoop                                         (* at the test of the loop *)
  | Unlocked (w : scst_aen) (sh : option Scsi_Host) (* item unlinked, lock dropped *)
  | AtDone (w : scst_aen) (sh : option Scsi_Host).  (* at the label [done] *)

(** The thread of [aen_workqueue] inside [scst_aen_work_fn]. *)
Inductive worker_pc : Type :=
  | WIdle
  | WRun (pc : drain_pc).

(** The thread that runs [scst_local_remove_adapter]. *)
Inductive remover_pc : Type :=
  | RNone                     (* removal not started *)
  | RRemoveAdapter            (* entering scst_local_remove_adapter *)
  | RDriverRemove             (* device_unregister: before scst_local_driver_remove *)
  | RRelease                  (* scst_local_release_adapter: before cancel_work_sync *)
  | RLock                     (* before spin_lock and WARN_ON_ONCE *)
  | RCleanup (pc : drain_pc)  (* in scst_process_aens(sess, true) *)
  | RUnregister               (* before scst_unregister_session *)
  | RDone.

Record mstate : Type := {
  m_sess : scst_local_sess;
  queue_work_due : nat;   (* reports that have enqueued and not yet called queue_work *)
  worker : worker_pc;
  remover : remover_pc;
  trace : list event
}.

(** What the scheduler and the environment choose. *)
Inductive label : Type :=
  | report_aen (alloc_ok : bool) (aen : scst_aen)
      (* the engine calls scst_local_report_aen, which runs to its spin_unlock *)
  | report_queue_work                 (* one such call goes on to its queue_work *)
  | close_session (async : bool)
  | aen_work_start                    (* aen_workqueue starts the queued aen_work *)
  | aen_work_step (host_get_ok : bool)
  | remove_work_start                 (* the system workqueue starts remove_work *)
  | remove_step (host_get_ok : bool).

Section Machine.
Context {abi : kernel_abi}.

(** One step of a run of [scst_process_aens].  The outer [None] is a fired
    [sBUG_ON]; an inner [None] is the exit of the loop. *)
Definition drain_step (cleanup_only host_get_ok : bool) (pc : drain_pc)
    (sess : scst_local_sess)
    : option (option drain_pc * scst_local_sess * list event) :=
  match pc with
  | AtLoop =>
      match process_aens_pop host_get_ok sess with
      | None => Some (None, sess, [])
      | Some (w, sh, sess') => Some (Some (Unlocked w sh), sess', [])
      end
  | Unlocked w sh =>
      match process_aens_deliver cleanup_only w sh with
      | None => None
      | Some evs => Some (Some (AtDone w sh), sess, evs)
      end
  | AtDone w sh => Some (Some AtLoop, sess, [scst_aen_done w])
  end.

Definition is_idle (w : worker_pc) : bool :=
  match w with WIdle => true | WRun _ => false end.

Definition is_RNone (r : remover_pc) : bool :=
  match r with RNone => true | _ => false end.

(** [None]: the label cannot be taken in this state (the thread is not
    there, [cancel_work_sync] has to wait) or [sBUG_ON] fires. *)
Definition step (s : mstate) (l : label) : option mstate :=
  let sess := m_sess s in
  match l with
  | report_aen alloc_ok aen =>
      let '(res, sess', evs) := report_aen_enqueue alloc_ok aen sess in
      Some {| m_sess := sess';
              queue_work_due := match res with
                                | None => S (queue_work_due s)
                                | Some _ => queue_work_due s
                                end;
              worker := worker s; remover := remover s;
              trace := trace s ++ evs |}
  | report_queue_work =>
      match queue_work_due s with
      | O => None
      | S due =>
          let '(sess', evs) := report_aen_queue_work sess in
          Some {| m_sess := sess'; queue_work_due := due;
                  worker := worker s; remover := remover s;
                  trace := trace s ++ evs |}
      end
  | close_session async =>
      let '(old, sess') := close_session_mark sess in
      if old then
        Some {| m_sess := sess'; queue_work_due := queue_work_due s;
                worker := worker s; remover := remover s;
                trace := trace s |}
      else if async then
        Some {| m_sess := set_remove_work_queued true sess';
                queue_work_due := queue_work_due s;
                worker := worker s; remover := remover s;
                trace := trace s ++ [latch_set; schedule_work_remove] |}
      else
        Some {| m_sess := sess'; queue_work_due := queue_work_due s;
                worker := worker s; remover := RRemoveAdapter;
                trace := trace s ++ [latch_set] |}
  | aen_work_start =>
      if aen_work_queued sess && is_idle (worker s) then
        Some {| m_sess := set_aen_work_queued false sess;
                queue_work_due := queue_work_due s;
                worker := WRun AtLoop; remover := remover s;
                trace := trace s |}
      else None
  | aen_work_step g =>
      match worker s with
      | WIdle => None
      | WRun pc =>
          match drain_step false g pc sess with
          | None => None
          | Some (pc', sess', evs) =>
              Some {| m_sess := sess';
                      queue_work_due := queue_work_due s;
                      worker := match pc' with
                                | Some q => WRun q
                                | None => WIdle
                                end;
                      remover := remover s;
                      trace := trace s ++ evs |}
          end
      end
  | remove_work_start =>
      if remove_work_queued sess && is_RNone (remover s) then
        Some {| m_sess := set_remove_work_queued false sess;
                queue_work_due := queue_work_due s;
                worker := worker s; remover := RRemoveAdapter;
                trace := trace s |}
      else None
  | remove_step g =>
      match remover s with
      | RNone | RDone => None
      | RRemoveAdapter =>
          Some {| m_sess := sess; queue_work_due := queue_work_due s;
                  worker := worker s; remover := RDriverRemove;
                  trace := trace s ++ [list_del_session] |}
      | RDriverRemove =>
          let '(sess', evs) := scst_local_driver_remove sess in
          Some {| m_sess := sess'; queue_work_due := queue_work_due s;
                  worker := worker s; remover := RRelease;
                  trace := trace s ++ evs |}
      | RRelease =>
          if is_idle (worker s) then
            Some {| m_sess := set_aen_work_queued false sess;
                    queue_work_due := queue_work_due s;
                    worker := worker s; remover := RLock;
                    trace := trace s ++ [cancel_work_sync_aen] |}
          else None
      | RLock =>
          Some {| m_sess := sess; queue_work_due := queue_work_due s;
                  worker := worker s; remover := RCleanup AtLoop;
                  trace := trace s ++
                    (if unregistering sess then [] else [WARN_ON_ONCE]) |}
      | RCleanup pc =>
          match drain_step true g pc sess with
          | None => None
          | Some (pc', sess', evs) =>
              Some {| m_sess := sess'; queue_work_due := queue_work_due s;
                      worker := worker s;
                      remover := match pc' with
                                 | Some q => RCleanup q
                                 | None => RUnregister
                                 end;
                      trace := trace s ++ evs |}
          end
      | RUnregister =>
          Some {| m_sess := sess; queue_work_due := queue_work_due s;
                  worker := worker s; remover := RDone;
                  trace := trace s ++ [scst_unregister_session] |}
      end
  end.

Fixpoint run (s : mstate) (ls : list label) : option mstate :=
  match ls with
  | [] => Some s
  | l :: ls' =>
      match step s l with
      | Some s' => run s' ls'
      | None => None
      end
  end.

End Machine.

(** A session as [__scst_local_add_adapter] leaves it. *)
Definition new_sess (name : string) (num : Z) (h : Scsi_Host) : scst_local_sess :=
  {| initiator_name := name; unregistering := false; shost := Some h;
     number := num; aen_work_queued := false; aen_work_list := [];
     remove_work_queued := false |}.

Definition init (sess : scst_local_sess) : mstate :=
  {| m_sess := sess; queue_work_due := 0; worker := WIdle; remover := RNone;
     trace := [] |}.

(** Readings of a trace. *)
Definition enqueued (tr : list event) : list scst_aen :=
  flat_map (fun ev => match ev with aen_enqueued a => [a] | _ => [] end) tr.

Definition acked (tr : list event) : list scst_aen :=
  flat_map (fun ev => match ev with scst_aen_done a => [a] | _ => [] end) tr.

Definition scanned (tr : list event) : list scst_aen :=
  flat_map (fun ev => match ev with
                      | scsi_scan_target _ (Some a) => [a]
                      | _ => []
                      end) tr.

Definition drain_held (pc : drain_pc) : list scst_aen :=
  match pc with
  | AtLoop => []
  | Unlocked w _ | AtDone w _ => [w]
  end.

(** The items unlinked from the queue and not yet acknowledged: the one the
    worker holds, then the one the cleanup pass holds. *)
Definition in_flight (s : mstate) : list scst_aen :=
  match worker s with WIdle => [] | WRun pc => drain_held pc end ++
  match remover s with RCleanup pc => drain_held pc | _ => [] end.

(** The host reference a run of the loop holds. *)
Definition drain_host (pc : drain_pc) : option Scsi_Host :=
  match pc with
  | AtLoop => None
  | Unlocked _ sh | AtDone _ sh => sh
  end.

Definition worker_host (s : mstate) : option Scsi_Host :=
  match worker s with WIdle => None | WRun pc => drain_host pc end.

Definition is_scan (ev : event) : bool :=
  match ev with scsi_scan_target _ (Some _) => true | _ => false end.

Definition is_enqueue (ev : event) : bool :=
  match ev with aen_enqueued _ => true | _ => false end.

Definition event_is_latch (ev : event) : bool :=
  match ev with latch_set => true | _ => false end.

Definition event_is_cancel (ev : event) : bool :=
  match ev with cancel_work_sync_aen => true | _ => false end.

(** [never_after p q tr]: no event satisfying [q] comes after one satisfying
    [p] in [tr]. *)
Fixpoint never_after (p q : event -> bool) (tr : list event) : bool :=
  match tr with
  | [] => true
  | ev :: tl =>
      (if p ev then negb (existsb q tl) else true) && never_after p q tl
  end.

(** No rescan is made for an item once the latch has been set. *)
Definition no_scan_after_latch (tr : list event) : bool :=
  never_after event_is_latch is_scan tr.

Definition no_enqueue_after_latch (tr : list event) : bool :=
  never_after event_is_latch is_enqueue tr.

Definition no_scan_after_cancel (tr : list event) : bool :=
  never_after event_is_cancel is_scan tr.

Definition removals (tr : list event) : nat :=
  List.length (filter (fun ev => match ev with list_del_session => true | _ => false end) tr).

Definition latchings (tr : list event) : nat :=
  List.length (filter event_is_latch tr).

Definition scst_aen_eq_dec (a b : scst_aen) : {a = b} + {a <> b}.
Proof. decide equality; [apply Z.eq_dec | apply Nat.eq_dec]. Defined.

(** How many times [a] occurs in [l]. *)
Definition times (a : scst_aen) (l : list scst_aen) : nat :=
  count_occ scst_aen_eq_dec l a.

End Aen.

(** ** Strings of the administrative interface *)

Definition tolower (c : ascii) : ascii :=
  let n := nat_of_ascii c in
  if (Nat.leb 65 n && Nat.leb n 90)%bool then ascii_of_nat (n + 32) else c.

Definition char_diff (c d : ascii) : Z :=
  Z.of_nat (nat_of_ascii c) - Z.of_nat (nat_of_ascii d).

Fixpoint strcmp (a b : string) : Z :=
  match a, b with
  | EmptyString, EmptyString => 0
  | EmptyString, String d _ => char_diff zero d
  | String c _, EmptyString => char_diff c zero
  | String c a', String d b' =>
      if Ascii.eqb c d then strcmp a' b' else char_diff c d
  end.

Fixpoint strcasecmp (a b : string) : Z :=
  match a, b with
  | EmptyString, EmptyString => 0
  | EmptyString, String d _ => char_diff zero (tolower d)
  | String c _, EmptyString => char_diff (tolower c) zero
  | String c a', String d b' =>
      if Ascii.eqb (tolower c) (tolower d) then strcasecmp a' b'
      else char_diff (tolower c) (tolower d)
  end.

Definition is_empty (s : string) : bool :=
  match s with EmptyString => true | String _ _ => false end.

(** ** The registry and the exit barrier *)

Module Registry.

(** [scst_local_exit_rwsem]. *)
Record rw_semaphore : Type := {
  writer : bool;
  readers : nat
}.

(** What the kernel and the engine answer during one administrative call. *)
Record env : Type := {
  kzalloc_ok : bool;
  register_target_ok : string -> bool;   (* scst_register_target gives a target *)
  register_session_ok : string -> bool;  (* scst_register_session gives a session *)
  device_register_res : string -> Z;
  probe_host : string -> Scsi_Host;      (* the host the bus probe puts in sess->shost *)
  create_link_res : string -> Z;
  has_luns : string -> bool              (* scst_initiator_has_luns *)
}.

Record state : Type := {
  scst_local_tgts_list : list scst_local_tgt;
  scst_local_exit_rwsem : rw_semaphore;
  scst_local_sess_num : Z;
  calls : list event
}.

Definition set_tgts (l : list scst_local_tgt) (st : state) : state :=
  {| scst_local_tgts_list := l;
     scst_local_exit_rwsem := scst_local_exit_rwsem st;
     scst_local_sess_num := scst_local_sess_num st;
     calls := calls st |}.

Definition set_rwsem (r : rw_semaphore) (st : state) : state :=
  {| scst_local_tgts_list := scst_local_tgts_list st;
     scst_local_exit_rwsem := r;
     scst_local_sess_num := scst_local_sess_num st;
     calls := calls st |}.

Definition set_sess_num (n : Z) (st : state) : state :=
  {| scst_local_tgts_list := scst_local_tgts_list st;
     scst_local_exit_rwsem := scst_local_exit_rwsem st;
     scst_local_sess_num := n;
     calls := calls st |}.

Definition log (evs : list event) (st : state) : state :=
  {| scst_local_tgts_list := scst_local_tgts_list st;
     scst_local_exit_rwsem := scst_local_exit_rwsem st;
     scst_local_sess_num := scst_local_sess_num st;
     calls := calls st ++ evs |}.

(** *** The barrier *)

Definition down_read_trylock (st : state) : option state :=
  let r := scst_local_exit_rwsem st in
  if writer r then None
  else Some (set_rwsem {| writer := false; readers := S (readers r) |} st).

Definition up_read (st : state) : state :=
  let r := scst_local_exit_rwsem st in
  set_rwsem {| writer := writer r; readers := Nat.pred (readers r) |} st.

(** [down_write] returns once there is neither reader nor writer; [None]
    stands for a caller that has to wait. *)
Definition down_write (st : state) : option state :=
  let r := scst_local_exit_rwsem st in
  if writer r || negb (Nat.eqb (readers r) 0) then None
  else Some (set_rwsem {| writer := true; readers := 0 |} st).

Definition up_write (st : state) : state :=
  set_rwsem {| writer := false; readers := readers (scst_local_exit_rwsem st) |} st.

(** *** Lists by position

    A pointer to a target is its position in [scst_local_tgts_list], a
    pointer to a session its position in the list of its target. *)

Fixpoint alter_nth {A : Type} (f : A -> A) (i : nat) (l : list A) : list A :=
  match l, i with
  | [], _ => []
  | x :: r, O => f x :: r
  | x :: r, S k => x :: alter_nth f k r
  end.

Fixpoint remove_nth {A : Type} (i : nat) (l : list A) : list A :=
  match l, i with
  | [], _ => []
  | _ :: r, O => r
  | x :: r, S k => x :: remove_nth k r
  end.

(** Position of the first element that satisfies [p]. *)
Fixpoint find_index {A : Type} (p : A -> bool) (l : list A) : option nat :=
  match l with
  | [] => None
  | x :: r => if p x then Some O
              else match find_index p r with
                   | Some k => Some (S k)
                   | None => None
                   end
  end.

Definition find_tgt (name : string) (st : state) : option nat :=
  find_index (fun t => strcmp (tgt_name t) name =? 0) (scst_local_tgts_list st).

Definition find_sess (name : string) (t : scst_local_tgt) : option nat :=
  find_index (fun s => strcmp (initiator_name s) name =? 0) (sessions_list t).

Section Operations.
Context {abi : kernel_abi}.

(** *** Sessions *)

(** [scst_local_close_session_impl] on the session itself: what is left of
    it in the list of its target ([None] once [scst_local_remove_adapter] has
    unlinked it) and the calls made.  Run with no AEN worker active. *)
Definition close_session_impl_sess (async : bool) (sess : scst_local_sess)
    : option scst_local_sess * list event :=
  let '(old, s1) := Aen.close_session_mark sess in
  if old then (Some s1, [])
  else if async then
    (Some (set_remove_work_queued true s1), [latch_set; schedule_work_remove])
  else
    let '(_, evs) := Aen.device_unregister s1 in
    (None, latch_set :: list_del_session :: evs).

Definition put_session (ti si : nat) (r : option scst_local_sess)
    (st : state) : state :=
  set_tgts
    (alter_nth
       (fun t => set_sessions_list
                   (match r with
                    | Some s' => alter_nth (fun _ => s') si (sessions_list t)
                    | None => remove_nth si (sessions_list t)
                    end) t)
       ti (scst_local_tgts_list st)) st.

Definition get_session (ti si : nat) (st : state) : option scst_local_sess :=
  match nth_error (scst_local_tgts_list st) ti with
  | Some t => nth_error (sessions_list t) si
  | None => None
  end.

Definition scst_local_close_session_impl (ti si : nat) (async : bool)
    (st : state) : state :=
  match get_session ti si st with
  | None => st
  | Some sess =>
      let '(r, evs) := close_session_impl_sess async sess in
      log evs (put_session ti si r st)
  end.

(** [scst_remove_work_fn], the work [schedule_work] queued. *)
Definition scst_remove_work_fn (ti si : nat) (st : state) : state :=
  match get_session ti si st with
  | None => st
  | Some sess =>
      if remove_work_queued sess then
        let '(_, evs) :=
          Aen.device_unregister (set_remove_work_queued false sess) in
        log (list_del_session :: evs) (put_session ti si None st)
      else st
  end.

(** [__scst_local_add_adapter].  [locked] only tells whether the caller holds
    [scst_local_mutex]; calls are not interleaved here, so it changes
    nothing. *)
Definition __scst_local_add_adapter (e : env) (ti : nat)
    (initiator : string) (locked : bool) (st : state) : Z * state :=
  if negb (kzalloc_ok e) then (- ENOMEM, st)
  else
    let num := atomic_inc (scst_local_sess_num st) in
    let st1 := set_sess_num num st in
    if negb (register_session_ok e initiator) then
      (- EFAULT, log [scst_register_session initiator] st1)
    else
      let r := device_register_res e initiator in
      if negb (r =? 0) then
        (r, log [scst_register_session initiator; device_register initiator;
                 scst_unregister_session] st1)
      else
        let sess := Aen.new_sess initiator num (probe_host e initiator) in
        let r2 := create_link_res e initiator in
        if negb (r2 =? 0) then
          let '(_, evs) := Aen.device_unregister sess in
          (r2, log ([scst_register_session initiator;
                     device_register initiator;
                     sysfs_create_link initiator] ++ evs) st1)
        else
          let st2 :=
            set_tgts
              (alter_nth
                 (fun t => set_sessions_list (sessions_list t ++ [sess]) t)
                 ti (scst_local_tgts_list st1)) st1 in
          (r2, log ([scst_register_session initiator;
                     device_register initiator;
                     sysfs_create_link initiator] ++
                    (if has_luns e initiator
                     then [scsi_scan_target (probe_host e initiator) None]
                     else [])) st2).

Definition scst_local_add_adapter (e : env) (ti : nat) (initiator : string)
    (st : state) : Z * state :=
  __scst_local_add_adapter e ti initiator false st.

(** *** Targets *)

(** [scst_local_add_target]: the value returned, the new target (its
    position) and the state. *)
Definition scst_local_add_target (e : env) (target_name : string)
    (st : state) : Z * option nat * state :=
  if negb (kzalloc_ok e) then (- ENOMEM, None, st)
  else if negb (register_target_ok e target_name) then
    (- EFAULT, None, log [scst_register_target target_name] st)
  else
    let tgt := {| tgt_name := target_name; sessions_list := [];
                  scsi_transport_version := 0;
                  phys_transport_version := 0 |} in
    (0, Some (List.length (scst_local_tgts_list st)),
     log [scst_register_target target_name]
       (set_tgts (scst_local_tgts_list st ++ [tgt]) st)).

(** [__scst_local_remove_target]: every session is closed synchronously, the
    target is unlinked, unregistered and freed. *)
Definition __scst_local_remove_target (ti : nat) (st : state) : state :=
  match nth_error (scst_local_tgts_list st) ti with
  | None => st
  | Some t =>
      let evs := flat_map (fun s => snd (close_session_impl_sess false s))
                          (sessions_list t) in
      log (evs ++ [scst_unregister_target (tgt_name t)])
        (set_tgts (remove_nth ti (scst_local_tgts_list st)) st)
  end.

Definition scst_local_remove_target (ti : nat) (st : state) : state :=
  __scst_local_remove_target ti st.

(** *** The administrative entry points *)

(** The loop of [scst_local_sysfs_add_target] over the parameters.  The
    lexer of the engine is not among the sources: a parameter comes as the
    two lexems [scst_get_next_lexem] finds in it, an absent lexem being the
    empty string. *)
Fixpoint add_target_params (e : env) (ti : nat)
    (params : list (string * string)) (st : state) : Z * state :=
  match params with
  | [] => (0, st)
  | (p, v) :: rest =>
      if is_empty p then (0, st)
      else if negb (strcasecmp "session_name" p =? 0) then
        (- EINVAL, scst_local_remove_target ti st)
      else if is_empty v then
        (- EINVAL, scst_local_remove_target ti st)
      else
        let '(res, st') := scst_local_add_adapter e ti v st in
        if negb (res =? 0) then (res, scst_local_remove_target ti st')
        else add_target_params e ti rest st'
  end.

Definition scst_local_sysfs_add_target (e : env) (target_name : string)
    (params : list (string * string)) (st : state) : Z * state :=
  match down_read_trylock st with
  | None => (- ENOENT, st)
  | Some st1 =>
      match scst_local_add_target e target_name st1 with
      | (res, None, st2) => (res, up_read st2)
      | (_, Some ti, st2) =>
          let '(res, st3) := add_target_params e ti params st2 in
          (res, up_read st3)
      end
  end.

Definition scst_local_sysfs_del_target (target_name : string) (st : state)
    : Z * state :=
  match down_read_trylock st with
  | None => (- ENOENT, st)
  | Some st1 =>
      match find_index (fun t => strcmp target_name (tgt_name t) =? 0)
                       (scst_local_tgts_list st1) with
      | Some ti => (0, up_read (__scst_local_remove_target ti st1))
      | None => (- ENOENT, up_read st1)
      end
  end.

(** [scst_local_sysfs_mgmt_cmd]; the buffer comes as its three lexems. *)
Definition scst_local_sysfs_mgmt_cmd (e : env)
    (command target_name session_name : string) (st : state) : Z * state :=
  match down_read_trylock st with
  | None => (- ENOENT, st)
  | Some st1 =>
      let '(res, st2) :=
        if is_empty target_name then (- EINVAL, st1)
        else
          match find_tgt target_name st1 with
          | None => (- EINVAL, st1)
          | Some ti =>
              if is_empty session_name then (- EINVAL, st1)
              else if strcasecmp "add_session" command =? 0 then
                __scst_local_add_adapter e ti session_name true st1
              else if strcasecmp "del_session" command =? 0 then
                match nth_error (scst_local_tgts_list st1) ti with
                | None => (- EINVAL, st1)
                | Some t =>
                    match find_sess session_name t with
                    | None => (- EINVAL, st1)
                    | Some si =>
                        (0, scst_local_close_session_impl ti si false st1)
                    end
                end
              else (0, st1)
          end in
      (res, up_read st2)
  end.

(** [scst_local_exit] between [down_write] and [up_write]: every target is
    removed, first of the list first. *)
Fixpoint remove_targets (n : nat) (st : state) : state :=
  match n with
  | O => st
  | S k => remove_targets k (__scst_local_remove_target 0 st)
  end.

Definition scst_local_exit (st : state) : option state :=
  match down_write st with
  | None => None
  | Some st1 =>
      Some (up_write
              (remove_targets (List.length (scst_local_tgts_list st1)) st1))
  end.

End Operations.

(** The module after [scst_local_init] without the default target. *)
Definition empty_state : state :=
  {| scst_local_tgts_list := [];
     scst_local_exit_rwsem := {| writer := false; readers := 0 |};
     scst_local_sess_num := 0;
     calls := [] |}.

Definition tgt_exists (name : string) (st : state) : Prop :=
  exists t, In t (scst_local_tgts_list st) /\ tgt_name t = name.

(** An engine and a kernel that accept everything. *)
Definition obliging : env :=
  {| kzalloc_ok := true;
     register_target_ok := fun _ => true;
     register_session_ok := fun _ => true;
     device_register_res := fun _ => 0;
     probe_host := fun _ => 0%nat;
     create_link_res := fun _ => 0;
     has_luns := fun _ => false |}.

End Registry.

(** ** Statements that the properties below settle

    Each one is a reading of the driver's documentation, kept as a definition
    so that it can be proved or refuted as a whole. *)

Module Stated.
Import Aen.

(** States the session machine can be in. *)
Definition reachable {abi : kernel_abi} (s : mstate) : Prop :=
  exists name num h ls, run (init (new_sess name num h)) ls = Some s.

(** No rescan is made after the latch of the session has been set. *)
Definition no_rescan_once_unregistering {abi : kernel_abi} : Prop :=
  forall s, reachable s -> no_scan_after_latch (trace s) = true.

(** The acknowledgements of a session come in the order in which its items
    were enqueued: what has been acknowledged is, at every moment, a prefix
    of what has been enqueued. *)
Definition acknowledged_in_enqueue_order {abi : kernel_abi} : Prop :=
  forall s, reachable s ->
    exists rest, acked (trace s) ++ rest = enqueued (trace s).

(** A failed submission is returned at once, without a wait on the
    completion: the error comes back however such a wait would end. *)
Definition surfaced_without_waiting {abi : kernel_abi}
    (h : TaskMgmt.handler) : Prop :=
  forall e scmd st,
    TaskMgmt.rx_mgmt_ret e <> 0 ->
    fst (fst (TaskMgmt.run_handler h e scmd st))
      = Some (TaskMgmt.rx_mgmt_ret e) /\
    TaskMgmt.waits (snd (TaskMgmt.run_handler h e scmd st)) = false.

(** Whenever the latch is clear and the kind is the SCSI one, the report
    enqueues the item and returns success. *)
Definition report_succeeds_otherwise {abi : kernel_abi} : Prop :=
  forall alloc_ok aen sess,
    unregistering sess = false ->
    event_fn aen = SCST_AEN_SCSI ->
    exists tr,
      scst_local_report_aen alloc_ok aen sess =
        (0,
         set_aen_work_queued true
           (set_aen_work_list (aen_work_list sess ++ [aen]) sess),
         tr).


(** A command word other than the two known ones is accepted and changes
    nothing. *)
Definition unknown_command_is_noop {abi : kernel_abi} : Prop :=
  forall e command target_name session_name st,
    command <> "add_session"%string ->
    command <> "del_session"%string ->
    Registry.tgt_exists target_name st ->
    session_name <> ""%string ->
    Registry.scst_local_sysfs_mgmt_cmd e command target_name session_name st
      = (0, st).

End Stated.

(** ** Invariants of the session machine *)

Module Inv.
Import Aen.

(** The remover has not yet come back from [cancel_work_sync]. *)
Definition before_cancel (r : remover_pc) : bool :=
  match r with
  | RNone | RRemoveAdapter | RDriverRemove | RRelease => true
  | _ => false
  end.

(** [scst_local_remove_adapter] has unlinked the session. *)
Definition unlinked (r : remover_pc) : bool :=
  match r with
  | RNone | RRemoveAdapter => false
  | _ => true
  end.

(** [scst_local_driver_remove] has taken the host out of the session. *)
Definition host_detached (r : remover_pc) : bool :=
  match r with
  | RNone | RRemoveAdapter | RDriverRemove => false
  | _ => true
  end.

Definition drained (r : remover_pc) : bool :=
  match r with
  | RUnregister | RDone => true
  | _ => false
  end.

Definition is_delivery (ev : event) : bool :=
  match ev with
  | scsi_scan_target _ (Some _) | scst_aen_done _ => true
  | _ => false
  end.

(** The rescans and acknowledgements of a trace, in order. *)
Definition deliveries (tr : list event) : list event := filter is_delivery tr.

(** [serial ds o]: in [ds] every rescan made for an item is directly followed
    by the acknowledgement of that item, but for a last rescan whose item [o]
    is still to be acknowledged. *)
Inductive serial : list event -> option scst_aen -> Prop :=
  | serial_nil : serial [] None
  | serial_scan ds h a :
      serial ds None -> serial (ds ++ [scsi_scan_target h (Some a)]) (Some a)
  | serial_ack_scanned ds a :
      serial ds (Some a) -> serial (ds ++ [scst_aen_done a]) None
  | serial_ack ds a :
      serial ds None -> serial (ds ++ [scst_aen_done a]) None.

(** The item the worker has rescanned and not yet acknowledged. *)
Definition scan_pending (s : mstate) : option scst_aen :=
  match worker s with
  | WRun (AtDone w (Some _)) => Some w
  | _ => None
  end.

(** Some schedule leads from [s] to a state that satisfies [P]. *)
Definition can_reach {abi : kernel_abi} (s : mstate) (P : mstate -> Prop) : Prop :=
  exists ls s', run s ls = Some s' /\ P s'.

(** Nothing is left to do for the AENs of the session: no item is queued or
    in flight. *)
Definition settled (s : mstate) : Prop :=
  worker s = WIdle /\ aen_work_list (m_sess s) = [] /\
  forall pc, remover s <> RCleanup pc.

(** What a run of the worker leaves alone. *)
Definition worker_frame (s s' : mstate) : Prop :=
  remover s' = remover s /\ queue_work_due s' = queue_work_due s /\
  aen_work_queued (m_sess s') = aen_work_queued (m_sess s) /\
  unregistering (m_sess s') = unregistering (m_sess s).

Record invariant {abi : kernel_abi} (s : mstate) : Prop := {
  inv_count :
    forall a,
      (times a (acked (trace s)) + times a (in_flight s)
       + times a (aen_work_list (m_sess s)))%nat
      = times a (enqueued (trace s));
  inv_order :
    before_cancel (remover s) = true ->
    acked (trace s) ++ in_flight s ++ aen_work_list (m_sess s)
      = enqueued (trace s);
  inv_kind :
    Forall (fun a => event_fn a = SCST_AEN_SCSI)
           (in_flight s ++ aen_work_list (m_sess s));
  inv_latch :
    unregistering (m_sess s)
      = negb (is_RNone (remover s)) || remove_work_queued (m_sess s);
  inv_sched :
    remove_work_queued (m_sess s) = true -> remover s = RNone;
  inv_host :
    host_detached (remover s) = true -> shost (m_sess s) = None;
  inv_worker_host :
    before_cancel (remover s) = false -> worker_host s = None;
  inv_drained :
    drained (remover s) = true -> aen_work_list (m_sess s) = [];
  inv_quiet :
    before_cancel (remover s) = true -> worker s = WIdle ->
    aen_work_queued (m_sess s) = false -> queue_work_due s = 0%nat ->
    aen_work_list (m_sess s) = [];
  inv_latchings :
    latchings (trace s) = if unregistering (m_sess s) then 1%nat else 0%nat;
  inv_removals :
    removals (trace s) = if unlinked (remover s) then 1%nat else 0%nat;
  inv_cancelled :
    existsb event_is_cancel (trace s) = negb (before_cancel (remover s));
  inv_enq : no_enqueue_after_latch (trace s) = true;
  inv_scan : no_scan_after_cancel (trace s) = true;
  inv_serial : serial (deliveries (trace s)) (scan_pending s)
}.

End Inv.

(** ** Schedules used as examples *)

Module Examples.
Import Aen.

Definition aen_a : scst_aen := {| aen_id := 1; event_fn := 0 |}.
Definition aen_b : scst_aen := {| aen_id := 2; event_fn := 0 |}.

(** The default session of the default target. *)
Definition host_sess : scst_local_sess := new_sess "scst_local_host" 1 0%nat.

Definition final (ls : list label) : mstate :=
  match @run linux_abi (init host_sess) ls with
  | Some s => s
  | None => init host_sess
  end.

(** [aen_a] is reported and delivered; [aen_b] is reported; the session is
    closed synchronously and its removal runs to the end. *)
Definition sched_teardown : list label :=
  [report_aen true aen_a; report_queue_work; aen_work_start;
   aen_work_step true; aen_work_step true; aen_work_step true;
   aen_work_step true;
   report_aen true aen_b; report_queue_work; close_session false;
   remove_step true; remove_step true; remove_step true;
   remove_step true; remove_step true; remove_step true;
   remove_step true; remove_step true; remove_step true].

Definition after_teardown : mstate := Eval vm_compute in final sched_teardown.

(** Close requests of both kinds, before, during and after the removal. *)
Definition sched_closes : list label :=
  [close_session true; close_session false; remove_work_start;
   close_session true; remove_step true; remove_step true;
   remove_step true; remove_step true; remove_step true;
   remove_step true; close_session false].

Definition after_closes : mstate := Eval vm_compute in final sched_closes.

(** Two reports; the worker has acknowledged the first item and holds the
    second. *)
Definition sched_two_reports : list label :=
  [report_aen true aen_a; report_queue_work;
   report_aen true aen_b; report_queue_work; aen_work_start;
   aen_work_step true; aen_work_step true; aen_work_step true;
   aen_work_step true; aen_work_step true].

Definition after_two_reports : mstate :=
  Eval vm_compute in final sched_two_reports.

(** A report, an asynchronous close, then the worker. *)
Definition sched_late_rescan : list label :=
  [report_aen true aen_a; report_queue_work; close_session true;
   aen_work_start; aen_work_step true; aen_work_step true].

Definition after_late_rescan : mstate :=
  Eval vm_compute in final sched_late_rescan.

(** [aen_a] is reported; the report of [aen_b] has enqueued it and is held
    up before its [queue_work]; the session is closed synchronously, the
    removal cancels the work and its cleanup pass unlinks [aen_a]; now the
    [queue_work] of the second report comes, the worker starts, unlinks
    [aen_b] and acknowledges it; then the cleanup pass acknowledges
    [aen_a]. *)
Definition sched_late_queue_work : list label :=
  [report_aen true aen_a; report_queue_work;
   report_aen true aen_b;
   close_session false;
   remove_step true; remove_step true; remove_step true; remove_step true;
   remove_step true;
   report_queue_work; aen_work_start;
   aen_work_step true; aen_work_step true; aen_work_step true;
   remove_step true; remove_step true].

Definition after_late_queue_work : mstate :=
  Eval vm_compute in final sched_late_queue_work.

End Examples.

From Stdlib Require Import HexString.

(** ** Readings of the registry *)

Module RegistryView.
Import Registry.

(** The error numbers are numbers other than zero, as in every kernel. *)
Definition errnos_nonzero {abi : kernel_abi} : Prop :=
  ENOENT <> 0 /\ ENOMEM <> 0 /\ EINVAL <> 0 /\ EFAULT <> 0.

(** The session names the loop of [scst_local_sysfs_add_target] gets to: the
    values of the parameters up to the first parameter without a key. *)
Fixpoint requested_sessions (params : list (string * string)) : list string :=
  match params with
  | [] => []
  | (p, v) :: rest => if is_empty p then [] else v :: requested_sessions rest
  end.

(** No target of the list answers to [name]. *)
Definition no_tgt_named (name : string) (l : list scst_local_tgt) : Prop :=
  Forall (fun t => strcmp name (tgt_name t) <> 0) l.

Definition no_sess_named (name : string) (l : list scst_local_sess) : Prop :=
  Forall (fun s => strcmp (initiator_name s) name <> 0) l.

(** [t] is the first target of [l] that answers to [name]; [l1] comes before
    it and [l2] after it. *)
Definition first_tgt_named (name : string) (l l1 : list scst_local_tgt)
    (t : scst_local_tgt) (l2 : list scst_local_tgt) : Prop :=
  l = l1 ++ t :: l2 /\ no_tgt_named name l1 /\ strcmp name (tgt_name t) = 0.

Definition first_sess_named (name : string) (l l1 : list scst_local_sess)
    (s : scst_local_sess) (l2 : list scst_local_sess) : Prop :=
  l = l1 ++ s :: l2 /\ no_sess_named name l1 /\
  strcmp (initiator_name s) name = 0.

(** Every session of the registry, target by target. *)
Definition all_sessions (st : state) : list scst_local_sess :=
  flat_map sessions_list (scst_local_tgts_list st).

Definition is_unregister_session (ev : event) : bool :=
  match ev with scst_unregister_session => true | _ => false end.

(** The targets unregistered by a sequence of calls, in order. *)
Definition unregistered_targets (evs : list event) : list string :=
  flat_map (fun ev => match ev with
                      | scst_unregister_target n => [n]
                      | _ => []
                      end) evs.

End RegistryView.

(** ** Loading the module *)

Module Init.
Import Registry.

(** What [scst_local_init] registers with the kernel and the engine. *)
Inductive resource : Type :=
  | root_device          (* root_device_register(SCST_LOCAL_NAME) *)
  | lld_bus              (* bus_register(&scst_local_lld_bus) *)
  | lld_driver           (* driver_register(&scst_local_driver) *)
  | target_template      (* scst_register_target_template(&scst_local_targ_tmpl) *)
  | aen_workqueue.       (* create_singlethread_workqueue("scstlclaen") *)

(** A call that registers a resource, with success or not, or that gives it
    back. *)
Inductive init_event : Type :=
  | acquire (r : resource) (ok : bool)
  | release (r : resource).

(** What the kernel and the engine answer to [scst_local_init]. *)
Record init_env : Type := {
  root_device_register_err : option Z;   (* Some e: IS_ERR, PTR_ERR gives e *)
  bus_register_res : Z;
  driver_register_res : Z;
  register_target_template_res : Z;
  create_workqueue_ok : bool;
  scst_local_add_default_tgt : bool;     (* the module parameter *)
  admin : env                            (* answers to the two registry calls *)
}.

Section Load.
Context {abi : kernel_abi}.

(** The labels of the unwinding, from the one reached down to [out]. *)
Definition dev_unreg : list init_event := [release root_device].
Definition bus_unreg : list init_event := release lld_bus :: dev_unreg.
Definition driver_unreg : list init_event := release lld_driver :: bus_unreg.
Definition tgt_templ_unreg : list init_event :=
  release target_template :: driver_unreg.
Definition workqueue_unreg : list init_event :=
  release aen_workqueue :: tgt_templ_unreg.

(** [scst_local_init], for a kernel without HIGHMEM: the value returned, the
    registry, and the calls made for the five resources. *)
Definition scst_local_init (e : init_env) (st : state)
    : Z * state * list init_event :=
  match root_device_register_err e with
  | Some err => (err, st, [acquire root_device false])
  | None =>
      let tr1 := [acquire root_device true] in
      let ret := bus_register_res e in
      if ret <? 0 then (ret, st, tr1 ++ acquire lld_bus false :: dev_unreg)
      else
        let tr2 := tr1 ++ [acquire lld_bus true] in
        let ret := driver_register_res e in
        if ret <? 0 then
          (ret, st, tr2 ++ acquire lld_driver false :: bus_unreg)
        else
          let tr3 := tr2 ++ [acquire lld_driver true] in
          let ret := register_target_template_res e in
          if negb (ret =? 0) then
            (ret, st, tr3 ++ acquire target_template false :: driver_unreg)
          else
            let tr4 := tr3 ++ [acquire target_template true] in
            if negb (create_workqueue_ok e) then
              (* [ret] is not set on this path *)
              (ret, st, tr4 ++ acquire aen_workqueue false :: tgt_templ_unreg)
            else
              let tr5 := tr4 ++ [acquire aen_workqueue true] in
              if negb (scst_local_add_default_tgt e) then (ret, st, tr5)
              else
                match scst_local_add_target (admin e) "scst_local_tgt" st with
                | (ret, None, st1) => (ret, st1, tr5 ++ workqueue_unreg)
                | (_, Some ti, st1) =>
                    let '(ret, st2) :=
                      scst_local_add_adapter (admin e) ti "scst_local_host" st1 in
                    if negb (ret =? 0) then
                      (ret, scst_local_remove_target ti st2,
                       tr5 ++ workqueue_unreg)
                    else (ret, st2, tr5)
                end
  end.

End Load.

Definition resource_eqb (a b : resource) : bool :=
  match a, b with
  | root_device, root_device | lld_bus, lld_bus | lld_driver, lld_driver
  | target_template, target_template | aen_workqueue, aen_workqueue => true
  | _, _ => false
  end.

(** The resources held after a sequence of calls, last registered first;
    [None] when a resource is given back that is not the last one
    registered. *)
Fixpoint held_after (held : list resource) (tr : list init_event)
    : option (list resource) :=
  match tr with
  | [] => Some held
  | acquire r true :: tl => held_after (r :: held) tl
  | acquire _ false :: tl => held_after held tl
  | release r :: tl =>
      match held with
      | r' :: rest => if resource_eqb r r' then held_after rest tl else None
      | [] => None
      end
  end.

(** Every step of [scst_local_init] up to the workqueue is answered with
    success. *)
Definition resources_granted (e : init_env) : Prop :=
  root_device_register_err e = None /\
  0 <= bus_register_res e /\ 0 <= driver_register_res e /\
  register_target_template_res e = 0 /\ create_workqueue_ok e = true.

End Init.

(** ** More constants of the headers

    What the attribute and response paths take from [scst.h], [scst_const.h]
    and the SCSI headers. *)

Class engine_abi : Type := {
  E_TGT_PRIV_NOT_YET_SET : Z;            (* scst.h *)
  SCSI_TRANSPORTID_PROTOCOLID_SAS : Z;   (* scst_const.h *)
  SCST_SYSFS_KEY_MARK : string;          (* scst.h *)
  SCSI_SENSE_BUFFERSIZE : Z;             (* <scsi/scsi_cmnd.h> *)
  SCST_TGT_RES_SUCCESS : Z;              (* scst.h *)
  SCST_DATA_READ_bit : Z                 (* scst_const.h: SCST_DATA_READ, a bit
                                            of the direction *)
}.

#[export] Instance scst_engine_abi : engine_abi := {|
  E_TGT_PRIV_NOT_YET_SET := 16;
  SCSI_TRANSPORTID_PROTOCOLID_SAS := 6;
  SCST_SYSFS_KEY_MARK := "[key]";
  SCSI_SENSE_BUFFERSIZE := 96;
  SCST_TGT_RES_SUCCESS := 0;
  SCST_DATA_READ_bit := 2
|}.

(** Conversion to [uint8_t]. *)
Definition to_u8 (v : Z) : Z := v mod 2 ^ 8.

(** ** The TransportID of a session *)

Module TransportId.
Import Registry.

(** The fields of [struct scst_local_sess] behind [tr_id_mutex], with the
    number of the session: [transport_id] is [None] for the null pointer and
    otherwise the buffer of [transport_id_len] bytes. *)
Record sess_tr_id : Type := {
  tr_number : Z;                      (* sess->number *)
  transport_id : option (list Z)
}.

Definition set_transport_id (id : option (list Z)) (s : sess_tr_id) :=
  {| tr_number := tr_number s; transport_id := id |}.

Section Functions.
Context {abi : kernel_abi} {eabi : engine_abi}.

(** [scst_local_get_sas_transport_id]: the value returned and the buffer put
    in [*transport_id]; [alloc_ok] is what [kzalloc] answers. *)
Definition scst_local_get_sas_transport_id (alloc_ok : bool) (sess : sess_tr_id)
    : Z * option (list Z) :=
  if negb alloc_ok then (- ENOMEM, None)
  else
    let n := tr_number sess in
    (0, Some ([to_u8 (Z.lor 0x00 SCSI_TRANSPORTID_PROTOCOLID_SAS); 0; 0; 0;
               0x5F; 0xEE; 0xDE;
               to_u8 (Z.lor 0x40 (Z.land (Z.shiftr n 4) 0x0F));
               to_u8 (Z.lor 0x0F (Z.shiftl (Z.land n 0x0F) 4));
               0xAD; 0xE0; 0x50]
              ++ repeat 0 12)).

(** [scst_local_get_initiator_port_transport_id]; [None] for a null
    [scst_sess]. *)
Definition scst_local_get_initiator_port_transport_id (alloc_ok : bool)
    (sess : option sess_tr_id) : Z * option (list Z) :=
  match sess with
  | None => (SCSI_TRANSPORTID_PROTOCOLID_SAS, None)
  | Some s =>
      match transport_id s with
      | None => scst_local_get_sas_transport_id alloc_ok s
      | Some id =>
          if alloc_ok then (0, Some id)        (* kmemdup *)
          else (- ENOMEM, None)
      end
  end.

(** [scst_local_transport_id_show]: the value returned, the bytes written to
    [buf], and the registry with its barrier. *)
Definition scst_local_transport_id_show (alloc_ok : bool) (sess : sess_tr_id)
    (st : state) : Z * list Z * state :=
  match down_read_trylock st with
  | None => (- ENOENT, [], st)
  | Some st1 =>
      match transport_id sess with
      | Some id => (Z.of_nat (List.length id), id, up_read st1)
      | None =>
          let '(res, tr_id) := scst_local_get_sas_transport_id alloc_ok sess in
          if negb (res =? 0) then (res, [], up_read st1)
          else
            let id := match tr_id with Some b => b | None => [] end in
            (Z.of_nat (List.length id), id, up_read st1)
      end
  end.

(** [scst_local_transport_id_store]; [buffer] holds the [size] bytes
    written. *)
Definition scst_local_transport_id_store (alloc_ok : bool) (buffer : list Z)
    (sess : sess_tr_id) (st : state) : Z * sess_tr_id * state :=
  match down_read_trylock st with
  | None => (- ENOENT, sess, st)
  | Some st1 =>
      let size := Z.of_nat (List.length buffer) in
      let s1 := set_transport_id None sess in
      if size =? 0 then (size, s1, up_read st1)
      else if negb alloc_ok then (- ENOMEM, s1, up_read st1)
      else (size, set_transport_id (Some buffer) s1, up_read st1)
  end.

End Functions.

(** The session number a default TransportID carries in the two middle
    bytes of its SAS address. *)
Definition number_of_id (id : list Z) : Z :=
  16 * Z.land (nth 7 id 0) 0x0F + Z.shiftr (nth 8 id 0) 4.

End TransportId.

(** ** The version attributes of a target *)

Module VersionAttr.
Import Registry.

(** What [kstrtoul(buffer, 0, &val)] makes of the text written. *)
Inductive kstrtoul_result : Type :=
  | parsed (val : Z)
  | parse_error (res : Z).

Section Attributes.
Context {abi : kernel_abi} {eabi : engine_abi}.

(** [sprintf(buf, "0x%x\n%s", v, mark)]. *)
Definition show_text (v : Z) (mark : bool) : string :=
  (HexString.of_Z v ++ String "010" EmptyString
   ++ (if mark then SCST_SYSFS_KEY_MARK ++ String "010" EmptyString else ""))%string.

(** The attribute functions get the target through [scst_tgt_get_tgt_priv],
    which is null until [scst_local_add_target] has set it: [tgt] is
    [None] then.  A show function gives the value returned and the text. *)
Definition scst_local_scsi_transport_version_show (tgt : option scst_local_tgt)
    (st : state) : Z * string * state :=
  match down_read_trylock st with
  | None => (- ENOENT, ""%string, st)
  | Some st1 =>
      match tgt with
      | None => (- E_TGT_PRIV_NOT_YET_SET, ""%string, up_read st1)
      | Some t =>
          let text :=
            if negb (scsi_transport_version t =? 0)
            then show_text (scsi_transport_version t) true
            else show_text 0x0BE0 false in
          (Z.of_nat (String.length text), text, up_read st1)
      end
  end.

Definition scst_local_phys_transport_version_show (tgt : option scst_local_tgt)
    (st : state) : Z * string * state :=
  match down_read_trylock st with
  | None => (- ENOENT, ""%string, st)
  | Some st1 =>
      match tgt with
      | None => (- E_TGT_PRIV_NOT_YET_SET, ""%string, up_read st1)
      | Some t =>
          let text :=
            show_text (phys_transport_version t)
                      (negb (phys_transport_version t =? 0)) in
          (Z.of_nat (String.length text), text, up_read st1)
      end
  end.

(** A store function gives the value returned and the target. *)
Definition scst_local_scsi_transport_version_store (k : kstrtoul_result)
    (size : Z) (tgt : option scst_local_tgt) (st : state)
    : Z * option scst_local_tgt * state :=
  match down_read_trylock st with
  | None => (- ENOENT, tgt, st)
  | Some st1 =>
      match tgt with
      | None => (- E_TGT_PRIV_NOT_YET_SET, None, up_read st1)
      | Some t =>
          match k with
          | parse_error res => (res, Some t, up_read st1)
          | parsed val =>
              (size,
               Some (Version.scst_local_scsi_transport_version_store val t),
               up_read st1)
          end
      end
  end.

Definition scst_local_phys_transport_version_store (k : kstrtoul_result)
    (size : Z) (tgt : option scst_local_tgt) (st : state)
    : Z * option scst_local_tgt * state :=
  match down_read_trylock st with
  | None => (- ENOENT, tgt, st)
  | Some st1 =>
      match tgt with
      | None => (- E_TGT_PRIV_NOT_YET_SET, None, up_read st1)
      | Some t =>
          match k with
          | parse_error res => (res, Some t, up_read st1)
          | parsed val =>
              (size,
               Some (Version.scst_local_phys_transport_version_store val t),
               up_read st1)
          end
      end
  end.

End Attributes.

End VersionAttr.

(** ** The response to a command *)

Module Response.

(** The command of the engine as the response path reads it. *)
Record scst_cmd_state : Type := {
  aborted_on_xmit : bool;            (* scst_cmd_aborted_on_xmit *)
  dh_data_buff_alloced : bool;       (* scst_cmd_get_dh_data_buff_alloced *)
  data_direction_bits : Z;           (* scst_cmd_get_data_direction *)
  is_send_status : bool;             (* scst_cmd_get_is_send_status *)
  get_resid : option (Z * Z);        (* scst_get_resid: Some (resid, out_resid)
                                        when it returns true *)
  status : Z;                        (* scst_cmd_get_status *)
  sense_valid : bool;                (* scst_sense_valid(cmd->sense) *)
  sense : list Z                     (* the sense buffer, of
                                        scst_cmd_get_sense_buffer_len bytes *)
}.

(** The command of the initiator as the response path writes it. *)
Record scsi_cmnd_state : Type := {
  c_result : Z;
  c_resid : Z;
  sense_buffer : list Z
}.


Section Functions.
Context {eabi : engine_abi}.

(** [memcpy(dst, src, n)] on buffers that hold at least [n] bytes. *)
Definition memcpy (dst src : list Z) (n : nat) : list Z :=
  firstn n src ++ skipn n dst.

(** [scst_local_copy_sense]: the sense buffer of the initiator afterwards. *)
Definition scst_local_copy_sense (cmnd : scsi_cmnd_state)
    (scst_cmnd : scst_cmd_state) : scsi_cmnd_state :=
  let scst_cmnd_sense_len :=
    Z.min (Z.of_nat (List.length (sense scst_cmnd))) SCSI_SENSE_BUFFERSIZE in
  {| c_result := c_result cmnd; c_resid := c_resid cmnd;
     sense_buffer := memcpy (sense_buffer cmnd) (sense scst_cmnd)
                            (Z.to_nat scst_cmnd_sense_len) |}.



End Functions.



End Response.

(** ** More readings of the session machine *)

Module MachineView.
Import Aen.


(** The calls of a run of [scst_process_aens] over the items [q], with the
    host [sh] in hand: a rescan for each item if not [cleanup_only] and
    there is a host, and its acknowledgement. *)
Definition deliveries_of (cleanup_only : bool) (sh : option Scsi_Host)
    (q : list scst_aen) : list event :=
  flat_map (fun a =>
              match sh with
              | Some h => if cleanup_only then []
                          else [scsi_scan_target h (Some a)]
              | None => []
              end ++ [scst_aen_done a]) q.

End MachineView.

(** ** More examples *)

Module MoreExamples.
Import Registry.

(** The registry with the default target and its default session. *)
Definition st_default : state :=
  Eval vm_compute in
    snd (@scst_local_sysfs_add_target linux_abi obliging "scst_local_tgt"
           [("session_name", "scst_local_host")] empty_state)%string.

Definition sess_default : scst_local_sess :=
  Aen.new_sess "scst_local_host" 1 0%nat.

Definition tgt_default : scst_local_tgt :=
  {| tgt_name := "scst_local_tgt"; sessions_list := [sess_default];
     scsi_transport_version := 0; phys_transport_version := 0 |}.

(** The default session with two AENs waiting. *)
Definition sess_pending : scst_local_sess :=
  set_aen_work_list [Examples.aen_a; Examples.aen_b] sess_default.

(** The same registry after [scst_local_exit]. *)
Definition st_after_exit : state :=
  Eval vm_compute in
    match @scst_local_exit linux_abi st_default with
    | Some st => st
    | None => st_default
    end.

(** A kernel that grants everything but the workqueue. *)
Definition env_no_workqueue : Init.init_env :=
  {| Init.root_device_register_err := None;
     Init.bus_register_res := 0;
     Init.driver_register_res := 0;
     Init.register_target_template_res := 0;
     Init.create_workqueue_ok := false;
     Init.scst_local_add_default_tgt := true;
     Init.admin := obliging |}.

Definition env_granting : Init.init_env :=
  {| Init.root_device_register_err := None;
     Init.bus_register_res := 0;
     Init.driver_register_res := 0;
     Init.register_target_template_res := 0;
     Init.create_workqueue_ok := true;
     Init.scst_local_add_default_tgt := true;
     Init.admin := obliging |}.

(** Session number 300, with no TransportID stored. *)
Definition tr_sess_300 : TransportId.sess_tr_id :=
  {| TransportId.tr_number := 300; TransportId.transport_id := None |}.

Definition tr_sess_44 : TransportId.sess_tr_id :=
  {| TransportId.tr_number := 44; TransportId.transport_id := None |}.

(** A command answered with CHECK CONDITION and 4 bytes of sense. *)
Definition cmd_with_sense : Response.scst_cmd_state :=
  {| Response.aborted_on_xmit := false;
     Response.dh_data_buff_alloced := false;
     Response.data_direction_bits := 2;
     Response.is_send_status := true;
     Response.get_resid := Some (512, 0);
     Response.status := 2;
     Response.sense_valid := true;
     Response.sense := [0x70; 0; 5; 0] |}.

Definition scmd_fresh : Response.scsi_cmnd_state :=
  {| Response.c_result := 0; Response.c_resid := 0;
     Response.sense_buffer := repeat 0 96 |}.

End MoreExamples.

(** * Properties *)

(** ** Version descriptors *)

(** C9, as stated, does not hold: the getter of the physical transport
    version has no built-in default.  No constant other than zero is what
    it reports for a target whose field is unset; it reports the zero. *)
Lemma phys_transport_version_has_no_default :
  ~ Version.reports_default_when_unset
      phys_transport_version Version.scst_local_get_phys_transport_version.
Proof.
  intros (c & Hc & Hall).
  apply Hc.
  rewrite <- (Hall {| tgt_name := "t"; sessions_list := [];
                      scsi_transport_version := 0;
                      phys_transport_version := 0 |} eq_refl).
  reflexivity.
Qed.

(** C9, amended: the getter of the SCSI transport version reports 0x0BE0
    for a target whose stored field is zero and the stored field otherwise;
    the getter of the physical transport version reports the stored field as
    it is, zero included. *)
Theorem transport_version_getters (tgt : scst_local_tgt) :
  (scsi_transport_version tgt = 0 ->
     Version.scst_local_get_scsi_transport_version tgt = 0x0BE0) /\
  (scsi_transport_version tgt <> 0 ->
     Version.scst_local_get_scsi_transport_version tgt
       = scsi_transport_version tgt) /\
  Version.scst_local_get_phys_transport_version tgt
    = phys_transport_version tgt.
Proof.
  unfold Version.scst_local_get_scsi_transport_version,
    Version.scst_local_get_phys_transport_version.
  repeat split.
  - intros ->. reflexivity.
  - intros Hne. destruct (Z.eqb_spec (scsi_transport_version tgt) 0);
      [contradiction | reflexivity].
Qed.

Lemma transport_version_getters_witness :
  let unset := {| tgt_name := "scst_local_tgt"; sessions_list := [];
                  scsi_transport_version := 0;
                  phys_transport_version := 0 |} in
  let set := Version.scst_local_scsi_transport_version_store 0x0C20 unset in
  Version.scst_local_get_scsi_transport_version unset = 0x0BE0 /\
  Version.scst_local_get_scsi_transport_version set = 0x0C20 /\
  Version.scst_local_get_phys_transport_version unset = 0.
Proof.
  intros unset set.
  destruct (transport_version_getters unset) as (H0 & _ & Hp).
  destruct (transport_version_getters set) as (_ & H1 & _).
  split; [apply H0; reflexivity |].
  split; [rewrite H1; [reflexivity | discriminate] |].
  rewrite Hp. reflexivity.
Defined.

(** ** Task management *)

Lemma wrap_int_small (v : Z) :
  - 2 ^ 31 <= v < 2 ^ 31 -> wrap_int v = v.
Proof.
  intros H. unfold wrap_int.
  rewrite Z.mod_small by lia. lia.
Qed.

(** C4: each call of the abort, device-reset or target-reset handler adds
    one to its own counter (an [atomic_t], so modulo 2^32) when its wait has
    ended and leaves the two other counters alone, whatever status the
    engine gave the function, found or not, and whether the wait ended by the
    completion or by a signal; and once the completion has fired, the call
    returns SUCCESS whenever the submission returned zero. *)
Theorem task_mgmt_counts_once_and_succeeds
    {abi : kernel_abi} (h : TaskMgmt.handler)
    (e : TaskMgmt.mgmt_env) (scmd : scsi_cmnd) (st : TaskMgmt.stats) :
  TaskMgmt.wait e <> TaskMgmt.blocked ->
  let '(ret, st', _) := TaskMgmt.run_handler h e scmd st in
  TaskMgmt.counter h st' = wrap_int (TaskMgmt.counter h st + 1) /\
  (- 2 ^ 31 <= TaskMgmt.counter h st < 2 ^ 31 - 1 ->
     TaskMgmt.counter h st' = TaskMgmt.counter h st + 1) /\
  (forall h', h' <> h -> TaskMgmt.counter h' st' = TaskMgmt.counter h' st) /\
  (TaskMgmt.rx_mgmt_ret e = 0 -> ret = Some SUCCESS) /\
  (TaskMgmt.rx_mgmt_ret e <> 0 -> ret = Some (TaskMgmt.rx_mgmt_ret e)).
Proof.
  intros Hw.
  assert (Hr : TaskMgmt.wait_returns (TaskMgmt.wait e) = true)
    by (destruct (TaskMgmt.wait e); [reflexivity | reflexivity | contradiction]).
  destruct h; cbn;
    unfold TaskMgmt.scst_local_abort, TaskMgmt.scst_local_device_reset,
      TaskMgmt.scst_local_target_reset; rewrite Hr; cbn.
  all: repeat split.
  all: try (intros Hc; unfold atomic_inc; apply wrap_int_small; lia).
  all: try (intros h' Hne; destruct h'; cbn; congruence).
  all: try (intros ->; reflexivity).
  all: intros Hne; destruct (Z.eqb_spec (TaskMgmt.rx_mgmt_ret e) 0);
    [contradiction | reflexivity].
Qed.

Lemma task_mgmt_counts_once_and_succeeds_witness :
  let e := {| TaskMgmt.rx_mgmt_ret := 0; TaskMgmt.mgmt_status := 1;
              TaskMgmt.wait := TaskMgmt.completed |} in
  let scmd := {| lun := 0; cmnd := [0x12]; request_tag := 5;
                 tagged_supported := true; simple_tags := true;
                 sc_data_direction := DMA_NONE; bidi := false;
                 bufflen := 0; sglist := []; result := 0; resid := 0 |} in
  let st := {| TaskMgmt.num_aborts := 41; TaskMgmt.num_dev_resets := 0;
               TaskMgmt.num_target_resets := 0 |} in
  fst (fst (@TaskMgmt.scst_local_abort linux_abi e scmd st)) = Some 0x2002 /\
  TaskMgmt.num_aborts (snd (fst (@TaskMgmt.scst_local_abort linux_abi e scmd st)))
    = 42.
Proof.
  intros e scmd st.
  pose proof (@task_mgmt_counts_once_and_succeeds
                linux_abi TaskMgmt.Abort e scmd st ltac:(discriminate)) as H.
  cbn in H. destruct H as (_ & Hinc & _ & Hret & _).
  split.
  - apply Hret. reflexivity.
  - apply Hinc. cbn. lia.
Defined.

(** C5, as stated, does not hold: the abort handler waits for the completion
    also when [scst_rx_mgmt_fn_tag] has returned an error, and when neither
    the completion nor a signal comes it does not return the error at
    all. *)
Lemma failed_submission_still_waits :
  ~ @Stated.surfaced_without_waiting linux_abi TaskMgmt.Abort.
Proof.
  intros H.
  specialize (H {| TaskMgmt.rx_mgmt_ret := -12; TaskMgmt.mgmt_status := 0;
                   TaskMgmt.wait := TaskMgmt.blocked |}
                {| lun := 0; cmnd := []; request_tag := 0;
                   tagged_supported := false; simple_tags := false;
                   sc_data_direction := DMA_NONE; bidi := false;
                   bufflen := 0; sglist := []; result := 0; resid := 0 |}
                {| TaskMgmt.num_aborts := 0; TaskMgmt.num_dev_resets := 0;
                   TaskMgmt.num_target_resets := 0 |}).
  cbn in H. destruct (H ltac:(discriminate)) as [Hret _]. discriminate Hret.
Qed.

(** C5, amended: when the submission of a task-management function returns a
    non-zero error, the handler makes no second submission and still waits on
    the completion; it returns only when that wait ends, by the completion or
    by a signal, and then it has counted the call and returns the error
    unchanged; while the wait does not end it does not return. *)
Theorem failed_submission_returned_after_wait
    {abi : kernel_abi} (h : TaskMgmt.handler)
    (e : TaskMgmt.mgmt_env) (scmd : scsi_cmnd) (st : TaskMgmt.stats) :
  TaskMgmt.rx_mgmt_ret e <> 0 ->
  let '(ret, st', tr) := TaskMgmt.run_handler h e scmd st in
  TaskMgmt.waits tr = true /\
  List.length tr = 2%nat /\
  nth_error tr 1 = Some wait_for_completion_interruptible /\
  (TaskMgmt.wait e = TaskMgmt.blocked -> ret = None /\ st' = st) /\
  (TaskMgmt.wait e <> TaskMgmt.blocked ->
     ret = Some (TaskMgmt.rx_mgmt_ret e) /\
     TaskMgmt.counter h st' = wrap_int (TaskMgmt.counter h st + 1)).
Proof.
  intros Hne.
  destruct h; cbn;
    unfold TaskMgmt.scst_local_abort, TaskMgmt.scst_local_device_reset,
      TaskMgmt.scst_local_target_reset;
    (destruct (Z.eqb_spec (TaskMgmt.rx_mgmt_ret e) 0); [contradiction |]);
    destruct (TaskMgmt.wait e); cbn; repeat split;
    try discriminate;
    match goal with H : ?x <> ?x |- _ => contradiction H; reflexivity end.
Qed.

Lemma failed_submission_returned_after_wait_witness :
  let e := {| TaskMgmt.rx_mgmt_ret := -12; TaskMgmt.mgmt_status := 0;
              TaskMgmt.wait := TaskMgmt.interrupted |} in
  let scmd := {| lun := 3; cmnd := []; request_tag := 0;
                 tagged_supported := false; simple_tags := false;
                 sc_data_direction := DMA_NONE; bidi := false;
                 bufflen := 0; sglist := []; result := 0; resid := 0 |} in
  let st := {| TaskMgmt.num_aborts := 0; TaskMgmt.num_dev_resets := 7;
               TaskMgmt.num_target_resets := 0 |} in
  fst (fst (@TaskMgmt.scst_local_device_reset linux_abi e scmd st))
    = Some (-12) /\
  TaskMgmt.waits (snd (@TaskMgmt.scst_local_device_reset linux_abi e scmd st))
    = true.
Proof.
  intros e scmd st.
  pose proof (@failed_submission_returned_after_wait
                linux_abi TaskMgmt.DeviceReset e scmd st
                ltac:(cbn; discriminate)) as H.
  cbn in H. destruct H as (Hw & _ & _ & _ & Hret).
  split; [apply Hret; discriminate | exact Hw].
Defined.

(** ** Command submission *)

(** C3: a command submitted to a session whose latch is set is not handed
    to the engine (no [scst_rx_cmd], no [scst_cmd_init_done]); its result is
    set to [DID_BAD_TARGET << 16], the completion of the initiator is called
    at once, and only it, and zero is returned. *)
Theorem queuecommand_on_closing_session
    {abi : kernel_abi} (rx_cmd_ok : bool)
    (sess : scst_local_sess) (scmd : scsi_cmnd) :
  unregistering sess = true ->
  let '(ret, scmd', tr) :=
    Command.scst_local_queuecommand rx_cmd_ok sess scmd in
  ret = 0 /\
  result scmd' = wrap_int (Z.shiftl DID_BAD_TARGET 16) /\
  tr = [scsi_done scmd'] /\
  existsb Command.reaches_engine tr = false.
Proof.
  intros Hu. unfold Command.scst_local_queuecommand. rewrite Hu.
  repeat split.
Qed.

Lemma queuecommand_on_closing_session_witness :
  let sess := set_unregistering true (Aen.new_sess "scst_local_host" 1 0%nat) in
  let scmd := {| lun := 0; cmnd := [0x28; 0; 0; 0; 0; 0; 0; 0; 1; 0];
                 request_tag := 9;
                 tagged_supported := true; simple_tags := true;
                 sc_data_direction := DMA_FROM_DEVICE; bidi := false;
                 bufflen := 512; sglist := [512]; result := 0; resid := 0 |} in
  fst (fst (@Command.scst_local_queuecommand linux_abi true sess scmd)) = 0 /\
  result (snd (fst (@Command.scst_local_queuecommand linux_abi true sess scmd)))
    = 0x40000 /\
  existsb Command.reaches_engine
    (snd (@Command.scst_local_queuecommand linux_abi true sess scmd)) = false.
Proof.
  intros sess scmd.
  pose proof (@queuecommand_on_closing_session linux_abi true sess scmd
                eq_refl) as H.
  cbn in H. destruct H as (H0 & H1 & _ & H3).
  split; [exact H0 |]. split; [exact H1 | exact H3].
Defined.

(** ** Reporting an AEN *)

(** C7, as stated, does not hold: with the latch clear and the SCSI kind, a
    report whose work item cannot be allocated enqueues nothing and returns
    -ENOMEM, not success. *)
Lemma report_aen_can_fail_with_enomem :
  ~ @Stated.report_succeeds_otherwise linux_abi.
Proof.
  intros H.
  destruct (H false {| aen_id := 1; event_fn := 0 |}
              (Aen.new_sess "scst_local_host" 1 0%nat) eq_refl eq_refl)
    as (tr & Htr).
  cbn in Htr. discriminate.
Qed.

(** C7, amended: [scst_local_report_aen] returns the not-supported result,
    with the queue unchanged and no work queued, in exactly two cases: the
    kind is not the SCSI one, or the work item was allocated and the latch is
    found set under the lock.  For a SCSI kind whose work item cannot be
    allocated it returns -ENOMEM, again with nothing enqueued.  In all other
    cases it appends the item at the tail, queues the work and returns
    zero. *)
Theorem report_aen_outcomes
    {abi : kernel_abi} (alloc_ok : bool) (aen : scst_aen)
    (sess : scst_local_sess) :
  SCST_AEN_RES_NOT_SUPPORTED <> 0 ->
  SCST_AEN_RES_NOT_SUPPORTED <> - ENOMEM ->
  let '(res, sess', tr) := Aen.scst_local_report_aen alloc_ok aen sess in
  (res = SCST_AEN_RES_NOT_SUPPORTED <->
     event_fn aen <> SCST_AEN_SCSI \/
     (alloc_ok = true /\ unregistering sess = true)) /\
  (res = SCST_AEN_RES_NOT_SUPPORTED -> sess' = sess /\ tr = []) /\
  (event_fn aen = SCST_AEN_SCSI -> alloc_ok = false ->
     res = - ENOMEM /\ sess' = sess /\ tr = []) /\
  (event_fn aen = SCST_AEN_SCSI -> alloc_ok = true ->
   unregistering sess = false ->
     res = 0 /\
     aen_work_list sess' = aen_work_list sess ++ [aen] /\
     aen_work_queued sess' = true /\
     tr = [aen_enqueued aen; queue_work_aen]).
Proof.
  intros Hns0 Hnsm.
  unfold Aen.scst_local_report_aen, Aen.report_aen_enqueue,
    Aen.report_aen_queue_work.
  destruct (Z.eqb_spec (event_fn aen) SCST_AEN_SCSI) as [Hk | Hk];
    [destruct alloc_ok; [destruct (unregistering sess) eqn:Hu |] |]; cbn.
  - (* latch set *)
    repeat split; try congruence; auto.
  - (* enqueued *)
    repeat split; try congruence.
    intros [Hc | [_ Hc]]; congruence.
  - (* no memory *)
    repeat split; try congruence.
    intros [Hc | [Hc _]]; congruence.
  - (* kind not supported *)
    repeat split; try congruence; auto.
Qed.

Lemma report_aen_outcomes_witness :
  let sess := Aen.new_sess "scst_local_host" 1 0%nat in
  let a := {| aen_id := 1; event_fn := 0 |} in
  let other := {| aen_id := 2; event_fn := 1 |} in
  fst (fst (@Aen.scst_local_report_aen linux_abi true a sess)) = 0 /\
  aen_work_list (snd (fst (@Aen.scst_local_report_aen linux_abi true a sess)))
    = [a] /\
  fst (fst (@Aen.scst_local_report_aen linux_abi false a sess)) = -12 /\
  fst (fst (@Aen.scst_local_report_aen linux_abi true other sess)) = -1 /\
  fst (fst (@Aen.scst_local_report_aen linux_abi true a
              (set_unregistering true sess))) = -1.
Proof.
  intros sess a other.
  pose proof (@report_aen_outcomes linux_abi true a sess
                ltac:(cbn; discriminate) ltac:(cbn; discriminate)) as H1.
  pose proof (@report_aen_outcomes linux_abi false a sess
                ltac:(cbn; discriminate) ltac:(cbn; discriminate)) as H2.
  pose proof (@report_aen_outcomes linux_abi true other sess
                ltac:(cbn; discriminate) ltac:(cbn; discriminate)) as H3.
  pose proof (@report_aen_outcomes linux_abi true a (set_unregistering true sess)
                ltac:(cbn; discriminate) ltac:(cbn; discriminate)) as H4.
  cbn in H1, H2, H3, H4.
  destruct H1 as (_ & _ & _ & H1). destruct (H1 eq_refl eq_refl eq_refl) as (R1 & L1 & _).
  destruct H2 as (_ & _ & H2 & _). destruct (H2 eq_refl eq_refl) as (R2 & _).
  destruct H3 as (H3 & _). destruct H4 as (H4 & _).
  split; [exact R1 |]. split; [exact L1 |]. split; [exact R2 |].
  split.
  - apply H3. left. discriminate.
  - apply H4. right. split; reflexivity.
Defined.


(** ** The session machine *)

Import Aen Inv.

(** *** Readings of a trace that grows at its end *)

Section Traces.

Lemma enqueued_app tr evs :
  enqueued (tr ++ evs) = enqueued tr ++ enqueued evs.
Proof. apply flat_map_app. Qed.

Lemma acked_app tr evs : acked (tr ++ evs) = acked tr ++ acked evs.
Proof. apply flat_map_app. Qed.

Lemma scanned_app tr evs : scanned (tr ++ evs) = scanned tr ++ scanned evs.
Proof. apply flat_map_app. Qed.

Lemma deliveries_app tr evs :
  deliveries (tr ++ evs) = deliveries tr ++ deliveries evs.
Proof. apply filter_app. Qed.

Lemma latchings_app tr evs :
  latchings (tr ++ evs) = (latchings tr + latchings evs)%nat.
Proof. unfold latchings. rewrite filter_app, length_app. reflexivity. Qed.

Lemma removals_app tr evs :
  removals (tr ++ evs) = (removals tr + removals evs)%nat.
Proof. unfold removals. rewrite filter_app, length_app. reflexivity. Qed.

Lemma times_app a l1 l2 : times a (l1 ++ l2) = (times a l1 + times a l2)%nat.
Proof. apply count_occ_app. Qed.

Lemma times_cons a x l : times a (x :: l) = (times a [x] + times a l)%nat.
Proof. apply (times_app a [x] l). Qed.

Lemma times_nil a : times a [] = 0%nat.
Proof. reflexivity. Qed.

(** Nothing of kind [q] follows something of kind [p] in [tr ++ evs] when
    that holds in both parts and not both a [p] is in [tr] and a [q] in
    [evs]. *)
Lemma never_after_app p q tr evs :
  never_after p q (tr ++ evs)
  = never_after p q tr && never_after p q evs
    && (negb (existsb p tr) || negb (existsb q evs)).
Proof.
  induction tr as [| ev tr IH]; cbn.
  - destruct (never_after p q evs); reflexivity.
  - rewrite IH, existsb_app.
    destruct (p ev); cbn;
      destruct (existsb q tr), (existsb q evs), (never_after p q tr),
        (never_after p q evs), (existsb p tr); reflexivity.
Qed.

Lemma count_zero_existsb (p : event -> bool) tr :
  List.length (filter p tr) = 0%nat -> existsb p tr = false.
Proof.
  induction tr as [| ev tr IH]; cbn; [reflexivity |].
  destruct (p ev); cbn; [discriminate | exact IH].
Qed.

End Traces.

(** *** The invariant holds in every reachable state *)

Create Rewrite HintDb trace_app.
#[export] Hint Rewrite acked_app enqueued_app scanned_app deliveries_app
  latchings_app removals_app existsb_app never_after_app : trace_app.

Lemma set_unregistering_id sess :
  unregistering sess = true -> set_unregistering true sess = sess.
Proof. destruct sess; cbn; intros ->; reflexivity. Qed.

(** The projections of the state and of the session, computed. *)
Ltac proj :=
  cbn [m_sess queue_work_due worker remover trace
       unregistering shost aen_work_queued aen_work_list remove_work_queued
       initiator_name number
       set_unregistering set_shost set_aen_work_queued set_aen_work_list
       set_remove_work_queued
       before_cancel unlinked drained host_detached is_RNone is_idle
       drain_held drain_host
       negb andb orb app] in *.

(** The readings of a trace that has grown by a few events. *)
Ltac trace_norm :=
  autorewrite with trace_app;
  cbn [acked enqueued scanned deliveries latchings removals existsb
       never_after flat_map filter app List.length is_delivery
       event_is_latch event_is_cancel is_scan is_enqueue negb andb orb];
  rewrite ?app_nil_r, ?Nat.add_0_r, ?orb_false_r, ?andb_true_r, ?orb_true_r.

(** The invariant of the state before the step, as hypotheses. *)
Ltac open_inv I :=
  destruct I as [Hcount Horder Hkind Hlatch Hsched Hhost Hwhost Hdr Hquiet
                 Hlat Hrem Hcan Henq Hscan Hser];
  unfold in_flight, worker_host, scan_pending, no_enqueue_after_latch,
    no_scan_after_cancel in *;
  proj; rewrite ?app_nil_r in *.

(** The invariant of the state after the step, field by field. *)
Ltac close_inv :=
  constructor;
  unfold in_flight, worker_host, scan_pending, no_enqueue_after_latch,
    no_scan_after_cancel;
  proj; trace_norm.

(** Occurrences counted through appends. *)
Ltac count :=
  intros;
  repeat match goal with
         | H : forall a : scst_aen, _ = times a _ |- context [times ?b _] =>
             pose proof (H b); clear H
         end;
  rewrite ?times_app, ?times_nil in *;
  repeat match goal with
         | |- context [times ?a (?x :: ?l)] =>
             lazymatch l with
             | [] => fail
             | _ => rewrite (times_cons a x l)
             end
         | H : context [times ?a (?x :: ?l)] |- _ =>
             lazymatch l with
             | [] => fail
             | _ => rewrite (times_cons a x l) in H
             end
         end;
  try lia.

(** The fields that the step leaves as they were, or changes by a
    computation. *)
Ltac finish :=
  try reflexivity; try assumption; try discriminate; try congruence;
  try (intros; intuition (try congruence; try discriminate));
  try match goal with
      | Henq : never_after event_is_latch is_enqueue _ = true |- _ =>
          rewrite ?Henq
      end;
  try match goal with
      | Hscan : never_after event_is_cancel is_scan _ = true |- _ =>
          rewrite ?Hscan
      end;
  try match goal with
      | Hlat : latchings _ = _ |- _ => rewrite ?Hlat
      end;
  try match goal with
      | Hrem : removals _ = _ |- _ => rewrite ?Hrem
      end;
  try match goal with
      | Hcan : existsb event_is_cancel _ = _ |- _ => rewrite ?Hcan
      end;
  proj; try reflexivity.

(** The kind of every item of a list, from the kinds of the items of its
    parts. *)
Ltac forall_kind :=
  repeat (rewrite Forall_app in * || rewrite Forall_cons_iff in *);
  intuition (auto using Forall_nil).

Section Preservation.
Context {abi : kernel_abi}.

Lemma inv_init name num h : invariant (init (new_sess name num h)).
Proof.
  constructor; cbn; try reflexivity; try constructor; try discriminate; auto.
Qed.

Lemma latch_clear_RNone s :
  invariant s -> unregistering (m_sess s) = false ->
  remover s = RNone /\ remove_work_queued (m_sess s) = false.
Proof.
  intros I Hu. pose proof (inv_latch s I) as H. rewrite Hu in H.
  destruct (remover s); cbn in H; try discriminate.
  split; [reflexivity | symmetry; exact H].
Qed.

Lemma inv_step_report s a ok s' :
  invariant s -> step s (report_aen ok a) = Some s' -> invariant s'.
Proof.
  intros I Hs. destruct s as [sess due w r tr]. cbn in Hs.
  unfold report_aen_enqueue in Hs. revert Hs.
  destruct (Z.eqb_spec (event_fn a) SCST_AEN_SCSI) as [Hk | Hk];
    [destruct ok; [destruct (unregistering sess) eqn:Hu |] |];
    cbn; rewrite ?app_nil_r; intros Hs; inversion Hs; subst s'; clear Hs;
    try exact I.
  destruct (latch_clear_RNone _ I Hu) as [Hr Hrq]. proj. subst r.
  open_inv I. specialize (Horder eq_refl).
  close_inv; rewrite ?Hu, ?Hrq in *; finish.
  - count.
  - rewrite <- Horder, <- !app_assoc. reflexivity.
  - rewrite app_assoc. apply Forall_app; split; [exact Hkind | repeat constructor; exact Hk].
  - rewrite (count_zero_existsb _ _ Hlat). reflexivity.
Qed.

Lemma inv_step_queue_work s s' :
  invariant s -> step s report_queue_work = Some s' -> invariant s'.
Proof.
  intros I Hs. destruct s as [sess due w r tr]. cbn in Hs. revert Hs.
  destruct due as [| due]; [discriminate |].
  intros Hs; inversion Hs; subst s'; clear Hs.
  open_inv I.
  close_inv; finish.
Qed.

Lemma inv_step_close s async s' :
  invariant s -> step s (close_session async) = Some s' -> invariant s'.
Proof.
  intros I Hs. destruct s as [sess due w r tr]. cbn in Hs. revert Hs.
  destruct (unregistering sess) eqn:Hu.
  - rewrite (set_unregistering_id _ Hu). intros Hs; inversion Hs; subst; exact I.
  - destruct (latch_clear_RNone _ I Hu) as [Hr Hrq]. proj. subst r.
    open_inv I.
    destruct async; intros Hs; inversion Hs; subst s'; clear Hs;
      close_inv; rewrite ?Hu, ?Hrq in *; finish.
Qed.

Lemma inv_step_work_start s s' :
  invariant s -> step s aen_work_start = Some s' -> invariant s'.
Proof.
  intros I Hs. destruct s as [sess due w r tr]. cbn in Hs. revert Hs.
  destruct (aen_work_queued sess) eqn:Hq; [| discriminate].
  destruct w; cbn; [| discriminate].
  intros Hs; inversion Hs; subst s'; clear Hs.
  open_inv I.
  close_inv; finish.
Qed.

Lemma inv_step_work_step s g s' :
  invariant s -> step s (aen_work_step g) = Some s' -> invariant s'.
Proof.
  intros I Hs. destruct s as [sess due w r tr]. cbn in Hs. revert Hs.
  destruct w as [| pc]; [discriminate |].
  destruct pc as [| x sh | x sh]; cbn.
  - unfold process_aens_pop.
    destruct (aen_work_list sess) as [| x rest] eqn:Hl;
      intros Hs; inversion Hs; subst s'; clear Hs;
      open_inv I; rewrite ?Hl in *;
      destruct r as [| | | | | pc | |]; proj;
      try specialize (Horder eq_refl); try specialize (Hhost eq_refl);
      try specialize (Hwhost eq_refl);
      try (match type of Hhost with _ = _ => rewrite Hhost in * end);
      rewrite ?app_nil_r in *;
      close_inv; rewrite ?Hl in *; proj; rewrite ?app_nil_r; finish.
    all: try solve [count].
    all: try solve [forall_kind].
  - unfold process_aens_deliver.
    destruct (Z.eqb_spec (event_fn x) SCST_AEN_SCSI) as [Hk | Hk]; [| discriminate].
    destruct sh as [h |]; cbn;
      intros Hs; inversion Hs; subst s'; clear Hs;
      open_inv I;
      destruct r as [| | | | | pc | |]; proj;
      try specialize (Horder eq_refl); try specialize (Hhost eq_refl);
      try specialize (Hwhost eq_refl); try discriminate;
      rewrite ?app_nil_r in *;
      close_inv; proj; rewrite ?app_nil_r; finish.
    all: try solve [count].
    all: try solve [forall_kind].
    all: try solve [apply serial_scan; assumption].
  - intros Hs; inversion Hs; subst s'; clear Hs;
      open_inv I;
      destruct r as [| | | | | pc | |]; proj;
      try specialize (Horder eq_refl); try specialize (Hhost eq_refl);
      try specialize (Hwhost eq_refl); subst;
      rewrite ?app_nil_r in *;
      close_inv; proj; rewrite ?app_nil_r; finish.
    all: try solve [count].
    all: try solve [forall_kind].
    all: try solve [destruct sh; [apply serial_ack_scanned | apply serial_ack]; assumption].
    all: try solve [apply serial_ack; assumption].
    all: try solve [rewrite <- Horder, <- !app_assoc; reflexivity].
Qed.

Lemma inv_step_remove_start s s' :
  invariant s -> step s remove_work_start = Some s' -> invariant s'.
Proof.
  intros I Hs. destruct s as [sess due w r tr]. cbn in Hs. revert Hs.
  destruct (remove_work_queued sess) eqn:Hq; [| discriminate].
  destruct r; cbn; try discriminate.
  intros Hs; inversion Hs; subst s'; clear Hs.
  open_inv I.
  close_inv; rewrite ?Hq in *; finish.
Qed.

Lemma inv_step_remove_step s g s' :
  invariant s -> step s (remove_step g) = Some s' -> invariant s'.
Proof.
  intros I Hs. destruct s as [sess due w r tr]. cbn in Hs. revert Hs.
  destruct r as [| | | | | pc | |]; try discriminate.
  - (* RRemoveAdapter *)
    intros Hs; inversion Hs; subst s'; clear Hs. open_inv I.
    close_inv; finish.
  - (* RDriverRemove *)
    cbn. intros Hs; inversion Hs; subst s'; clear Hs. open_inv I.
    close_inv; finish.
  - (* RRelease *)
    destruct w; cbn; [| discriminate].
    intros Hs; inversion Hs; subst s'; clear Hs. open_inv I.
    close_inv; finish.
  - (* RLock *)
    intros Hs; inversion Hs; subst s'; clear Hs. open_inv I.
    close_inv; destruct (unregistering sess); proj; trace_norm; finish.
  - (* RCleanup *)
    destruct pc as [| x sh | x sh]; cbn.
    + unfold process_aens_pop. destruct (aen_work_list sess) as [| x rest] eqn:Hl;
      intros Hs; inversion Hs; subst s'; clear Hs;
      open_inv I; rewrite ?Hl in *; proj; rewrite ?app_nil_r in *;
      close_inv; rewrite ?Hl in *; proj; rewrite ?app_nil_r; finish.
      all: try solve [count].
      all: try solve [forall_kind].
    + intros Hs; inversion Hs; subst s'; clear Hs; open_inv I;
      close_inv; proj; rewrite ?app_nil_r; finish.
    + intros Hs; inversion Hs; subst s'; clear Hs; open_inv I;
      specialize (Hwhost eq_refl);
      close_inv; proj; rewrite ?app_nil_r; finish.
      all: try solve [count].
      all: try solve [forall_kind].
      destruct w as [| [| y sh' | y sh']]; proj; try subst sh';
        apply serial_ack; exact Hser.
  - (* RUnregister *)
    intros Hs; inversion Hs; subst s'; clear Hs. open_inv I.
    close_inv; finish.
Qed.

Lemma inv_step s l s' : invariant s -> step s l = Some s' -> invariant s'.
Proof.
  destruct l.
  - apply inv_step_report.
  - apply inv_step_queue_work.
  - apply inv_step_close.
  - apply inv_step_work_start.
  - apply inv_step_work_step.
  - apply inv_step_remove_start.
  - apply inv_step_remove_step.
Qed.

Lemma inv_run ls : forall s s', invariant s -> run s ls = Some s' -> invariant s'.
Proof.
  induction ls as [| l ls IH]; cbn; intros s s' I H.
  - inversion H; subst; exact I.
  - destruct (step s l) as [s1 |] eqn:Hs; [| discriminate].
    eapply IH; [eapply inv_step; eassumption | exact H].
Qed.

Lemma inv_reachable s : Stated.reachable s -> invariant s.
Proof.
  intros (name & num & h & ls & H). eapply inv_run; [apply inv_init | exact H].
Qed.

End Preservation.

(** *** Drains and teardown run to their end *)

Section Reach.
Context {abi : kernel_abi}.

Lemma run_app s l1 : forall l2 s1,
  run s l1 = Some s1 -> run s (l1 ++ l2) = run s1 l2.
Proof.
  revert s. induction l1 as [| l l1 IH]; cbn; intros s l2 s1 H.
  - inversion H; reflexivity.
  - destruct (step s l) as [s2 |]; [| discriminate]. apply IH. exact H.
Qed.

Lemma run_step s l s1 ls :
  step s l = Some s1 -> run s (l :: ls) = run s1 ls.
Proof. cbn. intros ->. reflexivity. Qed.

Lemma can_reach_here s (P : mstate -> Prop) : P s -> can_reach s P.
Proof. intros H. exists [], s. split; [reflexivity | exact H]. Qed.

Lemma can_reach_step s l s1 (P : mstate -> Prop) :
  step s l = Some s1 -> can_reach s1 P -> can_reach s P.
Proof.
  intros Hs (ls & s' & Hr & HP). exists (l :: ls), s'.
  rewrite (run_step _ _ _ _ Hs). split; assumption.
Qed.

Lemma can_reach_trans s (P Q : mstate -> Prop) :
  can_reach s P -> (forall s1, P s1 -> can_reach s1 Q) -> can_reach s Q.
Proof.
  intros (l1 & s1 & H1 & HP) HQ. destruct (HQ s1 HP) as (l2 & s2 & H2 & HQ2).
  exists (l1 ++ l2), s2. rewrite (run_app _ _ l2 _ H1). split; assumption.
Qed.

Lemma can_reach_inv s (P : mstate -> Prop) :
  invariant s -> can_reach s P -> can_reach s (fun s' => invariant s' /\ P s').
Proof.
  intros I (ls & s' & Hr & HP). exists ls, s'. split; [exact Hr |].
  split; [eapply inv_run; eassumption | exact HP].
Qed.

End Reach.

Section WorkerProgress.
Context {abi : kernel_abi}.

(** The worker, at the head of its loop, runs to the end of it. *)
Lemma worker_drains_from_loop : forall q s,
  invariant s -> worker s = WRun AtLoop -> aen_work_list (m_sess s) = q ->
  can_reach s (fun s' => worker s' = WIdle /\ aen_work_list (m_sess s') = [] /\
                         worker_frame s s').
Proof.
  induction q as [| x rest IH]; intros s I Hw Hq.
  - destruct s as [sess due w r tr]; proj; subst w.
    eapply (can_reach_step _ (aen_work_step true)).
    { cbn. unfold process_aens_pop. rewrite Hq. reflexivity. }
    apply can_reach_here. unfold worker_frame. proj. repeat split; assumption.
  - destruct s as [sess due w r tr]; proj; subst w.
    pose proof (inv_kind _ I) as Hk. unfold in_flight in Hk. proj.
    rewrite Hq in Hk.
    assert (Hx : event_fn x = SCST_AEN_SCSI) by (forall_kind).
    apply Z.eqb_eq in Hx.
    set (s0 := {| m_sess := sess; queue_work_due := due; worker := WRun AtLoop;
                  remover := r; trace := tr |}) in *.
    destruct (run s0 [aen_work_step true; aen_work_step true; aen_work_step true])
      as [s3 |] eqn:H3.
    2: { exfalso. revert H3. subst s0. cbn. unfold process_aens_pop. rewrite Hq. cbn.
         unfold process_aens_deliver. cbn. rewrite Hx. cbn.
         destruct (shost sess); discriminate. }
    assert (H3' : worker s3 = WRun AtLoop /\ aen_work_list (m_sess s3) = rest /\
                  worker_frame s0 s3).
    { revert H3. subst s0. cbn. unfold process_aens_pop. rewrite Hq. cbn.
      unfold process_aens_deliver. cbn. rewrite Hx. cbn.
      unfold worker_frame.
      destruct (shost sess); cbn; intros H3; inversion H3; subst s3; cbn;
        repeat split. }
    destruct H3' as (Hw3 & Hq3 & Hf3).
    destruct (IH s3 (inv_run _ _ _ I H3) Hw3 Hq3) as (ls & s' & Hr & Hw' & Hl' & Hf').
    exists ([aen_work_step true; aen_work_step true; aen_work_step true] ++ ls), s'.
    rewrite (run_app _ _ ls _ H3). split; [exact Hr |].
    split; [exact Hw' |]. split; [exact Hl' |].
    unfold worker_frame in *. intuition congruence.
Qed.

Lemma worker_drains s :
  invariant s -> worker s <> WIdle ->
  can_reach s (fun s' => worker s' = WIdle /\ aen_work_list (m_sess s') = [] /\
                         worker_frame s s').
Proof.
  intros I Hw. destruct s as [sess due w r tr]; proj.
  destruct w as [| pc]; [contradiction |].
  pose proof (inv_kind _ I) as Hk. unfold in_flight in Hk. proj.
  set (s0 := {| m_sess := sess; queue_work_due := due; worker := WRun pc;
                remover := r; trace := tr |}) in *.
  assert (Hloop : can_reach s0 (fun s1 => invariant s1 /\ worker s1 = WRun AtLoop /\
                                          worker_frame s0 s1)).
  { destruct pc as [| x sh | x sh].
    - apply can_reach_here. split; [exact I |]. unfold worker_frame. repeat split.
    - assert (Hx : event_fn x = SCST_AEN_SCSI) by (proj; forall_kind).
      apply Z.eqb_eq in Hx.
      apply can_reach_inv; [exact I |].
      destruct sh as [h |];
        (eapply (can_reach_step _ (aen_work_step true));
         [subst s0; cbn; unfold process_aens_deliver; cbn; rewrite Hx;
          reflexivity |];
         eapply (can_reach_step _ (aen_work_step true)); [reflexivity |];
         apply can_reach_here; unfold worker_frame; repeat split).
    - apply can_reach_inv; [exact I |].
      eapply (can_reach_step _ (aen_work_step true)); [reflexivity |].
      apply can_reach_here. unfold worker_frame. repeat split. }
  eapply can_reach_trans; [exact Hloop |]. cbn beta.
  intros s1 (I1 & Hw1 & Hf1).
  eapply can_reach_trans;
    [eapply worker_drains_from_loop; [exact I1 | exact Hw1 | reflexivity] |].
  cbn beta. intros s2 (Hw2 & Hl2 & Hf2).
  apply can_reach_here. split; [exact Hw2 |]. split; [exact Hl2 |].
  unfold worker_frame in *. intuition congruence.
Qed.

(** The reports that are still to call [queue_work] do so. *)
Lemma queue_work_flushes : forall n s,
  queue_work_due s = n ->
  can_reach s (fun s' => queue_work_due s' = 0%nat /\ worker s' = worker s /\
                         remover s' = remover s /\
                         aen_work_list (m_sess s') = aen_work_list (m_sess s) /\
                         (n = 0%nat -> aen_work_queued (m_sess s')
                                       = aen_work_queued (m_sess s))).
Proof.
  induction n as [| n IH]; intros s Hn.
  - apply can_reach_here. repeat split; assumption.
  - destruct s as [sess due w r tr]; proj; subst due.
    eapply (can_reach_step _ report_queue_work); [reflexivity |].
    eapply can_reach_trans; [apply IH; reflexivity |].
    cbn beta. proj. intros s1 (Hd & Hw & Hr & Hl & _).
    apply can_reach_here. repeat split; try assumption. discriminate.
Qed.

End WorkerProgress.

Section TeardownProgress.
Context {abi : kernel_abi}.

(** The cleanup pass of the teardown runs to the end of its loop, whatever
    the other threads have done before. *)
Lemma cleanup_drains_from_loop : forall q s,
  remover s = RCleanup AtLoop -> aen_work_list (m_sess s) = q ->
  can_reach s (fun s' => remover s' = RUnregister /\
                         aen_work_list (m_sess s') = [] /\
                         worker s' = worker s).
Proof.
  induction q as [| x rest IH]; intros s Hr Hq;
    destruct s as [sess due w r tr]; proj; subst r.
  - eapply (can_reach_step _ (remove_step true)).
    { cbn. unfold process_aens_pop. rewrite Hq. reflexivity. }
    apply can_reach_here. proj. repeat split; assumption.
  - eapply (can_reach_step _ (remove_step true)).
    { cbn. unfold process_aens_pop. rewrite Hq. reflexivity. }
    eapply (can_reach_step _ (remove_step true)); [reflexivity |].
    eapply (can_reach_step _ (remove_step true)); [reflexivity |].
    apply IH; reflexivity.
Qed.

Lemma cleanup_drains s pc :
  remover s = RCleanup pc ->
  can_reach s (fun s' => remover s' = RUnregister /\
                         aen_work_list (m_sess s') = [] /\
                         worker s' = worker s).
Proof.
  intros Hr. destruct s as [sess due w r tr]; proj; subst r.
  destruct pc as [| x sh | x sh].
  - eapply cleanup_drains_from_loop; reflexivity.
  - eapply (can_reach_step _ (remove_step true)); [reflexivity |].
    eapply (can_reach_step _ (remove_step true)); [reflexivity |].
    eapply cleanup_drains_from_loop; reflexivity.
  - eapply (can_reach_step _ (remove_step true)); [reflexivity |].
    eapply cleanup_drains_from_loop; reflexivity.
Qed.

(** Once the removal has been entered it runs to its end: the work is
    cancelled after the worker has come to rest, the queue is drained, the
    session is unregistered. *)
Lemma removal_completes s :
  invariant s -> is_RNone (remover s) = false ->
  can_reach s (fun s' => remover s' = RDone).
Proof.
  intros I Hr.
  assert (Hfin : forall s1, remover s1 = RUnregister ->
                 can_reach s1 (fun s' => remover s' = RDone)).
  { intros s1 H1. destruct s1 as [sess due w r tr]; proj; subst r.
    eapply (can_reach_step _ (remove_step true)); [reflexivity |].
    apply can_reach_here. reflexivity. }
  assert (Hcl : forall s1 pc, remover s1 = RCleanup pc ->
                 can_reach s1 (fun s' => remover s' = RDone)).
  { intros s1 pc H1.
    eapply can_reach_trans; [eapply cleanup_drains; exact H1 |].
    cbn beta. intros s2 (H2 & _). apply Hfin; assumption. }
  assert (Hlk : forall s1, remover s1 = RLock ->
                 can_reach s1 (fun s' => remover s' = RDone)).
  { intros s1 H1. destruct s1 as [sess due w r tr]; proj; subst r.
    eapply (can_reach_step _ (remove_step true)); [reflexivity |].
    eapply Hcl. reflexivity. }
  assert (Hrl : forall s1, invariant s1 -> remover s1 = RRelease ->
                 can_reach s1 (fun s' => remover s' = RDone)).
  { intros s1 I1 H1.
    assert (Hidle : can_reach s1 (fun s2 => remover s2 = RRelease /\
                                            worker s2 = WIdle)).
    { destruct (worker s1) eqn:Hw.
      - apply can_reach_here. split; [exact H1 | exact Hw].
      - destruct (worker_drains s1 I1) as (ls & s2 & Hrun & Hw2 & _ & Hr2 & _);
          [rewrite Hw; discriminate |].
        exists ls, s2. split; [exact Hrun |]. split; [congruence | exact Hw2]. }
    eapply can_reach_trans; [exact Hidle |]. cbn beta.
    intros s2 (H2 & Hw2). destruct s2 as [sess due w r tr]; proj; subst r w.
    eapply (can_reach_step _ (remove_step true)); [reflexivity |].
    apply Hlk. reflexivity. }
  assert (Hdr : forall s1, invariant s1 -> remover s1 = RDriverRemove ->
                 can_reach s1 (fun s' => remover s' = RDone)).
  { intros s1 I1 H1.
    assert (Hs : exists s2, step s1 (remove_step true) = Some s2 /\
                            remover s2 = RRelease).
    { destruct s1 as [sess due w r tr]; proj; subst r.
      eexists; split; reflexivity. }
    destruct Hs as (s2 & Hs & H2).
    eapply can_reach_step; [exact Hs |].
    eapply Hrl; [eapply inv_step; eassumption | exact H2]. }
  destruct (remover s) eqn:Hrem; try discriminate.
  - assert (Hs : exists s2, step s (remove_step true) = Some s2 /\
                            remover s2 = RDriverRemove).
    { destruct s as [sess due w r tr]; proj; subst r.
      eexists; split; reflexivity. }
    destruct Hs as (s2 & Hs & H2).
    eapply can_reach_step; [exact Hs |].
    eapply Hdr; [eapply inv_step; eassumption | exact H2].
  - apply Hdr; assumption.
  - apply Hrl; assumption.
  - apply Hlk; assumption.
  - eapply Hcl; eassumption.
  - apply Hfin; assumption.
  - apply can_reach_here. exact Hrem.
Qed.

(** A close request, once made, leads to the end of the removal. *)
Lemma teardown_completes s :
  invariant s -> unregistering (m_sess s) = true ->
  can_reach s (fun s' => remover s' = RDone).
Proof.
  intros I Hu. destruct (is_RNone (remover s)) eqn:Hr.
  - pose proof (inv_latch _ I) as Hl. rewrite Hu, Hr in Hl. cbn in Hl.
    assert (Hs : exists s2, step s remove_work_start = Some s2 /\
                            remover s2 = RRemoveAdapter).
    { destruct s as [sess due w r tr]; proj. cbn. rewrite <- Hl, Hr.
      eexists; split; reflexivity. }
    destruct Hs as (s2 & Hs & H2).
    eapply can_reach_step; [exact Hs |].
    apply removal_completes; [eapply inv_step; eassumption | rewrite H2; reflexivity].
  - apply removal_completes; assumption.
Qed.

(** In a settled state every item has been acknowledged as often as it was
    enqueued. *)
Lemma settled_all_acked s :
  invariant s -> settled s ->
  forall a, times a (acked (trace s)) = times a (enqueued (trace s)).
Proof.
  intros I (Hw & Hl & Hr) a. pose proof (inv_count _ I a) as H.
  unfold in_flight in H. rewrite Hw, Hl in H.
  destruct (remover s) eqn:E; cbn in H; try (rewrite <- H; lia).
  exfalso. eapply Hr. reflexivity.
Qed.

(** The worker, when it is idle and the queue is not yet known to be empty,
    can be brought to drain it as long as the work has not been cancelled. *)
Lemma worker_settles s :
  invariant s -> worker s = WIdle -> before_cancel (remover s) = true ->
  can_reach s settled.
Proof.
  intros I Hw Hb.
  assert (Hstart : forall s1, invariant s1 -> worker s1 = WIdle ->
            before_cancel (remover s1) = true ->
            aen_work_queued (m_sess s1) = true -> can_reach s1 settled).
  { intros s1 I1 Hw1 Hb1 Hq1.
    assert (Hs : exists s2, step s1 aen_work_start = Some s2 /\
                   worker s2 = WRun AtLoop /\ remover s2 = remover s1).
    { destruct s1 as [sess due w r tr]; proj; subst w. cbn. rewrite Hq1. cbn.
      eexists; repeat split. }
    destruct Hs as (s2 & Hs & Hw2 & Hr2).
    eapply can_reach_step; [exact Hs |].
    pose proof (inv_step _ _ _ I1 Hs) as I2.
    destruct (worker_drains s2 I2) as (ls & s3 & Hrun & Hw3 & Hl3 & Hr3 & _);
      [rewrite Hw2; discriminate |].
    exists ls, s3. split; [exact Hrun |].
    split; [exact Hw3 |]. split; [exact Hl3 |].
    intros pc Hc. rewrite Hr3, Hr2 in Hc. rewrite Hc in Hb1. discriminate. }
  destruct (aen_work_queued (m_sess s)) eqn:Hq.
  - apply Hstart; assumption.
  - destruct (queue_work_due s) as [| due'] eqn:Hd.
    + apply can_reach_here. split; [exact Hw |].
      split; [apply (inv_quiet _ I); assumption |].
      intros pc Hc. rewrite Hc in Hb. discriminate.
    + assert (Hs : exists s2, step s report_queue_work = Some s2 /\
                     worker s2 = WIdle /\ remover s2 = remover s /\
                     aen_work_queued (m_sess s2) = true).
      { destruct s as [sess due w r tr]; proj; subst w due. cbn.
        eexists; repeat split. }
      destruct Hs as (s2 & Hs & Hw2 & Hr2 & Hq2).
      eapply can_reach_step; [exact Hs |].
      apply Hstart; [eapply inv_step; eassumption | exact Hw2 | | exact Hq2].
      rewrite Hr2. exact Hb.
Qed.

(** From every state the session can be brought to one in which nothing is
    queued or in flight. *)
Lemma eventually_settled s : invariant s -> can_reach s settled.
Proof.
  intros I.
  assert (Hidle : can_reach s (fun s1 => invariant s1 /\ worker s1 = WIdle)).
  { destruct (worker s) eqn:Hw.
    - apply can_reach_here. split; [exact I | exact Hw].
    - apply can_reach_inv; [exact I |].
      destruct (worker_drains s I) as (ls & s2 & Hrun & Hw2 & _);
        [rewrite Hw; discriminate |].
      exists ls, s2. split; [exact Hrun | exact Hw2]. }
  eapply can_reach_trans; [exact Hidle |]. cbn beta.
  intros s1 (I1 & Hw1).
  destruct (before_cancel (remover s1)) eqn:Hb.
  - apply worker_settles; assumption.
  - assert (Hcl : forall s2 pc, worker s2 = WIdle -> remover s2 = RCleanup pc ->
                    can_reach s2 settled).
    { intros s2 pc Hw2 Hr2.
      destruct (cleanup_drains s2 pc Hr2) as (ls & s3 & Hrun & Hr3 & Hl3 & Hw3).
      exists ls, s3. split; [exact Hrun |].
      split; [congruence |]. split; [exact Hl3 |].
      intros pc' Hc. congruence. }
    destruct (remover s1) eqn:Hr; try discriminate.
    + destruct s1 as [sess due w r tr]; proj; subst r w.
      eapply (can_reach_step _ (remove_step true)); [reflexivity |].
      eapply Hcl; reflexivity.
    + eapply Hcl; eassumption.
    + apply can_reach_here. split; [exact Hw1 |].
      split; [apply (inv_drained _ I1); rewrite Hr; reflexivity |].
      intros pc Hc. congruence.
    + apply can_reach_here. split; [exact Hw1 |].
      split; [apply (inv_drained _ I1); rewrite Hr; reflexivity |].
      intros pc Hc. congruence.
Qed.

Lemma eventually_all_acked s :
  invariant s ->
  can_reach s (fun s' =>
    forall a, times a (acked (trace s')) = times a (enqueued (trace s'))).
Proof.
  intros I.
  destruct (can_reach_inv _ _ I (eventually_settled s I)) as (ls & s' & Hr & I' & Hs).
  exists ls, s'. split; [exact Hr |]. apply settled_all_acked; assumption.
Qed.

End TeardownProgress.

(** *** The threads run alone

    The registry runs the removal of a session as one call, and the engine
    sees a report as one call; these calls are the steps of the machine when
    no other thread comes in between. *)

Section RunAlone.
Context {abi : kernel_abi}.

Lemma process_aens_items_cleanup sh q :
  process_aens_items true sh q = Some (map scst_aen_done q).
Proof.
  induction q as [| x q IH]; cbn; [reflexivity |]. rewrite IH. reflexivity.
Qed.

Lemma cleanup_alone : forall q sess due w tr,
  aen_work_list sess = q ->
  run {| m_sess := sess; queue_work_due := due; worker := w;
         remover := RCleanup AtLoop; trace := tr |}
      (repeat (remove_step true) (3 * List.length q + 1))
  = Some {| m_sess := set_aen_work_list [] sess; queue_work_due := due;
            worker := w; remover := RUnregister;
            trace := tr ++ map scst_aen_done q |}.
Proof.
  induction q as [| x q IH]; intros sess due w tr Hq.
  - cbn. unfold process_aens_pop. rewrite Hq, app_nil_r.
    destruct sess; cbn in *; subst; reflexivity.
  - replace (3 * List.length (x :: q) + 1)%nat
      with (S (S (S (3 * List.length q + 1)))) by (cbn [List.length]; lia).
    change (repeat (remove_step true) (S (S (S (3 * List.length q + 1)))))
      with ([remove_step true; remove_step true; remove_step true]
            ++ repeat (remove_step true) (3 * List.length q + 1)).
    erewrite run_app;
      [| cbn; unfold process_aens_pop; rewrite Hq; reflexivity].
    rewrite (IH (set_aen_work_list q sess) due w _ eq_refl).
    cbn [map]. rewrite !app_nil_r, <- app_assoc. reflexivity.
Qed.

(** The removal of a session, run with no other thread in between, makes the
    calls of [list_del] and [device_unregister] and leaves the session as
    [device_unregister] does. *)
Lemma removal_alone sess due tr :
  run {| m_sess := sess; queue_work_due := due; worker := WIdle;
         remover := RRemoveAdapter; trace := tr |}
      (repeat (remove_step true) (3 * List.length (aen_work_list sess) + 6))
  = Some {| m_sess := fst (device_unregister sess); queue_work_due := due;
            worker := WIdle; remover := RDone;
            trace := tr ++ list_del_session :: snd (device_unregister sess) |}.
Proof.
  replace (3 * List.length (aen_work_list sess) + 6)%nat
    with (4 + ((3 * List.length (aen_work_list sess) + 1) + 1))%nat by lia.
  rewrite repeat_app.
  erewrite run_app; [| reflexivity].
  rewrite repeat_app.
  erewrite run_app; [| apply cleanup_alone; reflexivity].
  cbn. unfold device_unregister, scst_local_driver_remove, scst_local_release_adapter,
    scst_process_aens. cbn.
  rewrite process_aens_items_cleanup. cbn.
  rewrite <- !app_assoc. cbn.
  destruct (unregistering sess); cbn; rewrite <- ?app_assoc; reflexivity.
Qed.

(** A report that goes from its entry to its return with no other thread in
    between is [scst_local_report_aen]. *)
Lemma report_alone sess w r tr ok a :
  exists ls,
    (ls = [report_aen ok a] \/ ls = [report_aen ok a; report_queue_work]) /\
    run {| m_sess := sess; queue_work_due := 0; worker := w; remover := r;
           trace := tr |} ls
    = Some {| m_sess := snd (fst (scst_local_report_aen ok a sess));
              queue_work_due := 0; worker := w; remover := r;
              trace := tr ++ snd (scst_local_report_aen ok a sess) |}.
Proof.
  unfold scst_local_report_aen.
  destruct (report_aen_enqueue ok a sess) as [[[res |] sess'] evs] eqn:E.
  - exists [report_aen ok a]. split; [left; reflexivity |].
    cbn. rewrite E. reflexivity.
  - exists [report_aen ok a; report_queue_work]. split; [right; reflexivity |].
    cbn. rewrite E. cbn. rewrite <- app_assoc. reflexivity.
Qed.

(** The worker run alone is [scst_process_aens] with [cleanup_only] unset:
    the same rescans and acknowledgements, in the same order. *)
Lemma worker_alone : forall q sess due r tr evs,
  aen_work_list sess = q ->
  process_aens_items false (shost sess) q = Some evs ->
  run {| m_sess := sess; queue_work_due := due; worker := WRun AtLoop;
         remover := r; trace := tr |}
      (repeat (aen_work_step true) (3 * List.length q + 1))
  = Some {| m_sess := set_aen_work_list [] sess; queue_work_due := due;
            worker := WIdle; remover := r; trace := tr ++ evs |}.
Proof.
  induction q as [| x q IH]; intros sess due r tr evs Hq Hev.
  - cbn in Hev. inversion Hev; subst evs.
    cbn. unfold process_aens_pop. rewrite Hq, app_nil_r.
    destruct sess; cbn in *; subst; reflexivity.
  - cbn [process_aens_items] in Hev.
    destruct (process_aens_deliver false x (shost sess)) as [e1 |] eqn:Hd;
      [| discriminate].
    destruct (process_aens_items false (shost sess) q) as [tl |] eqn:Hi;
      [| discriminate].
    inversion Hev; subst evs.
    replace (3 * List.length (x :: q) + 1)%nat
      with (S (S (S (3 * List.length q + 1)))) by (cbn [List.length]; lia).
    change (repeat (aen_work_step true) (S (S (S (3 * List.length q + 1)))))
      with ([aen_work_step true; aen_work_step true; aen_work_step true]
            ++ repeat (aen_work_step true) (3 * List.length q + 1)).
    erewrite run_app with
      (s1 := {| m_sess := set_aen_work_list q sess; queue_work_due := due;
                worker := WRun AtLoop; remover := r;
                trace := tr ++ e1 ++ [scst_aen_done x] |}).
    2: { revert Hd. unfold process_aens_deliver. cbn.
         unfold process_aens_pop, process_aens_deliver. rewrite Hq. cbn.
         destruct (event_fn x =? SCST_AEN_SCSI); cbn; [| discriminate].
         destruct (shost sess); intros Hd; inversion Hd; subst e1; cbn;
           rewrite <- ?app_assoc; reflexivity. }
    rewrite (IH (set_aen_work_list q sess) due r _ tl eq_refl Hi).
    cbn. rewrite <- !app_assoc. reflexivity.
Qed.

End RunAlone.

(** ** Acknowledgement, order and teardown *)

Section SessionProperties.
Context {abi : kernel_abi}.

(** A session at rest: its removal has finished, or has not been asked for
    and no report or work is under way. *)
Lemma at_rest_settled s :
  invariant s ->
  (remover s = RDone /\ worker s = WIdle) \/
  (remover s = RNone /\ worker s = WIdle /\
   aen_work_queued (m_sess s) = false /\ queue_work_due s = 0%nat) ->
  settled s.
Proof.
  intros I [(Hd & Hw) | (Hn & Hw & Hq & Hdue)].
  - split; [exact Hw |].
    split; [apply (inv_drained _ I); rewrite Hd; reflexivity |].
    intros pc Hc. congruence.
  - split; [exact Hw |].
    split; [apply (inv_quiet _ I); [rewrite Hn; reflexivity | assumption ..] |].
    intros pc Hc. congruence.
Qed.

(** Until [cancel_work_sync] has returned only the worker unlinks items, one
    at a time, and the items leave the queue in the order in which they came
    in. *)
Lemma fifo_until_cancel s :
  invariant s -> before_cancel (remover s) = true ->
  acked (trace s) ++ in_flight s ++ aen_work_list (m_sess s)
    = enqueued (trace s) /\
  (List.length (in_flight s) <= 1)%nat /\
  forall i j A B, (i < j)%nat ->
    nth_error (enqueued (trace s)) i = Some A ->
    nth_error (enqueued (trace s)) j = Some B ->
    (j < List.length (acked (trace s)))%nat ->
    nth_error (acked (trace s)) i = Some A /\
    nth_error (acked (trace s)) j = Some B.
Proof.
  intros I Hb. pose proof (inv_order _ I Hb) as Ho.
  split; [exact Ho |]. split.
  - unfold in_flight.
    assert (Hc : match remover s with RCleanup pc => drain_held pc | _ => [] end = [])
      by (destruct (remover s); try reflexivity; discriminate).
    rewrite Hc, app_nil_r. destruct (worker s) as [| []]; cbn; lia.
  - intros i j A B Hij HA HB Hj.
    rewrite <- Ho in HA, HB.
    rewrite nth_error_app1 in HA by lia.
    rewrite nth_error_app1 in HB by lia.
    split; assumption.
Qed.

(** C1, amended: every AEN work item enqueued on a session is acknowledged
    exactly once, after its rescan or without one.  At every moment each
    enqueued item is still queued, or in flight, or acknowledged, and never
    two of these; when the teardown of the session has finished and the
    worker is idle, or when the session is at rest with no removal started,
    every enqueued item has been acknowledged as often as it was enqueued;
    and from every state such a state can be reached.  The latch stops the
    enqueuing of new items, not the delivery of queued ones: no item is
    enqueued after the latch has been set, and no rescan is made once
    [cancel_work_sync] has returned in [scst_local_release_adapter], so the
    cleanup-only drain never rescans.  Every rescan is directly followed by
    the acknowledgement of its item. *)
Theorem aen_acknowledged_exactly_once name num h ls s :
  run (init (new_sess name num h)) ls = Some s ->
  (forall a,
     (times a (acked (trace s)) + times a (in_flight s)
      + times a (aen_work_list (m_sess s)))%nat
     = times a (enqueued (trace s))) /\
  ((remover s = RDone /\ worker s = WIdle) \/
   (remover s = RNone /\ worker s = WIdle /\
    aen_work_queued (m_sess s) = false /\ queue_work_due s = 0%nat) ->
   forall a, times a (acked (trace s)) = times a (enqueued (trace s))) /\
  can_reach s (fun s' =>
    forall a, times a (acked (trace s')) = times a (enqueued (trace s'))) /\
  no_enqueue_after_latch (trace s) = true /\
  no_scan_after_cancel (trace s) = true /\
  serial (deliveries (trace s)) (scan_pending s).
Proof.
  intros Hrun.
  assert (I : invariant s) by (eapply inv_run; [apply inv_init | exact Hrun]).
  split; [apply (inv_count _ I) |].
  split.
  { intros Hrest. apply settled_all_acked; [exact I |].
    apply at_rest_settled; assumption. }
  split; [apply eventually_all_acked; exact I |].
  split; [apply (inv_enq _ I) |].
  split; [apply (inv_scan _ I) | apply (inv_serial _ I)].
Qed.

(** C2: closing a session is idempotent.  A close request that finds the
    latch clear sets it and starts the removal, inline or by queuing
    [remove_work]; a close request that finds the latch set changes nothing;
    so the latch is set at most once and [scst_local_remove_adapter] unlinks
    the session at most once, however close requests, reports and the
    worker are interleaved, and exactly once when the removal has run, which
    it can always do once the latch is set. *)
Theorem close_session_removes_once name num h ls s :
  run (init (new_sess name num h)) ls = Some s ->
  (latchings (trace s) <= 1 /\ removals (trace s) <= 1)%nat /\
  (forall async, unregistering (m_sess s) = true ->
     step s (close_session async) = Some s) /\
  (forall async, unregistering (m_sess s) = false ->
     exists s', step s (close_session async) = Some s' /\
       unregistering (m_sess s') = true /\
       latchings (trace s') = 1%nat /\
       if async
       then remove_work_queued (m_sess s') = true /\ remover s' = RNone
       else remove_work_queued (m_sess s') = false /\
            remover s' = RRemoveAdapter) /\
  (remover s = RDone -> removals (trace s) = 1%nat) /\
  (unregistering (m_sess s) = true ->
     can_reach s (fun s' => remover s' = RDone /\ removals (trace s') = 1%nat)).
Proof.
  intros Hrun.
  assert (I : invariant s) by (eapply inv_run; [apply inv_init | exact Hrun]).
  split.
  { rewrite (inv_latchings _ I), (inv_removals _ I).
    destruct (unregistering (m_sess s)), (unlinked (remover s)); lia. }
  split.
  { intros async Hu. destruct s as [sess due w r tr]. cbn in *.
    rewrite Hu, (set_unregistering_id _ Hu). reflexivity. }
  split.
  { intros async Hu.
    destruct (latch_clear_RNone _ I Hu) as [Hr Hq].
    pose proof (inv_latchings _ I) as Hl. rewrite Hu in Hl.
    destruct s as [sess due w r tr]. proj.
    destruct async; eexists; (split; [cbn; rewrite Hu; reflexivity |]); proj;
      rewrite latchings_app, Hl; repeat split; assumption. }
  split.
  { intros Hd. rewrite (inv_removals _ I), Hd. reflexivity. }
  intros Hu.
  destruct (teardown_completes s I Hu) as (ls' & s' & Hr & Hd).
  exists ls', s'. split; [exact Hr |]. split; [exact Hd |].
  rewrite (inv_removals s' (inv_run _ _ _ I Hr)), Hd. reflexivity.
Qed.

End SessionProperties.

(** C1, as stated, does not hold: after an asynchronous close has set the
    latch, the worker still rescans for an item that was queued before. *)
Lemma rescan_after_latch : ~ @Stated.no_rescan_once_unregistering linux_abi.
Proof.
  intros H.
  assert (Hr : @Stated.reachable linux_abi Examples.after_late_rescan).
  { exists "scst_local_host"%string, 1, 0%nat, Examples.sched_late_rescan.
    reflexivity. }
  specialize (H _ Hr). vm_compute in H. discriminate H.
Qed.

Lemma aen_acknowledged_exactly_once_witness :
  remover Examples.after_teardown = RDone /\
  enqueued (trace Examples.after_teardown)
    = [Examples.aen_a; Examples.aen_b] /\
  scanned (trace Examples.after_teardown) = [Examples.aen_a] /\
  times Examples.aen_a (acked (trace Examples.after_teardown)) = 1%nat /\
  times Examples.aen_b (acked (trace Examples.after_teardown)) = 1%nat.
Proof.
  destruct (@aen_acknowledged_exactly_once linux_abi
              "scst_local_host" 1 0%nat
              Examples.sched_teardown Examples.after_teardown eq_refl)
    as (_ & Hdone & _).
  split; [reflexivity |]. split; [reflexivity |]. split; [reflexivity |].
  rewrite !(Hdone (or_introl (conj eq_refl eq_refl))).
  split; reflexivity.
Defined.

Lemma close_session_removes_once_witness :
  remover Examples.after_closes = RDone /\
  removals (trace Examples.after_closes) = 1%nat /\
  (latchings (trace Examples.after_closes) <= 1)%nat.
Proof.
  destruct (@close_session_removes_once linux_abi
              "scst_local_host" 1 0%nat
              Examples.sched_closes Examples.after_closes eq_refl)
    as ((Hl & _) & _ & _ & Hone & _).
  split; [reflexivity |]. split; [exact (Hone eq_refl) | exact Hl].
Defined.

(** C6: items are appended at the tail and unlinked at the head, and as long
    as only the worker unlinks them they are acknowledged in the order in
    which they were enqueued.  The report calls [queue_work] after it has
    dropped [aen_lock], though, and nothing keeps that call from coming after
    the [cancel_work_sync] of [scst_local_release_adapter]: then the worker
    runs next to the cleanup pass, each of them unlinks the head in its turn,
    and the item enqueued second is acknowledged first. *)
Theorem late_queue_work_breaks_fifo :
  @run linux_abi (init Examples.host_sess) Examples.sched_late_queue_work
    = Some Examples.after_late_queue_work /\
  enqueued (trace Examples.after_late_queue_work)
    = [Examples.aen_a; Examples.aen_b] /\
  acked (trace Examples.after_late_queue_work)
    = [Examples.aen_b; Examples.aen_a] /\
  scanned (trace Examples.after_late_queue_work) = [] /\
  ~ @Stated.acknowledged_in_enqueue_order linux_abi.
Proof.
  repeat (split; [reflexivity |]).
  intros H.
  assert (Hr : @Stated.reachable linux_abi Examples.after_late_queue_work).
  { exists "scst_local_host"%string, 1, 0%nat, Examples.sched_late_queue_work.
    reflexivity. }
  destruct (H _ Hr) as (rest & Hrest). vm_compute in Hrest. discriminate Hrest.
Qed.

(** ** The registry behind the exit barrier *)

Section RegistryProperties.
Context {abi : kernel_abi}.
Import Registry.

Lemma strcmp_refl a : strcmp a a = 0.
Proof.
  induction a as [| c a IH]; cbn; [reflexivity |].
  rewrite Ascii.eqb_refl. exact IH.
Qed.

Lemma find_index_exists {A : Type} (p : A -> bool) (l : list A) x :
  In x l -> p x = true -> exists i, find_index p l = Some i.
Proof.
  induction l as [| y l IH]; cbn; [contradiction |].
  intros [-> | Hin] Hp.
  - rewrite Hp. eauto.
  - destruct (p y); [eauto |].
    destruct (IH Hin Hp) as (i & ->). eauto.
Qed.

Lemma find_tgt_exists name st :
  tgt_exists name st -> exists ti, find_tgt name st = Some ti.
Proof.
  intros (t & Hin & Hn). unfold find_tgt.
  eapply find_index_exists; [exact Hin |].
  cbn beta. rewrite Hn, strcmp_refl. reflexivity.
Qed.

Lemma up_read_down_read st :
  writer (scst_local_exit_rwsem st) = false ->
  exists st1, down_read_trylock st = Some st1 /\ up_read st1 = st.
Proof.
  destruct st as [tgts [wr rd] num cs]. cbn. intros ->.
  eexists. split; reflexivity.
Qed.



Lemma remove_target_rwsem ti st :
  scst_local_exit_rwsem (__scst_local_remove_target ti st)
    = scst_local_exit_rwsem st.
Proof.
  unfold __scst_local_remove_target.
  destruct (nth_error (scst_local_tgts_list st) ti); reflexivity.
Qed.




(** C10, amended: when the exit barrier is not held by a writer, a
    management command whose command word matches neither "add_session" nor
    "del_session" under [strcasecmp] (so without regard to case), given the
    non-empty name of an existing target and a non-empty session name,
    returns zero and leaves the state as it was. *)
Theorem unknown_mgmt_command_is_noop
    e command target_name session_name st :
  writer (scst_local_exit_rwsem st) = false ->
  strcasecmp "add_session" command <> 0 ->
  strcasecmp "del_session" command <> 0 ->
  tgt_exists target_name st ->
  target_name <> ""%string ->
  session_name <> ""%string ->
  scst_local_sysfs_mgmt_cmd e command target_name session_name st = (0, st).
Proof.
  intros Hw Hadd Hdel Hex Ht Hs.
  destruct (up_read_down_read st Hw) as (st1 & Hd & Hu).
  assert (Hex1 : tgt_exists target_name st1).
  { unfold down_read_trylock in Hd. rewrite Hw in Hd.
    inversion Hd; subst st1. exact Hex. }
  destruct (find_tgt_exists _ _ Hex1) as (ti & Hf).
  unfold scst_local_sysfs_mgmt_cmd. rewrite Hd, Hf.
  destruct target_name; [contradiction |].
  destruct session_name; [contradiction |].
  cbn [is_empty].
  destruct (Z.eqb_spec (strcasecmp "add_session" command) 0); [contradiction |].
  destruct (Z.eqb_spec (strcasecmp "del_session" command) 0); [contradiction |].
  rewrite Hu. reflexivity.
Qed.

End RegistryProperties.

(** After [scst_local_exit] the barrier is free again: whatever the kernel
    and the engine answer, a call that adds a target does not return the
    -ENOENT of the barrier. *)
Lemma add_target_after_exit_never_enoent (e : Registry.env) st' :
  @Registry.scst_local_exit linux_abi Registry.empty_state = Some st' ->
  fst (@Registry.scst_local_sysfs_add_target linux_abi e "scst_local_tgt" [] st')
    <> - ENOENT.
Proof.
  intros He. vm_compute in He. inversion He; subst st'. clear He.
  unfold Registry.scst_local_sysfs_add_target, Registry.scst_local_add_target.
  cbn. destruct (Registry.kzalloc_ok e); cbn; [| discriminate].
  destruct (Registry.register_target_ok e "scst_local_tgt"); cbn; discriminate.
Qed.



(** C10, as stated, does not hold: the command word "ADD_SESSION" is
    neither "add_session" nor "del_session", yet it is obeyed as
    add_session, and the session is added. *)
Lemma uppercase_add_session_is_obeyed :
  ~ @Stated.unknown_command_is_noop linux_abi.
Proof.
  intros H.
  pose (st := snd (@Registry.scst_local_sysfs_add_target linux_abi Registry.obliging
                     "scst_local_tgt" [] Registry.empty_state)).
  specialize (H Registry.obliging "ADD_SESSION" "scst_local_tgt" "scst_local_host" st
                ltac:(discriminate) ltac:(discriminate))%string.
  assert (Hex : Registry.tgt_exists "scst_local_tgt" st).
  { eexists. split; [left; reflexivity | reflexivity]. }
  specialize (H Hex ltac:(discriminate)).
  vm_compute in H. discriminate H.
Qed.

Lemma unknown_mgmt_command_is_noop_witness :
  let st := snd (@Registry.scst_local_sysfs_add_target linux_abi Registry.obliging
                   "scst_local_tgt" [("session_name", "scst_local_host")]
                   Registry.empty_state)%string in
  @Registry.scst_local_sysfs_mgmt_cmd linux_abi Registry.obliging
    "list_sessions" "scst_local_tgt" "scst_local_host" st = (0, st).
Proof.
  intros st.
  apply (@unknown_mgmt_command_is_noop linux_abi).
  - reflexivity.
  - vm_compute. discriminate.
  - vm_compute. discriminate.
  - eexists. split; [left; reflexivity | reflexivity].
  - discriminate.
  - discriminate.
Defined.

(** ** The registry: what the administrative calls keep and undo *)

Section RegistryBalance.
Context {abi : kernel_abi}.
Import Registry.

Lemma close_session_impl_rwsem ti si async st :
  scst_local_exit_rwsem (scst_local_close_session_impl ti si async st)
    = scst_local_exit_rwsem st.
Proof.
  unfold scst_local_close_session_impl.
  destruct (get_session ti si st); [| reflexivity].
  destruct (close_session_impl_sess async s); reflexivity.
Qed.

Lemma add_adapter_rwsem e ti name locked st :
  scst_local_exit_rwsem (snd (__scst_local_add_adapter e ti name locked st))
    = scst_local_exit_rwsem st.
Proof.
  unfold __scst_local_add_adapter.
  destruct (kzalloc_ok e); cbn [negb]; [| reflexivity].
  destruct (register_session_ok e name); cbn [negb]; [| reflexivity].
  destruct (device_register_res e name =? 0); cbn [negb]; [| reflexivity].
  destruct (create_link_res e name =? 0); cbn [negb]; [reflexivity |].
  match goal with
  | |- context [Aen.device_unregister ?x] => destruct (Aen.device_unregister x)
  end. reflexivity.
Qed.

Lemma add_target_rwsem e name st :
  scst_local_exit_rwsem (snd (scst_local_add_target e name st))
    = scst_local_exit_rwsem st.
Proof.
  unfold scst_local_add_target.
  destruct (kzalloc_ok e); cbn; [| reflexivity].
  destruct (register_target_ok e name); reflexivity.
Qed.

Lemma add_target_params_rwsem e ti params : forall st,
  scst_local_exit_rwsem (snd (add_target_params e ti params st))
    = scst_local_exit_rwsem st.
Proof.
  induction params as [| [p v] rest IH]; intros st;
    cbn [add_target_params]; [reflexivity |].
  destruct (is_empty p); [reflexivity |].
  destruct (strcasecmp "session_name" p =? 0); cbn [negb snd];
    [| apply remove_target_rwsem].
  destruct (is_empty v); cbn [snd]; [apply remove_target_rwsem |].
  pose proof (add_adapter_rwsem e ti v false st) as Ha.
  unfold scst_local_add_adapter.
  destruct (__scst_local_add_adapter e ti v false st) as [res st'].
  cbn [snd] in Ha. destruct (res =? 0); cbn [negb snd].
  - rewrite IH. exact Ha.
  - unfold scst_local_remove_target. rewrite remove_target_rwsem. exact Ha.
Qed.

(** A reader that came in and goes out leaves the barrier as it found
    it. *)
Lemma up_read_restores st st1 st2 :
  down_read_trylock st = Some st1 ->
  scst_local_exit_rwsem st2 = scst_local_exit_rwsem st1 ->
  scst_local_exit_rwsem (up_read st2) = scst_local_exit_rwsem st.
Proof.
  unfold down_read_trylock, up_read.
  destruct st as [tgts [wr rd] num cs]. cbn.
  destruct wr; [discriminate |]. intros H; inversion H; subst st1. cbn.
  intros ->. reflexivity.
Qed.

Lemma sysfs_add_target_rwsem st e name params :
  scst_local_exit_rwsem (snd (scst_local_sysfs_add_target e name params st))
    = scst_local_exit_rwsem st.
Proof.
  unfold scst_local_sysfs_add_target.
  destruct (down_read_trylock st) as [st1 |] eqn:Hd; [| reflexivity].
  pose proof (add_target_rwsem e name st1) as Ha.
  destruct (scst_local_add_target e name st1) as [[res [ti |]] st2];
    cbn in Ha.
  - pose proof (add_target_params_rwsem e ti params st2) as Hp.
    destruct (add_target_params e ti params st2) as [res' st3]. cbn in *.
    eapply up_read_restores; [exact Hd | congruence].
  - cbn. eapply up_read_restores; eassumption.
Qed.

Lemma sysfs_del_target_rwsem st name :
  scst_local_exit_rwsem (snd (scst_local_sysfs_del_target name st))
    = scst_local_exit_rwsem st.
Proof.
  unfold scst_local_sysfs_del_target.
  destruct (down_read_trylock st) as [st1 |] eqn:Hd; [| reflexivity].
  destruct (find_index _ _); cbn.
  - eapply up_read_restores; [exact Hd | apply remove_target_rwsem].
  - eapply up_read_restores; [exact Hd | reflexivity].
Qed.

Lemma sysfs_mgmt_cmd_rwsem st e command target_name session_name :
  scst_local_exit_rwsem
    (snd (scst_local_sysfs_mgmt_cmd e command target_name session_name st))
    = scst_local_exit_rwsem st.
Proof.
  unfold scst_local_sysfs_mgmt_cmd.
  destruct (down_read_trylock st) as [st1 |] eqn:Hd; [| reflexivity].
  match goal with
  | |- context [let '(res, st2) := ?X in _] =>
      assert (Hx : scst_local_exit_rwsem (snd X) = scst_local_exit_rwsem st1);
      [| destruct X as [res st2]; cbn in *;
         eapply up_read_restores; eassumption]
  end.
  destruct (is_empty target_name); [reflexivity |].
  destruct (find_tgt target_name st1) as [ti |]; [| reflexivity].
  destruct (is_empty session_name); [reflexivity |].
  destruct (strcasecmp "add_session" command =? 0);
    [apply add_adapter_rwsem |].
  destruct (strcasecmp "del_session" command =? 0); [| reflexivity].
  destruct (nth_error (scst_local_tgts_list st1) ti) as [t |]; [| reflexivity].
  destruct (find_sess session_name t) as [si |]; [| reflexivity].
  cbn. apply close_session_impl_rwsem.
Qed.

(** X1: every administrative entry point (add a target, delete a target,
    the management command) leaves the exit barrier exactly as it found it,
    on every path: a reader that got in is out again when the call returns,
    whether the call succeeded or failed, and a call refused by the barrier
    never touched it. *)
Theorem admin_calls_leave_barrier_as_found st :
  (forall e name params,
     scst_local_exit_rwsem (snd (scst_local_sysfs_add_target e name params st))
       = scst_local_exit_rwsem st) /\
  (forall name,
     scst_local_exit_rwsem (snd (scst_local_sysfs_del_target name st))
       = scst_local_exit_rwsem st) /\
  (forall e command target_name session_name,
     scst_local_exit_rwsem
       (snd (scst_local_sysfs_mgmt_cmd e command target_name session_name st))
       = scst_local_exit_rwsem st).
Proof.
  split; [| split]; intros.
  - apply sysfs_add_target_rwsem.
  - apply sysfs_del_target_rwsem.
  - apply sysfs_mgmt_cmd_rwsem.
Qed.

End RegistryBalance.

Section RegistryLists.

Lemma alter_nth_app_last {A : Type} (f : A -> A) (l : list A) x :
  Registry.alter_nth f (List.length l) (l ++ [x]) = l ++ [f x].
Proof. induction l as [| y l IH]; cbn; [reflexivity | rewrite IH; reflexivity]. Qed.

Lemma remove_nth_app_last {A : Type} (l : list A) x :
  Registry.remove_nth (List.length l) (l ++ [x]) = l.
Proof. induction l as [| y l IH]; cbn; [reflexivity | rewrite IH; reflexivity]. Qed.

Lemma nth_error_app_last {A : Type} (l : list A) x :
  nth_error (l ++ [x]) (List.length l) = Some x.
Proof. induction l as [| y l IH]; cbn; [reflexivity | exact IH]. Qed.

Lemma alter_nth_same {A : Type} (f : A -> A) : forall i (l : list A) x,
  nth_error l i = Some x -> f x = x -> Registry.alter_nth f i l = l.
Proof.
  induction i as [| i IH]; intros [| y l] x; cbn; try discriminate.
  - intros H Hf; inversion H; subst. rewrite Hf. reflexivity.
  - intros H Hf. rewrite (IH l x H Hf). reflexivity.
Qed.

Lemma find_index_none {A : Type} (p : A -> bool) (l : list A) :
  Forall (fun x => p x = false) l -> Registry.find_index p l = None.
Proof.
  induction 1 as [| x l Hx _ IH]; cbn; [reflexivity |].
  rewrite Hx, IH. reflexivity.
Qed.

(** The first element that satisfies [p] is found behind those that do
    not. *)
Lemma find_index_first {A : Type} (p : A -> bool) (l1 l2 : list A) x :
  Forall (fun y => p y = false) l1 -> p x = true ->
  Registry.find_index p (l1 ++ x :: l2) = Some (List.length l1).
Proof.
  induction 1 as [| y l Hy _ IH]; cbn; intros Hx.
  - rewrite Hx. reflexivity.
  - rewrite Hy, (IH Hx). reflexivity.
Qed.

Lemma find_index_split {A : Type} (p : A -> bool) : forall (l : list A) i,
  Registry.find_index p l = Some i ->
  exists l1 x l2, l = l1 ++ x :: l2 /\ List.length l1 = i /\
                  Forall (fun y => p y = false) l1 /\ p x = true.
Proof.
  induction l as [| y l IH]; cbn; intros i H; [discriminate |].
  destruct (p y) eqn:Hy.
  - inversion H; subst. exists [], y, l. repeat split; auto.
  - destruct (Registry.find_index p l) as [k |] eqn:Hf; [| discriminate].
    inversion H; subst.
    destruct (IH k eq_refl) as (l1 & x & l2 & -> & Hlen & Hall & Hx).
    exists (y :: l1), x, l2. cbn. repeat split; auto.
Qed.

Lemma remove_nth_middle {A : Type} (l1 l2 : list A) x :
  Registry.remove_nth (List.length l1) (l1 ++ x :: l2) = l1 ++ l2.
Proof. induction l1 as [| y l IH]; cbn; [reflexivity | rewrite IH; reflexivity]. Qed.

Lemma alter_nth_middle {A : Type} (f : A -> A) (l1 l2 : list A) x :
  Registry.alter_nth f (List.length l1) (l1 ++ x :: l2) = l1 ++ f x :: l2.
Proof. induction l1 as [| y l IH]; cbn; [reflexivity | rewrite IH; reflexivity]. Qed.

Lemma nth_error_middle {A : Type} (l1 l2 : list A) x :
  nth_error (l1 ++ x :: l2) (List.length l1) = Some x.
Proof. induction l1 as [| y l IH]; cbn; [reflexivity | exact IH]. Qed.

End RegistryLists.

Section AddTarget.
Context {abi : kernel_abi}.
Import Registry RegistryView.

(** What [__scst_local_add_adapter] does to the list of targets: nothing, or
    one new session at the end of the list of its target. *)
Lemma add_adapter_tgts e ti name locked st :
  let r := __scst_local_add_adapter e ti name locked st in
  scst_local_tgts_list (snd r) = scst_local_tgts_list st \/
  (fst r = 0 /\
   scst_local_tgts_list (snd r) =
     alter_nth
       (fun t => set_sessions_list
          (sessions_list t ++
           [Aen.new_sess name (atomic_inc (scst_local_sess_num st))
              (probe_host e name)]) t)
       ti (scst_local_tgts_list st)).
Proof.
  unfold __scst_local_add_adapter.
  destruct (kzalloc_ok e); cbn [negb]; [| left; reflexivity].
  destruct (register_session_ok e name); cbn [negb]; [| left; reflexivity].
  destruct (device_register_res e name =? 0); cbn [negb]; [| left; reflexivity].
  destruct (Z.eqb_spec (create_link_res e name) 0) as [Hz | Hz]; cbn [negb].
  - right. split; [exact Hz | reflexivity].
  - left. match goal with
    | |- context [Aen.device_unregister ?x] => destruct (Aen.device_unregister x)
    end. reflexivity.
Qed.

(** With error numbers other than zero, a call that does not add the session
    does not return zero. *)
Lemma add_adapter_failure_nonzero e ti name locked st :
  errnos_nonzero ->
  let r := __scst_local_add_adapter e ti name locked st in
  (fst r <> 0 /\ scst_local_tgts_list (snd r) = scst_local_tgts_list st) \/
  (fst r = 0 /\
   scst_local_tgts_list (snd r) =
     alter_nth
       (fun t => set_sessions_list
          (sessions_list t ++
           [Aen.new_sess name (atomic_inc (scst_local_sess_num st))
              (probe_host e name)]) t)
       ti (scst_local_tgts_list st)).
Proof.
  intros (_ & Hnomem & _ & Hfault).
  unfold __scst_local_add_adapter.
  destruct (kzalloc_ok e); cbn [negb];
    [| left; split; [cbn; lia | reflexivity]].
  destruct (register_session_ok e name); cbn [negb];
    [| left; split; [cbn; lia | reflexivity]].
  destruct (Z.eqb_spec (device_register_res e name) 0) as [Hd | Hd]; cbn [negb];
    [| left; split; [exact Hd | reflexivity]].
  destruct (Z.eqb_spec (create_link_res e name) 0) as [Hz | Hz]; cbn [negb].
  - right. split; [exact Hz | reflexivity].
  - left. match goal with
    | |- context [Aen.device_unregister ?x] => destruct (Aen.device_unregister x)
    end. split; [exact Hz | reflexivity].
Qed.

Lemma remove_last_target old t st :
  scst_local_tgts_list st = old ++ [t] ->
  scst_local_tgts_list (__scst_local_remove_target (List.length old) st) = old.
Proof.
  intros H. unfold __scst_local_remove_target.
  rewrite H, nth_error_app_last. cbn. apply remove_nth_app_last.
Qed.

(** The loop over the parameters ends with the new target gone, or with the
    new target in place and zero returned. *)
Lemma add_target_params_tgts e old params : forall t st,
  scst_local_tgts_list st = old ++ [t] ->
  let r := add_target_params e (List.length old) params st in
  scst_local_tgts_list (snd r) = old \/
  (fst r = 0 /\ exists t', scst_local_tgts_list (snd r) = old ++ [t']).
Proof.
  induction params as [| [p v] rest IH]; intros t st Hst;
    cbn [add_target_params].
  - right. split; [reflexivity |]. exists t. exact Hst.
  - destruct (is_empty p).
    { right. split; [reflexivity |]. exists t. exact Hst. }
    destruct (strcasecmp "session_name" p =? 0); cbn [negb];
      [| left; cbn [snd]; eapply remove_last_target; exact Hst].
    destruct (is_empty v);
      [left; cbn [snd]; eapply remove_last_target; exact Hst |].
    pose proof (add_adapter_tgts e (List.length old) v false st) as Ha.
    unfold scst_local_add_adapter.
    destruct (__scst_local_add_adapter e (List.length old) v false st)
      as [res st'].
    cbn [fst snd] in Ha.
    assert (Hst' : exists t', scst_local_tgts_list st' = old ++ [t']).
    { destruct Ha as [Ha | (_ & Ha)]; rewrite Ha, Hst.
      - eauto.
      - rewrite alter_nth_app_last. eauto. }
    destruct Hst' as (t' & Hst').
    destruct (res =? 0); cbn [negb].
    + eapply IH. exact Hst'.
    + left. cbn [snd]. eapply remove_last_target. exact Hst'.
Qed.

(** X2: a call that adds a target and does not return zero leaves the list
    of targets as it was: the target it had registered, with the sessions
    added so far, is removed again before the call returns. *)
Theorem add_target_all_or_nothing e name params st :
  fst (scst_local_sysfs_add_target e name params st) <> 0 ->
  scst_local_tgts_list (snd (scst_local_sysfs_add_target e name params st))
    = scst_local_tgts_list st.
Proof.
  unfold scst_local_sysfs_add_target.
  destruct (down_read_trylock st) as [st1 |] eqn:Hd; [| reflexivity].
  assert (H1 : scst_local_tgts_list st1 = scst_local_tgts_list st).
  { unfold down_read_trylock in Hd.
    destruct (writer (scst_local_exit_rwsem st)); [discriminate |].
    inversion Hd; reflexivity. }
  unfold scst_local_add_target.
  destruct (kzalloc_ok e); cbn [negb]; [| intros _; exact H1].
  destruct (register_target_ok e name); cbn [negb]; [| intros _; exact H1].
  match goal with
  | |- context [add_target_params e ?n params ?s] =>
      pose proof (add_target_params_tgts e (scst_local_tgts_list st1) params
                    _ s eq_refl) as Hp;
      destruct (add_target_params e n params s) as [res st3]
  end.
  cbn [fst snd] in *. intros Hres.
  destruct Hp as [Hp | (H0 & _)]; [| contradiction].
  cbn. rewrite Hp. exact H1.
Qed.

End AddTarget.

Section AddDelTarget.
Context {abi : kernel_abi}.
Import Registry RegistryView.

Lemma add_target_params_sessions e old params : errnos_nonzero -> forall t st,
  scst_local_tgts_list st = old ++ [t] ->
  let r := add_target_params e (List.length old) params st in
  (fst r <> 0 /\ scst_local_tgts_list (snd r) = old) \/
  (fst r = 0 /\ exists news,
     scst_local_tgts_list (snd r)
       = old ++ [set_sessions_list (sessions_list t ++ news) t] /\
     map initiator_name news = requested_sessions params /\
     Forall (fun s => unregistering s = false /\ aen_work_list s = []) news).
Proof.
  intros Hnz. pose proof Hnz as (_ & _ & Hinval & _).
  induction params as [| [p v] rest IH]; intros t st Hst;
    cbn [add_target_params requested_sessions].
  - right. split; [reflexivity |]. exists []. rewrite app_nil_r.
    split; [| split; [reflexivity | constructor]].
    cbn [snd]. rewrite Hst. destruct t; reflexivity.
  - destruct (is_empty p).
    { right. split; [reflexivity |]. exists []. rewrite app_nil_r.
      split; [| split; [reflexivity | constructor]].
      cbn [snd]. rewrite Hst. destruct t; reflexivity. }
    destruct (strcasecmp "session_name" p =? 0); cbn [negb];
      [| left; cbn [fst snd]; split;
         [lia | eapply remove_last_target; exact Hst]].
    destruct (is_empty v);
      [left; cbn [fst snd]; split;
         [lia | eapply remove_last_target; exact Hst] |].
    pose proof (add_adapter_failure_nonzero e (List.length old) v false st Hnz)
      as Ha.
    unfold scst_local_add_adapter.
    destruct (__scst_local_add_adapter e (List.length old) v false st)
      as [res st'].
    cbn [fst snd] in Ha.
    destruct Ha as [(Hres & Ha) | (Hres & Ha)].
    + destruct (Z.eqb_spec res 0) as [| _]; [contradiction |]. cbn [negb].
      left. cbn [fst snd]. split; [exact Hres |].
      eapply remove_last_target. rewrite Ha. exact Hst.
    + subst res. cbn [Z.eqb negb].
      rewrite Hst, alter_nth_app_last in Ha.
      destruct (IH _ st' Ha) as [Hf | (H0 & news & Hl & Hn & Hfresh)];
        [left; exact Hf |].
      right. split; [exact H0 |].
      eexists (_ :: news). split; [| split].
      * rewrite Hl. cbn [sessions_list set_sessions_list].
        rewrite <- app_assoc. cbn [app]. destruct t; reflexivity.
      * cbn [map]. rewrite Hn. reflexivity.
      * constructor; [split; reflexivity | exact Hfresh].
Qed.

(** What a call that adds a target leaves in the registry. *)
Lemma sysfs_add_target_cases e name params st :
  errnos_nonzero ->
  let r := scst_local_sysfs_add_target e name params st in
  (fst r <> 0 /\ scst_local_tgts_list (snd r) = scst_local_tgts_list st) \/
  (fst r = 0 /\ writer (scst_local_exit_rwsem st) = false /\
   exists news,
     scst_local_tgts_list (snd r)
       = scst_local_tgts_list st ++
         [{| tgt_name := name; sessions_list := news;
             scsi_transport_version := 0; phys_transport_version := 0 |}] /\
     map initiator_name news = requested_sessions params /\
     Forall (fun s => unregistering s = false /\ aen_work_list s = []) news).
Proof.
  intros Hnz. pose proof Hnz as (Hnoent & Hnomem & _ & Hfault).
  unfold scst_local_sysfs_add_target.
  destruct (down_read_trylock st) as [st1 |] eqn:Hd;
    [| left; cbn [fst snd]; split; [lia | reflexivity]].
  assert (H1 : scst_local_tgts_list st1 = scst_local_tgts_list st /\
               writer (scst_local_exit_rwsem st) = false).
  { unfold down_read_trylock in Hd.
    destruct (writer (scst_local_exit_rwsem st)); [discriminate |].
    inversion Hd; split; reflexivity. }
  destruct H1 as [H1 Hw].
  unfold scst_local_add_target.
  destruct (kzalloc_ok e); cbn [negb];
    [| left; cbn [fst snd]; split; [lia | exact H1]].
  destruct (register_target_ok e name); cbn [negb];
    [| left; cbn [fst snd]; split; [lia | exact H1]].
  match goal with
  | |- context [add_target_params e ?n params ?s] =>
      pose proof (add_target_params_sessions e (scst_local_tgts_list st1) params
                    Hnz _ s eq_refl) as Hp;
      destruct (add_target_params e n params s) as [res st3]
  end.
  cbn [fst snd] in *.
  destruct Hp as [(Hne & Hl) | (H0 & news & Hl & Hn & Hfresh)].
  - left. split; [exact Hne |]. cbn. rewrite Hl. exact H1.
  - right. split; [exact H0 |]. split; [exact Hw |].
    exists news. split; [cbn; rewrite Hl, H1; reflexivity |].
    split; assumption.
Qed.

(** X3: when the call that adds a target returns zero, the new target is the
    last of the list, has the name given and both version descriptors unset,
    and its sessions are the values of the parameters, in their order, up to
    the first parameter without a key; each of them has its latch clear and
    an empty AEN queue. *)
Theorem add_target_adds_requested_sessions e name params st :
  errnos_nonzero ->
  fst (scst_local_sysfs_add_target e name params st) = 0 ->
  exists t,
    scst_local_tgts_list (snd (scst_local_sysfs_add_target e name params st))
      = scst_local_tgts_list st ++ [t] /\
    tgt_name t = name /\
    scsi_transport_version t = 0 /\ phys_transport_version t = 0 /\
    map initiator_name (sessions_list t) = requested_sessions params /\
    Forall (fun s => unregistering s = false /\ aen_work_list s = [])
           (sessions_list t).
Proof.
  intros Hnz Hres.
  destruct (sysfs_add_target_cases e name params st Hnz)
    as [(Hne & _) | (_ & _ & news & Hl & Hn & Hfresh)]; [contradiction |].
  eexists. split; [exact Hl |]. cbn. repeat split; assumption.
Qed.

Lemma down_read_trylock_free st :
  writer (scst_local_exit_rwsem st) = false ->
  down_read_trylock st =
    Some (set_rwsem {| writer := false;
                       readers := S (readers (scst_local_exit_rwsem st)) |} st).
Proof. unfold down_read_trylock. intros ->. reflexivity. Qed.

Lemma no_tgt_named_find name l :
  no_tgt_named name l ->
  Forall (fun t => (strcmp name (tgt_name t) =? 0) = false) l.
Proof.
  unfold no_tgt_named. intros H. eapply Forall_impl; [| exact H].
  cbn beta. intros t Hn. apply Z.eqb_neq. exact Hn.
Qed.

(** The calls of a synchronous close, in order, for a session whose latch
    was clear. *)
Lemma close_session_sync_calls sess :
  unregistering sess = false ->
  close_session_impl_sess false sess
  = (None,
     [latch_set; list_del_session; scsi_remove_host (shost sess);
      cancel_work_sync_aen]
     ++ map scst_aen_done (aen_work_list sess)
     ++ [scst_unregister_session]).
Proof.
  intros Hu.
  unfold close_session_impl_sess, Aen.close_session_mark. rewrite Hu.
  unfold Aen.device_unregister, Aen.scst_local_driver_remove,
    Aen.scst_local_release_adapter, Aen.scst_process_aens.
  cbn [unregistering set_unregistering set_shost set_aen_work_queued
       aen_work_list shost].
  rewrite process_aens_items_cleanup. reflexivity.
Qed.

Lemma close_session_latched sess async :
  unregistering sess = true ->
  close_session_impl_sess async sess = (Some sess, []).
Proof.
  intros Hu. unfold close_session_impl_sess, Aen.close_session_mark.
  rewrite Hu, (set_unregistering_id _ Hu). reflexivity.
Qed.

Lemma acks_unregister_nothing q :
  filter is_unregister_session (map scst_aen_done q) = [] /\
  unregistered_targets (map scst_aen_done q) = [].
Proof. induction q as [| a q [IH1 IH2]]; cbn; auto. Qed.

(** A session closed synchronously is unregistered once if its latch was
    clear, and not at all if it was set. *)
Lemma close_session_sync_unregisters sess :
  List.length (filter is_unregister_session
                 (snd (close_session_impl_sess false sess)))
  = (if unregistering sess then 0%nat else 1%nat) /\
  unregistered_targets (snd (close_session_impl_sess false sess)) = [].
Proof.
  destruct (unregistering sess) eqn:Hu.
  - rewrite (close_session_latched _ _ Hu). split; reflexivity.
  - rewrite (close_session_sync_calls _ Hu). cbn [snd].
    unfold unregistered_targets.
    rewrite !filter_app, !flat_map_app, !length_app.
    destruct (acks_unregister_nothing (aen_work_list sess)) as [H1 H2].
    unfold unregistered_targets in H2. rewrite H1, H2. split; reflexivity.
Qed.

Lemma remove_target_events l1 t l2 st :
  scst_local_tgts_list st = l1 ++ t :: l2 ->
  exists evs,
    __scst_local_remove_target (List.length l1) st
      = log evs (set_tgts (l1 ++ l2) st) /\
    unregistered_targets evs = [tgt_name t] /\
    List.length (filter is_unregister_session evs)
      = List.length (filter (fun s => negb (unregistering s)) (sessions_list t)).
Proof.
  intros Hst. unfold __scst_local_remove_target.
  rewrite Hst, nth_error_middle, remove_nth_middle.
  eexists. split; [reflexivity |].
  split.
  - unfold unregistered_targets. rewrite flat_map_app. cbn [flat_map app].
    induction (sessions_list t) as [| s l IH]; [reflexivity |].
    cbn [flat_map]. rewrite flat_map_app.
    destruct (close_session_sync_unregisters s) as [_ H2].
    unfold unregistered_targets in H2. rewrite H2. exact IH.
  - rewrite filter_app, length_app. cbn [filter is_unregister_session List.length].
    rewrite Nat.add_0_r.
    induction (sessions_list t) as [| s l IH]; [reflexivity |].
    cbn [flat_map filter]. rewrite filter_app, length_app, IH.
    destruct (close_session_sync_unregisters s) as [H1 _]. rewrite H1.
    destruct (unregistering s); reflexivity.
Qed.

(** The first target that answers to the name is removed, with its
    sessions. *)
Lemma sysfs_del_target_found name st l1 t l2 :
  writer (scst_local_exit_rwsem st) = false ->
  scst_local_tgts_list st = l1 ++ t :: l2 ->
  no_tgt_named name l1 -> strcmp name (tgt_name t) = 0 ->
  exists evs,
    scst_local_sysfs_del_target name st
      = (0, log evs (set_tgts (l1 ++ l2) st)) /\
    unregistered_targets evs = [tgt_name t] /\
    List.length (filter is_unregister_session evs)
      = List.length (filter (fun s => negb (unregistering s))
                       (sessions_list t)).
Proof.
  intros Hw Hst Hno Ht. unfold scst_local_sysfs_del_target.
  rewrite (down_read_trylock_free st Hw).
  cbn [scst_local_tgts_list set_rwsem].
  rewrite Hst.
  rewrite (find_index_first _ l1 l2 t (no_tgt_named_find _ _ Hno))
    by (apply Z.eqb_eq; exact Ht).
  match goal with
  | |- context [__scst_local_remove_target _ ?s] =>
      destruct (remove_target_events l1 t l2 s) as (evs & He & Hu & Hc);
      [cbn; exact Hst |]
  end.
  exists evs. rewrite He. split; [| split; assumption].
  destruct st as [tgts [wr rd] num cs]. cbn in *. subst wr. reflexivity.
Qed.

(** X4: deleting a target by name.  When no target answers to the name, the
    call returns -ENOENT and the state is as before.  Otherwise the first
    target of that name is unlinked, and only that one; its sessions are
    closed synchronously, those whose latch was clear being unregistered
    once and the others not at all, and the target is unregistered once;
    the call returns zero. *)
Theorem del_target_removes_first_match name st :
  writer (scst_local_exit_rwsem st) = false ->
  (no_tgt_named name (scst_local_tgts_list st) ->
   scst_local_sysfs_del_target name st = (- ENOENT, st)) /\
  (forall l1 t l2,
     scst_local_tgts_list st = l1 ++ t :: l2 ->
     no_tgt_named name l1 -> strcmp name (tgt_name t) = 0 ->
     exists evs,
       scst_local_sysfs_del_target name st
         = (0, log evs (set_tgts (l1 ++ l2) st)) /\
       unregistered_targets evs = [tgt_name t] /\
       List.length (filter is_unregister_session evs)
         = List.length (filter (fun s => negb (unregistering s))
                          (sessions_list t))).
Proof.
  intros Hw. split.
  - intros Hno. unfold scst_local_sysfs_del_target.
    rewrite (down_read_trylock_free st Hw).
    cbn [scst_local_tgts_list set_rwsem].
    rewrite (find_index_none _ _ (no_tgt_named_find _ _ Hno)).
    destruct st as [tgts [wr rd] num cs]. cbn in *. subst wr. reflexivity.
  - intros l1 t l2 Hst Hno Ht.
    apply sysfs_del_target_found; assumption.
Qed.

(** X5: adding a target whose name no target of the registry has, and then
    deleting it by that name, gives back the list of targets there was
    before, sessions included. *)
Theorem add_then_del_target_restores e name params st :
  errnos_nonzero ->
  no_tgt_named name (scst_local_tgts_list st) ->
  fst (scst_local_sysfs_add_target e name params st) = 0 ->
  let st1 := snd (scst_local_sysfs_add_target e name params st) in
  fst (scst_local_sysfs_del_target name st1) = 0 /\
  scst_local_tgts_list (snd (scst_local_sysfs_del_target name st1))
    = scst_local_tgts_list st.
Proof.
  intros Hnz Hno Hadd st1.
  destruct (sysfs_add_target_cases e name params st Hnz)
    as [(Hne & _) | (_ & Hw & news & Hl & _)]; [contradiction |].
  fold st1 in Hl.
  assert (Hw1 : writer (scst_local_exit_rwsem st1) = false).
  { unfold st1. rewrite sysfs_add_target_rwsem. exact Hw. }
  destruct (sysfs_del_target_found name st1 _ _ [] Hw1 Hl Hno)
    as (evs & He & _); [apply strcmp_refl |].
  rewrite He. cbn. rewrite app_nil_r. split; reflexivity.
Qed.

End AddDelTarget.

Section MgmtCmd.
Context {abi : kernel_abi}.
Import Registry RegistryView.

Lemma char_diff_zero_sym c d : char_diff c d = 0 -> char_diff d c = 0.
Proof. unfold char_diff. lia. Qed.

Lemma strcmp_zero_sym : forall a b, strcmp a b = 0 -> strcmp b a = 0.
Proof.
  induction a as [| c a IH]; intros b; destruct b as [| d b'];
    cbn [strcmp]; try solve [auto using char_diff_zero_sym].
  rewrite (Ascii.eqb_sym d c).
  destruct (Ascii.eqb c d); auto using char_diff_zero_sym.
Qed.

Lemma no_tgt_named_find_tgt name st :
  no_tgt_named name (scst_local_tgts_list st) -> find_tgt name st = None.
Proof.
  intros H. apply find_index_none. eapply Forall_impl; [| exact H].
  cbn beta. intros t Hn. apply Z.eqb_neq. intros Hz.
  apply Hn, strcmp_zero_sym, Hz.
Qed.

Lemma first_tgt_named_find_tgt name st l1 t l2 :
  first_tgt_named name (scst_local_tgts_list st) l1 t l2 ->
  find_tgt name st = Some (List.length l1) /\
  nth_error (scst_local_tgts_list st) (List.length l1) = Some t.
Proof.
  intros (Hl & Hno & Ht). unfold find_tgt. rewrite Hl. split.
  - apply find_index_first.
    + eapply Forall_impl; [| exact Hno]. cbn beta. intros x Hn.
      apply Z.eqb_neq. intros Hz. apply Hn, strcmp_zero_sym, Hz.
    + apply Z.eqb_eq, strcmp_zero_sym, Ht.
  - apply nth_error_middle.
Qed.

Lemma first_sess_named_find_sess name t s1 sess s2 :
  first_sess_named name (sessions_list t) s1 sess s2 ->
  find_sess name t = Some (List.length s1) /\
  nth_error (sessions_list t) (List.length s1) = Some sess.
Proof.
  intros (Hl & Hno & Hs). unfold find_sess. rewrite Hl. split.
  - apply find_index_first.
    + eapply Forall_impl; [| exact Hno]. cbn beta. intros x Hn.
      apply Z.eqb_neq. exact Hn.
    + apply Z.eqb_eq, Hs.
  - apply nth_error_middle.
Qed.

Lemma up_read_after_down st :
  writer (scst_local_exit_rwsem st) = false ->
  up_read (set_rwsem {| writer := false;
                        readers := S (readers (scst_local_exit_rwsem st)) |} st)
  = st.
Proof. destruct st as [tgts [wr rd] num cs]. cbn. intros ->. reflexivity. Qed.

Lemma up_read_log_set_tgts evs l st :
  writer (scst_local_exit_rwsem st) = false ->
  up_read (log evs (set_tgts l
    (set_rwsem {| writer := false;
                  readers := S (readers (scst_local_exit_rwsem st)) |} st)))
  = log evs (set_tgts l st).
Proof. destruct st as [tgts [wr rd] num cs]. cbn. intros ->. reflexivity. Qed.

Lemma log_nil_set_same st :
  log [] (set_tgts (scst_local_tgts_list st) st) = st.
Proof. destruct st as [tgts r num cs]. unfold log, set_tgts. cbn. rewrite app_nil_r. reflexivity. Qed.

Lemma is_empty_false s : s <> ""%string -> is_empty s = false.
Proof. destruct s; [contradiction | reflexivity]. Qed.

(** X6: the management command returns -EINVAL and leaves the state as it
    was when the target name is empty, when no target has that name, when
    the session name is empty, and when del_session names a session the
    target does not have. *)
Theorem mgmt_cmd_rejections_change_nothing
    e command target_name session_name st :
  writer (scst_local_exit_rwsem st) = false ->
  target_name = ""%string \/
  no_tgt_named target_name (scst_local_tgts_list st) \/
  session_name = ""%string \/
  (strcasecmp "add_session" command <> 0 /\
   strcasecmp "del_session" command = 0 /\
   exists l1 t l2,
     first_tgt_named target_name (scst_local_tgts_list st) l1 t l2 /\
     no_sess_named session_name (sessions_list t)) ->
  scst_local_sysfs_mgmt_cmd e command target_name session_name st
    = (- EINVAL, st).
Proof.
  intros Hw Hcase. unfold scst_local_sysfs_mgmt_cmd.
  rewrite (down_read_trylock_free st Hw).
  set (st1 := set_rwsem _ st).
  assert (Hu : up_read st1 = st) by (apply up_read_after_down; exact Hw).
  assert (Ht1 : scst_local_tgts_list st1 = scst_local_tgts_list st)
    by reflexivity.
  destruct (is_empty target_name) eqn:Het; [rewrite Hu; reflexivity |].
  destruct Hcase as [-> | Hcase]; [discriminate |].
  destruct (find_tgt target_name st1) as [ti |] eqn:Hf;
    [| rewrite Hu; reflexivity].
  destruct Hcase as [Hno | Hcase].
  { rewrite no_tgt_named_find_tgt in Hf by (rewrite Ht1; exact Hno).
    discriminate. }
  destruct (is_empty session_name) eqn:Hes; [rewrite Hu; reflexivity |].
  destruct Hcase as [-> | (Hadd & Hdel & l1 & t & l2 & Hfirst & Hnos)];
    [discriminate |].
  destruct (Z.eqb_spec (strcasecmp "add_session" command) 0); [contradiction |].
  rewrite Hdel. cbn [Z.eqb].
  rewrite <- Ht1 in Hfirst.
  destruct (first_tgt_named_find_tgt _ _ _ _ _ Hfirst) as (Hf' & Hn).
  rewrite Hf in Hf'. inversion Hf'; subst ti. rewrite Hn.
  unfold find_sess. rewrite find_index_none; [rewrite Hu; reflexivity |].
  eapply Forall_impl; [| exact Hnos]. cbn beta. intros x Hx.
  apply Z.eqb_neq. exact Hx.
Qed.

(** What del_session does once the target and the session are found. *)
Lemma sysfs_del_session
    e command target_name session_name st l1 t l2 s1 sess s2 :
  writer (scst_local_exit_rwsem st) = false ->
  target_name <> ""%string -> session_name <> ""%string ->
  strcasecmp "add_session" command <> 0 ->
  strcasecmp "del_session" command = 0 ->
  first_tgt_named target_name (scst_local_tgts_list st) l1 t l2 ->
  first_sess_named session_name (sessions_list t) s1 sess s2 ->
  scst_local_sysfs_mgmt_cmd e command target_name session_name st
  = (0,
     if unregistering sess then st
     else log (snd (close_session_impl_sess false sess))
            (set_tgts (l1 ++ set_sessions_list (s1 ++ s2) t :: l2) st)).
Proof.
  intros Hw Htn Hsn Hadd Hdel Hft Hfs.
  unfold scst_local_sysfs_mgmt_cmd.
  rewrite (down_read_trylock_free st Hw).
  set (st1 := set_rwsem _ st).
  assert (Hu : up_read st1 = st) by (apply up_read_after_down; exact Hw).
  rewrite (is_empty_false _ Htn), (is_empty_false _ Hsn).
  destruct (first_tgt_named_find_tgt target_name st1 _ _ _ Hft) as (Hf & Hn).
  rewrite Hf.
  destruct (Z.eqb_spec (strcasecmp "add_session" command) 0); [contradiction |].
  rewrite Hdel. cbn [Z.eqb]. rewrite Hn.
  destruct (first_sess_named_find_sess _ _ _ _ _ Hfs) as (Hfs' & Hns).
  rewrite Hfs'.
  unfold scst_local_close_session_impl, get_session. rewrite Hn, Hns.
  destruct Hft as (Hl & _). destruct Hfs as (Hsl & _).
  destruct (unregistering sess) eqn:Hlatch.
  - rewrite (close_session_latched _ _ Hlatch).
    unfold put_session.
    replace (alter_nth _ _ _) with (scst_local_tgts_list st1).
    + f_equal. unfold st1. rewrite (up_read_log_set_tgts _ _ _ Hw).
      cbn [scst_local_tgts_list set_rwsem]. apply log_nil_set_same.
    + symmetry. eapply alter_nth_same; [exact Hn |].
      cbn beta. rewrite (alter_nth_same (fun _ => sess) _ _ _ Hns eq_refl).
      destruct t; reflexivity.
  - rewrite (close_session_sync_calls _ Hlatch). f_equal.
    unfold put_session. cbn [scst_local_tgts_list st1 set_rwsem] in *.
    rewrite Hl, alter_nth_middle, Hsl, remove_nth_middle.
    unfold st1. apply (up_read_log_set_tgts _ _ _ Hw).
Qed.

(** X7: del_session on the first session of that name.  If its latch is
    clear, the latch is set, the session is unlinked from its target, its
    host is removed, the AEN work is cancelled, every AEN still queued is
    acknowledged in queue order without a rescan, and the session is
    unregistered, in this order; the other sessions and targets are not
    touched.  If its latch is already set the call changes nothing.  Both
    ways the call returns zero. *)
Theorem del_session_unlinks_and_unregisters
    e command target_name session_name st l1 t l2 s1 sess s2 :
  writer (scst_local_exit_rwsem st) = false ->
  target_name <> ""%string -> session_name <> ""%string ->
  strcasecmp "add_session" command <> 0 ->
  strcasecmp "del_session" command = 0 ->
  first_tgt_named target_name (scst_local_tgts_list st) l1 t l2 ->
  first_sess_named session_name (sessions_list t) s1 sess s2 ->
  scst_local_sysfs_mgmt_cmd e command target_name session_name st
  = (0,
     if unregistering sess then st
     else log ([latch_set; list_del_session; scsi_remove_host (shost sess);
                cancel_work_sync_aen]
               ++ map scst_aen_done (aen_work_list sess)
               ++ [scst_unregister_session])
            (set_tgts (l1 ++ set_sessions_list (s1 ++ s2) t :: l2) st)).
Proof.
  intros Hw Htn Hsn Hadd Hdel Hft Hfs.
  rewrite (sysfs_del_session e command target_name session_name st
             l1 t l2 s1 sess s2) by assumption.
  destruct (unregistering sess) eqn:Hlatch; [reflexivity |].
  rewrite (close_session_sync_calls _ Hlatch). reflexivity.
Qed.

(** What add_session does once the target is found. *)
Lemma sysfs_add_session e command target_name session_name st l1 t l2 :
  errnos_nonzero ->
  writer (scst_local_exit_rwsem st) = false ->
  target_name <> ""%string -> session_name <> ""%string ->
  strcasecmp "add_session" command = 0 ->
  first_tgt_named target_name (scst_local_tgts_list st) l1 t l2 ->
  let r := scst_local_sysfs_mgmt_cmd e command target_name session_name st in
  (fst r <> 0 /\ scst_local_tgts_list (snd r) = scst_local_tgts_list st) \/
  (fst r = 0 /\
   scst_local_tgts_list (snd r)
   = l1 ++ set_sessions_list
             (sessions_list t ++
              [Aen.new_sess session_name (atomic_inc (scst_local_sess_num st))
                 (probe_host e session_name)]) t :: l2).
Proof.
  intros Hnz Hw Htn Hsn Hadd Hft.
  unfold scst_local_sysfs_mgmt_cmd.
  rewrite (down_read_trylock_free st Hw).
  set (st1 := set_rwsem _ st).
  rewrite (is_empty_false _ Htn), (is_empty_false _ Hsn).
  destruct (first_tgt_named_find_tgt target_name st1 _ _ _ Hft) as (Hf & Hn).
  rewrite Hf, Hadd. cbn [Z.eqb].
  pose proof (add_adapter_failure_nonzero e (List.length l1) session_name true
                st1 Hnz) as Ha.
  destruct (__scst_local_add_adapter e (List.length l1) session_name true st1)
    as [res st2].
  cbn [fst snd] in *. destruct Hft as (Hl & _).
  destruct Ha as [(Hres & Ha) | (Hres & Ha)]; [left | right];
    (split; [exact Hres |]).
  - exact Ha.
  - change (scst_local_tgts_list (up_read st2)) with (scst_local_tgts_list st2).
    rewrite Ha. cbn [scst_local_tgts_list st1 set_rwsem scst_local_sess_num].
    rewrite Hl, alter_nth_middle. reflexivity.
Qed.

(** X8: add_session on an existing target.  When the call returns zero the
    new session is the last of that target's list, with the name given, the
    next session number, the latch clear, an empty AEN queue and the host
    the bus probe gave it; every other target is as before.  When it does
    not return zero, no list has changed. *)
Theorem add_session_appends_to_its_target
    e command target_name session_name st l1 t l2 :
  errnos_nonzero ->
  writer (scst_local_exit_rwsem st) = false ->
  target_name <> ""%string -> session_name <> ""%string ->
  strcasecmp "add_session" command = 0 ->
  first_tgt_named target_name (scst_local_tgts_list st) l1 t l2 ->
  let r := scst_local_sysfs_mgmt_cmd e command target_name session_name st in
  (fst r <> 0 -> scst_local_tgts_list (snd r) = scst_local_tgts_list st) /\
  (fst r = 0 ->
   exists sess,
     scst_local_tgts_list (snd r)
       = l1 ++ set_sessions_list (sessions_list t ++ [sess]) t :: l2 /\
     initiator_name sess = session_name /\
     number sess = atomic_inc (scst_local_sess_num st) /\
     unregistering sess = false /\ aen_work_list sess = [] /\
     shost sess = Some (probe_host e session_name)).
Proof.
  intros Hnz Hw Htn Hsn Hadd Hft r.
  destruct (sysfs_add_session e command target_name session_name st l1 t l2
              Hnz Hw Htn Hsn Hadd Hft) as [(Hres & Hl) | (Hres & Hl)];
    fold r in Hres, Hl; (split; intros Hr; [| try contradiction]).
  - exact Hl.
  - contradiction.
  - eexists. split; [exact Hl |]. repeat split.
Qed.

(** X9: adding a session whose name no session of the target has, and then
    deleting it by that name, gives back the list of targets there was
    before. *)
Theorem add_then_del_session_restores
    e cmd_add cmd_del target_name session_name st l1 t l2 :
  errnos_nonzero ->
  writer (scst_local_exit_rwsem st) = false ->
  target_name <> ""%string -> session_name <> ""%string ->
  strcasecmp "add_session" cmd_add = 0 ->
  strcasecmp "add_session" cmd_del <> 0 ->
  strcasecmp "del_session" cmd_del = 0 ->
  first_tgt_named target_name (scst_local_tgts_list st) l1 t l2 ->
  no_sess_named session_name (sessions_list t) ->
  fst (scst_local_sysfs_mgmt_cmd e cmd_add target_name session_name st) = 0 ->
  let st1 :=
    snd (scst_local_sysfs_mgmt_cmd e cmd_add target_name session_name st) in
  fst (scst_local_sysfs_mgmt_cmd e cmd_del target_name session_name st1) = 0 /\
  scst_local_tgts_list
    (snd (scst_local_sysfs_mgmt_cmd e cmd_del target_name session_name st1))
  = scst_local_tgts_list st.
Proof.
  intros Hnz Hw Htn Hsn Hadd Hnadd Hdel Hft Hnos Hres st1.
  destruct (sysfs_add_session e cmd_add target_name session_name st l1 t l2
              Hnz Hw Htn Hsn Hadd Hft) as [(Hne & _) | (_ & Hl)];
    [contradiction |].
  fold st1 in Hl.
  assert (Hw1 : writer (scst_local_exit_rwsem st1) = false).
  { unfold st1. rewrite sysfs_mgmt_cmd_rwsem. exact Hw. }
  destruct Hft as (Hst & Hnot & Hname).
  set (new := Aen.new_sess session_name (atomic_inc (scst_local_sess_num st))
                (probe_host e session_name)) in *.
  set (t' := set_sessions_list (sessions_list t ++ [new]) t) in *.
  assert (Hft1 : first_tgt_named target_name (scst_local_tgts_list st1) l1 t' l2).
  { split; [exact Hl |]. split; [exact Hnot | exact Hname]. }
  assert (Hfs1 : first_sess_named session_name (sessions_list t')
                   (sessions_list t) new []).
  { split; [reflexivity |]. split; [exact Hnos | apply strcmp_refl]. }
  rewrite (sysfs_del_session e cmd_del target_name session_name st1
             l1 t' l2 (sessions_list t) new []) by assumption.
  cbn [fst snd new Aen.new_sess unregistering]. split; [reflexivity |].
  cbn. rewrite app_nil_r, Hst. destruct t; reflexivity.
Qed.

End MgmtCmd.

Section ExitCalls.
Context {abi : kernel_abi}.
Import Registry RegistryView.

Lemma log_log_set_tgts e1 e2 l1 l2 st :
  log e2 (set_tgts l2 (log e1 (set_tgts l1 st)))
  = log (e1 ++ e2) (set_tgts l2 st).
Proof. unfold log, set_tgts. cbn. rewrite app_assoc. reflexivity. Qed.

(** The loop of [scst_local_exit]: the targets go one by one, first of the
    list first. *)
Lemma remove_targets_events : forall l st,
  scst_local_tgts_list st = l ->
  exists evs,
    remove_targets (List.length l) st = log evs (set_tgts [] st) /\
    unregistered_targets evs = map tgt_name l /\
    List.length (filter is_unregister_session evs)
      = List.length (filter (fun s => negb (unregistering s))
                       (flat_map sessions_list l)).
Proof.
  induction l as [| t rest IH]; intros st Hst.
  - exists []. cbn. split; [| split; reflexivity].
    rewrite <- Hst. symmetry. apply log_nil_set_same.
  - cbn [List.length remove_targets].
    destruct (remove_target_events [] t rest st Hst) as (e1 & He1 & Hu1 & Hc1).
    cbn [List.length app] in He1. rewrite He1.
    destruct (IH (log e1 (set_tgts rest st)) eq_refl) as (e2 & He2 & Hu2 & Hc2).
    exists (e1 ++ e2). rewrite He2, log_log_set_tgts.
    split; [reflexivity |]. split.
    + unfold unregistered_targets in *. rewrite flat_map_app, Hu1, Hu2.
      reflexivity.
    + cbn [flat_map]. rewrite !filter_app, !length_app, Hc1, Hc2. reflexivity.
Qed.

(** X10: [scst_local_exit] unregisters every target of the registry once,
    in the order of the list, and unregisters once every session whose
    latch was clear; a session whose latch was already set is left to
    whoever set it. *)
Theorem exit_unregisters_every_target_and_open_session st st' :
  scst_local_exit st = Some st' ->
  exists evs,
    calls st' = calls st ++ evs /\
    unregistered_targets evs = map tgt_name (scst_local_tgts_list st) /\
    List.length (filter is_unregister_session evs)
      = List.length (filter (fun s => negb (unregistering s)) (all_sessions st)).
Proof.
  unfold scst_local_exit.
  destruct (down_write st) as [st1 |] eqn:Hd; [| discriminate].
  intros H; inversion H; subst st'; clear H.
  assert (H1 : scst_local_tgts_list st1 = scst_local_tgts_list st /\
               calls st1 = calls st).
  { unfold down_write in Hd.
    destruct (writer (scst_local_exit_rwsem st)
              || negb (readers (scst_local_exit_rwsem st) =? 0)%nat);
      [discriminate |].
    inversion Hd; split; reflexivity. }
  destruct H1 as [Ht Hc].
  destruct (remove_targets_events _ st1 eq_refl) as (evs & He & Hu & Hn).
  exists evs. rewrite He. cbn. rewrite Hc.
  split; [reflexivity |]. unfold all_sessions. rewrite <- Ht.
  split; [exact Hu | exact Hn].
Qed.

End ExitCalls.

(** ** Loading the module *)

Section InitProperties.
Context {abi : kernel_abi}.
Import Registry RegistryView Init.

Lemma add_target_position e name st res ti st1 :
  scst_local_add_target e name st = (res, Some ti, st1) ->
  res = 0 /\ ti = List.length (scst_local_tgts_list st) /\
  scst_local_tgts_list st1
    = scst_local_tgts_list st ++
      [{| tgt_name := name; sessions_list := [];
          scsi_transport_version := 0; phys_transport_version := 0 |}] /\
  scst_local_sess_num st1 = scst_local_sess_num st.
Proof.
  unfold scst_local_add_target.
  destruct (kzalloc_ok e); cbn [negb]; [| discriminate].
  destruct (register_target_ok e name); cbn [negb]; [| discriminate].
  intros H; inversion H; subst. repeat split.
Qed.

Lemma add_target_refused e name st res st1 :
  scst_local_add_target e name st = (res, None, st1) ->
  scst_local_tgts_list st1 = scst_local_tgts_list st.
Proof.
  unfold scst_local_add_target.
  destruct (kzalloc_ok e); cbn [negb];
    [| intros H; inversion H; reflexivity].
  destruct (register_target_ok e name); cbn [negb];
    intros H; inversion H; reflexivity.
Qed.

(** X12: when [scst_local_init] returns it either holds all of its five
    registrations (root device, bus, driver, target template, workqueue) and
    returns zero, or holds none of them, each one taken having been given
    back in the reverse order, and the list of targets is as before. *)
Theorem init_holds_all_or_nothing e st :
  let '(ret, st', tr) := scst_local_init e st in
  (held_after [] tr
     = Some [aen_workqueue; target_template; lld_driver; lld_bus; root_device]
   /\ ret = 0) \/
  (held_after [] tr = Some [] /\
   scst_local_tgts_list st' = scst_local_tgts_list st).
Proof.
  unfold scst_local_init.
  destruct (root_device_register_err e) as [err |];
    [right; split; reflexivity |].
  destruct (bus_register_res e <? 0); [right; split; reflexivity |].
  destruct (driver_register_res e <? 0); [right; split; reflexivity |].
  destruct (Z.eqb_spec (register_target_template_res e) 0) as [Ht | Ht];
    cbn [negb]; [| right; split; reflexivity].
  destruct (create_workqueue_ok e); cbn [negb]; [| right; split; reflexivity].
  destruct (scst_local_add_default_tgt e); cbn [negb];
    [| left; split; [reflexivity | exact Ht]].
  destruct (scst_local_add_target (admin e) "scst_local_tgt" st)
    as [[res [ti |]] st1] eqn:Ha.
  - destruct (add_target_position _ _ _ _ _ _ Ha) as (_ & -> & Hl & _).
    pose proof (add_adapter_tgts (admin e)
                  (List.length (scst_local_tgts_list st))
                  "scst_local_host" false st1) as Hs.
    unfold scst_local_add_adapter.
    destruct (__scst_local_add_adapter (admin e) _ "scst_local_host" false st1)
      as [ret st2].
    cbn [fst snd] in Hs.
    destruct (Z.eqb_spec ret 0) as [Hr | Hr]; cbn [negb].
    + left. split; [reflexivity | exact Hr].
    + right. split; [reflexivity |].
      destruct Hs as [Hs | (H0 & _)]; [| contradiction].
      unfold scst_local_remove_target.
      eapply remove_last_target. rewrite Hs. exact Hl.
  - right. split; [reflexivity |]. eapply add_target_refused. exact Ha.
Qed.

(** X13: when the workqueue cannot be created, [scst_local_init] gives
    back everything it had registered and returns zero: that path does not
    set the value returned. *)
Theorem init_reports_success_without_workqueue e st :
  root_device_register_err e = None ->
  0 <= bus_register_res e -> 0 <= driver_register_res e ->
  register_target_template_res e = 0 ->
  create_workqueue_ok e = false ->
  exists tr,
    scst_local_init e st = (0, st, tr) /\ held_after [] tr = Some [].
Proof.
  intros Hroot Hbus Hdrv Htmpl Hwq. unfold scst_local_init.
  rewrite Hroot, Htmpl, Hwq.
  destruct (Z.ltb_spec (bus_register_res e) 0); [lia |].
  destruct (Z.ltb_spec (driver_register_res e) 0); [lia |].
  cbn [Z.eqb negb]. eexists. split; reflexivity.
Qed.

(** X14: with every registration granted, [scst_local_init] returns zero
    and leaves the registry alone when the module parameter says not to add
    the default target; and when it adds it and returns zero, the registry
    has gained the target scst_local_tgt with the one session
    scst_local_host, numbered next. *)
Theorem init_adds_the_default_target e st :
  errnos_nonzero ->
  resources_granted e ->
  let '(ret, st', tr) := scst_local_init e st in
  (scst_local_add_default_tgt e = false -> ret = 0 /\ st' = st) /\
  (scst_local_add_default_tgt e = true -> ret = 0 ->
   scst_local_tgts_list st'
   = scst_local_tgts_list st ++
     [{| tgt_name := "scst_local_tgt";
         sessions_list :=
           [Aen.new_sess "scst_local_host"
              (atomic_inc (scst_local_sess_num st))
              (probe_host (admin e) "scst_local_host")];
         scsi_transport_version := 0; phys_transport_version := 0 |}]).
Proof.
  intros Hnz (Hroot & Hbus & Hdrv & Htmpl & Hwq). unfold scst_local_init.
  rewrite Hroot, Htmpl, Hwq.
  destruct (Z.ltb_spec (bus_register_res e) 0); [lia |].
  destruct (Z.ltb_spec (driver_register_res e) 0); [lia |].
  cbn [Z.eqb negb].
  destruct (scst_local_add_default_tgt e); cbn [negb];
    [| split; [intros _; split; reflexivity | discriminate]].
  destruct (scst_local_add_target (admin e) "scst_local_tgt" st)
    as [[res [ti |]] st1] eqn:Ha.
  - destruct (add_target_position _ _ _ _ _ _ Ha) as (_ & -> & Hl & Hnum).
    pose proof (add_adapter_failure_nonzero (admin e)
                  (List.length (scst_local_tgts_list st))
                  "scst_local_host" false st1 Hnz) as Hs.
    unfold scst_local_add_adapter.
    destruct (__scst_local_add_adapter (admin e) _ "scst_local_host" false st1)
      as [ret st2].
    cbn [fst snd] in Hs.
    destruct (Z.eqb_spec ret 0) as [Hr | Hr]; cbn [negb];
      (split; [discriminate |]); intros _ Hret; [| contradiction].
    destruct Hs as [(Hne & _) | (_ & Hs)]; [contradiction |].
    rewrite Hs, Hl, alter_nth_app_last, Hnum. reflexivity.
  - split; [discriminate |]. intros _ Hret. exfalso.
    revert Ha. unfold scst_local_add_target.
    destruct Hnz as (_ & Hnomem & _ & Hfault).
    destruct (kzalloc_ok (admin e)); cbn [negb];
      [| intros Hx; inversion Hx; lia].
    destruct (register_target_ok (admin e) "scst_local_tgt"); cbn [negb];
      intros Hx; inversion Hx; lia.
Qed.

End InitProperties.

(** ** The TransportID of a session *)

Section TransportIdProperties.
Context {abi : kernel_abi} {eabi : engine_abi}.
Import Registry TransportId.

Lemma nibble_cases x :
  0 <= x < 16 ->
  x = 0 \/ x = 1 \/ x = 2 \/ x = 3 \/ x = 4 \/ x = 5 \/ x = 6 \/ x = 7 \/
  x = 8 \/ x = 9 \/ x = 10 \/ x = 11 \/ x = 12 \/ x = 13 \/ x = 14 \/ x = 15.
Proof. lia. Qed.

Lemma land_15 n : Z.land n 0x0F = n mod 16.
Proof. change 0x0F with (Z.ones 4). rewrite Z.land_ones by lia. reflexivity. Qed.

Lemma shiftr_4 n : Z.shiftr n 4 = n / 16.
Proof. rewrite Z.shiftr_div_pow2 by lia. reflexivity. Qed.

(** The byte that carries the high nibble of the number. *)
Lemma high_byte n :
  to_u8 (Z.lor 0x40 (Z.land (Z.shiftr n 4) 0x0F)) = 64 + (n / 16) mod 16.
Proof.
  rewrite land_15, shiftr_4.
  assert (H : 0 <= (n / 16) mod 16 < 16) by (apply Z.mod_pos_bound; lia).
  destruct (nibble_cases _ H) as
    [-> | [-> | [-> | [-> | [-> | [-> | [-> | [-> | [-> | [-> | [-> | [-> |
    [-> | [-> | [-> | ->]]]]]]]]]]]]]]]; reflexivity.
Qed.

Lemma low_byte n :
  to_u8 (Z.lor 0x0F (Z.shiftl (Z.land n 0x0F) 4)) = 15 + 16 * (n mod 16).
Proof.
  rewrite land_15.
  assert (H : 0 <= n mod 16 < 16) by (apply Z.mod_pos_bound; lia).
  destruct (nibble_cases _ H) as
    [-> | [-> | [-> | [-> | [-> | [-> | [-> | [-> | [-> | [-> | [-> | [-> |
    [-> | [-> | [-> | ->]]]]]]]]]]]]]]]; reflexivity.
Qed.

Lemma default_id_bytes sess :
  scst_local_get_sas_transport_id true sess
  = (0, Some ([to_u8 (Z.lor 0x00 SCSI_TRANSPORTID_PROTOCOLID_SAS); 0; 0; 0;
               0x5F; 0xEE; 0xDE;
               64 + (tr_number sess / 16) mod 16;
               15 + 16 * (tr_number sess mod 16);
               0xAD; 0xE0; 0x50]
              ++ repeat 0 12)).
Proof.
  unfold scst_local_get_sas_transport_id. cbn [negb].
  rewrite high_byte, low_byte. reflexivity.
Qed.

Lemma number_of_default_bytes b0 n :
  number_of_id ([b0; 0; 0; 0; 0x5F; 0xEE; 0xDE;
                 64 + (n / 16) mod 16; 15 + 16 * (n mod 16);
                 0xAD; 0xE0; 0x50] ++ repeat 0 12)
  = n mod 256.
Proof.
  unfold number_of_id. cbn [nth app].
  rewrite land_15, shiftr_4.
  pose proof (Z.mod_pos_bound (n / 16) 16 ltac:(lia)).
  pose proof (Z.mod_pos_bound n 16 ltac:(lia)).
  replace ((64 + (n / 16) mod 16) mod 16) with ((n / 16) mod 16).
  2: { rewrite <- Zplus_mod_idemp_l. cbn. rewrite Z.mod_mod by lia. reflexivity. }
  replace ((15 + 16 * (n mod 16)) / 16) with (n mod 16).
  2: { apply Z.div_unique with (r := 15); lia. }
  change 256 with (16 * 16). rewrite Z.rem_mul_r by lia. lia.
Qed.

Lemma number_of_default_id sess id :
  scst_local_get_sas_transport_id true sess = (0, Some id) ->
  number_of_id id = tr_number sess mod 256.
Proof.
  rewrite default_id_bytes. intros H.
  assert (Hid : Some id = Some ([to_u8 (Z.lor 0x00 SCSI_TRANSPORTID_PROTOCOLID_SAS);
                 0; 0; 0; 0x5F; 0xEE; 0xDE;
                 64 + (tr_number sess / 16) mod 16;
                 15 + 16 * (tr_number sess mod 16);
                 0xAD; 0xE0; 0x50] ++ repeat 0 12)) by congruence.
  assert (Hid' : id = [to_u8 (Z.lor 0x00 SCSI_TRANSPORTID_PROTOCOLID_SAS);
                 0; 0; 0; 0x5F; 0xEE; 0xDE;
                 64 + (tr_number sess / 16) mod 16;
                 15 + 16 * (tr_number sess mod 16);
                 0xAD; 0xE0; 0x50] ++ repeat 0 12) by congruence.
  rewrite Hid'. apply number_of_default_bytes.
Qed.

(** X15: the generated SAS TransportID is 24 bytes long and carries the
    low eight bits of the session number in the two middle bytes of its SAS
    address; so two sessions get the same generated TransportID exactly
    when their numbers agree modulo 256. *)
Theorem default_transport_id_encodes_number sess1 sess2 :
  (exists id, scst_local_get_sas_transport_id true sess1 = (0, Some id) /\
              List.length id = 24%nat /\
              Forall (fun b => 0 <= b < 256) id /\
              number_of_id id = tr_number sess1 mod 256) /\
  (scst_local_get_sas_transport_id true sess1
     = scst_local_get_sas_transport_id true sess2
   <-> tr_number sess1 mod 256 = tr_number sess2 mod 256).
Proof.
  split.
  - eexists. split; [apply default_id_bytes |].
    split; [reflexivity |]. split.
    + pose proof (Z.mod_pos_bound (tr_number sess1 / 16) 16 ltac:(lia)).
      pose proof (Z.mod_pos_bound (tr_number sess1) 16 ltac:(lia)).
      assert (0 <= to_u8 (Z.lor 0 SCSI_TRANSPORTID_PROTOCOLID_SAS) < 256)
        by (apply Z.mod_pos_bound; reflexivity).
      cbn [repeat app].
      repeat (apply Forall_cons; [lia |]). constructor.
    + apply number_of_default_id, default_id_bytes.
  - split.
    + intros Heq.
      rewrite <- (number_of_default_id sess1 _ (default_id_bytes sess1)).
      rewrite <- (number_of_default_id sess2 _ (default_id_bytes sess2)).
      rewrite !default_id_bytes in Heq.
      assert (Hl : forall (a b : list Z), (0, Some a) = (0, Some b) -> a = b)
        by (intros a b Hab; congruence).
      apply Hl in Heq.
      rewrite Heq. reflexivity.
    + intros Hmod. rewrite !default_id_bytes.
      pose proof Hmod as Hm. change 256 with (16 * 16) in Hm.
      rewrite !Z.rem_mul_r in Hm by lia.
      pose proof (Z.mod_pos_bound (tr_number sess1 / 16) 16 ltac:(lia)).
      pose proof (Z.mod_pos_bound (tr_number sess1) 16 ltac:(lia)).
      pose proof (Z.mod_pos_bound (tr_number sess2 / 16) 16 ltac:(lia)).
      pose proof (Z.mod_pos_bound (tr_number sess2) 16 ltac:(lia)).
      assert (H16 : tr_number sess1 mod 16 = tr_number sess2 mod 16) by lia.
      assert (Hhi : (tr_number sess1 / 16) mod 16 = (tr_number sess2 / 16) mod 16)
        by lia.
      rewrite H16, Hhi. reflexivity.
Qed.

Lemma down_up_read st :
  writer (scst_local_exit_rwsem st) = false ->
  exists st1, down_read_trylock st = Some st1 /\ up_read st1 = st.
Proof.
  intros Hw. rewrite (down_read_trylock_free st Hw). eexists.
  split; [reflexivity | apply up_read_after_down; exact Hw].
Qed.

(** X16: a TransportID stored through the attribute is read back
    unchanged: the show function returns the bytes written and their count,
    and the engine is given the same bytes. *)
Theorem transport_id_store_show_round_trip alloc_ok buffer sess st :
  writer (scst_local_exit_rwsem st) = false ->
  buffer <> [] ->
  let '(res, sess', st') :=
    scst_local_transport_id_store true buffer sess st in
  res = Z.of_nat (List.length buffer) /\ st' = st /\
  tr_number sess' = tr_number sess /\
  scst_local_transport_id_show alloc_ok sess' st
    = (Z.of_nat (List.length buffer), buffer, st) /\
  scst_local_get_initiator_port_transport_id true (Some sess')
    = (0, Some buffer).
Proof.
  intros Hw Hne.
  unfold scst_local_transport_id_store, scst_local_transport_id_show.
  destruct (down_up_read st Hw) as (st1 & -> & ->).
  destruct buffer as [| b buffer]; [contradiction |].
  destruct (Z.eqb_spec (Z.of_nat (List.length (b :: buffer))) 0) as [H0 | _];
    [cbn [List.length] in H0; lia |].
  cbn [negb transport_id set_transport_id tr_number].
  repeat split.
Qed.

(** X17: a store of no bytes, and a store for which no memory is granted,
    both leave the session without a stored TransportID, whatever it had
    before; the engine is then given the generated one.  The first returns
    zero, the second -ENOMEM. *)
Theorem transport_id_store_clears_previous_id alloc_ok buffer sess st :
  writer (scst_local_exit_rwsem st) = false ->
  buffer = [] \/ alloc_ok = false ->
  let '(res, sess', st') :=
    scst_local_transport_id_store alloc_ok buffer sess st in
  res = (if Z.of_nat (List.length buffer) =? 0 then 0 else - ENOMEM) /\
  st' = st /\
  transport_id sess' = None /\
  scst_local_get_initiator_port_transport_id true (Some sess')
    = scst_local_get_sas_transport_id true sess.
Proof.
  intros Hw Hcase.
  unfold scst_local_transport_id_store.
  destruct (down_up_read st Hw) as (st1 & -> & ->).
  destruct (Z.eqb_spec (Z.of_nat (List.length buffer)) 0) as [H0 | Hn].
  - repeat split. exact H0.
  - destruct Hcase as [-> | ->]; [cbn in Hn; lia |].
    cbn [negb]. repeat split.
Qed.

(** X18: the TransportID the attribute shows is the one the engine is
    given: the stored one if there is one, the generated one otherwise. *)
Theorem transport_id_shown_is_the_one_reported alloc_ok sess st id :
  writer (scst_local_exit_rwsem st) = false ->
  scst_local_get_initiator_port_transport_id alloc_ok (Some sess)
    = (0, Some id) ->
  scst_local_transport_id_show alloc_ok sess st
    = (Z.of_nat (List.length id), id, st).
Proof.
  intros Hw.
  unfold scst_local_get_initiator_port_transport_id,
    scst_local_transport_id_show.
  destruct (down_up_read st Hw) as (st1 & -> & ->).
  destruct (transport_id sess) as [stored |].
  - destruct alloc_ok; intros H; [| discriminate H].
    assert (stored = id) by congruence. subst. reflexivity.
  - intros ->. reflexivity.
Qed.

End TransportIdProperties.

(** ** The version attributes of a target *)

Section VersionAttrProperties.
Context {abi : kernel_abi} {eabi : engine_abi}.
Import Registry VersionAttr.

(** X19: the number each version attribute shows is the number its getter
    gives the engine, the default 0x0BE0 of the SCSI transport version
    included; the key mark follows exactly when the stored field is not
    zero. *)
Theorem version_shown_is_version_reported t st :
  writer (scst_local_exit_rwsem st) = false ->
  (exists text,
     scst_local_scsi_transport_version_show (Some t) st
       = (Z.of_nat (String.length text), text, st) /\
     text = show_text (Version.scst_local_get_scsi_transport_version t)
                      (negb (scsi_transport_version t =? 0))) /\
  (exists text,
     scst_local_phys_transport_version_show (Some t) st
       = (Z.of_nat (String.length text), text, st) /\
     text = show_text (Version.scst_local_get_phys_transport_version t)
                      (negb (phys_transport_version t =? 0))).
Proof.
  intros Hw.
  unfold scst_local_scsi_transport_version_show,
    scst_local_phys_transport_version_show,
    Version.scst_local_get_scsi_transport_version,
    Version.scst_local_get_phys_transport_version.
  destruct (down_up_read st Hw) as (st1 & -> & ->).
  split; eexists; (split; [reflexivity |]).
  - destruct (scsi_transport_version t =? 0); reflexivity.
  - reflexivity.
Qed.

(** X20: a version attribute keeps the low 16 bits of the number written
    and accepts the write whatever the number: a multiple of 65536 leaves
    the field unset, so that the SCSI transport version reads 0x0BE0 again
    and the physical one zero. *)
Theorem version_store_truncates_to_16_bits val size t st :
  writer (scst_local_exit_rwsem st) = false ->
  (exists t',
     scst_local_scsi_transport_version_store (parsed val) size (Some t) st
       = (size, Some t', st) /\
     scsi_transport_version t' = val mod 65536 /\
     Version.scst_local_get_scsi_transport_version t'
       = (if val mod 65536 =? 0 then 0x0BE0 else val mod 65536) /\
     snd (fst (scst_local_scsi_transport_version_show (Some t') st))
       = show_text (if val mod 65536 =? 0 then 0x0BE0 else val mod 65536)
                   (negb (val mod 65536 =? 0))) /\
  (exists t',
     scst_local_phys_transport_version_store (parsed val) size (Some t) st
       = (size, Some t', st) /\
     phys_transport_version t' = val mod 65536 /\
     Version.scst_local_get_phys_transport_version t' = val mod 65536 /\
     snd (fst (scst_local_phys_transport_version_show (Some t') st))
       = show_text (val mod 65536) (negb (val mod 65536 =? 0))).
Proof.
  intros Hw.
  unfold scst_local_scsi_transport_version_store,
    scst_local_phys_transport_version_store,
    scst_local_scsi_transport_version_show,
    scst_local_phys_transport_version_show.
  destruct (down_up_read st Hw) as (st1 & -> & ->).
  unfold Version.scst_local_get_scsi_transport_version,
    Version.scst_local_get_phys_transport_version,
    Version.scst_local_scsi_transport_version_store,
    Version.scst_local_phys_transport_version_store, to_u16.
  change (2 ^ 16) with 65536.
  split; eexists; (split; [reflexivity |]);
    cbn [scsi_transport_version phys_transport_version
         set_scsi_transport_version set_phys_transport_version fst snd];
    (split; [reflexivity |]).
  - split; destruct (val mod 65536 =? 0); reflexivity.
  - split; reflexivity.
Qed.

End VersionAttrProperties.

(** ** The response to a command *)

Section ResponseProperties.
Context {eabi : engine_abi}.
Import Response.

Lemma memcpy_length dst src n :
  (n <= List.length src)%nat -> (n <= List.length dst)%nat ->
  List.length (memcpy dst src n) = List.length dst.
Proof.
  intros Hs Hd. unfold memcpy.
  rewrite length_app, length_firstn, length_skipn. lia.
Qed.

Lemma memcpy_prefix dst src n :
  (n <= List.length src)%nat ->
  firstn n (memcpy dst src n) = firstn n src /\
  skipn n (memcpy dst src n) = skipn n dst.
Proof.
  intros Hs. unfold memcpy.
  assert (Hl : List.length (firstn n src) = n)
    by (rewrite length_firstn; lia).
  split.
  - rewrite firstn_app, Hl, Nat.sub_diag. cbn [firstn].
    rewrite app_nil_r. rewrite <- Hl at 1. apply firstn_all.
  - rewrite skipn_app, Hl, Nat.sub_diag. cbn [skipn].
    rewrite <- Hl at 1. rewrite skipn_all. reflexivity.
Qed.

(** X21: [scst_local_copy_sense] copies at most SCSI_SENSE_BUFFERSIZE
    bytes: the sense buffer of the initiator keeps its length, starts with
    the sense bytes of the engine, cut at that size, and is unchanged behind
    them; result and residual are not touched. *)
Theorem copy_sense_stays_in_the_buffer cmnd scst_cmnd :
  List.length (sense_buffer cmnd) = Z.to_nat SCSI_SENSE_BUFFERSIZE ->
  let n := Nat.min (List.length (sense scst_cmnd))
                   (Z.to_nat SCSI_SENSE_BUFFERSIZE) in
  let c := scst_local_copy_sense cmnd scst_cmnd in
  List.length (sense_buffer c) = Z.to_nat SCSI_SENSE_BUFFERSIZE /\
  firstn n (sense_buffer c) = firstn n (sense scst_cmnd) /\
  skipn n (sense_buffer c) = skipn n (sense_buffer cmnd) /\
  c_result c = c_result cmnd /\ c_resid c = c_resid cmnd.
Proof.
  intros Hlen n c. unfold c, scst_local_copy_sense.
  cbn [sense_buffer c_result c_resid].
  assert (Hn : Z.to_nat (Z.min (Z.of_nat (List.length (sense scst_cmnd)))
                               SCSI_SENSE_BUFFERSIZE) = n) by (unfold n; lia).
  rewrite Hn.
  assert (Hs : (n <= List.length (sense scst_cmnd))%nat) by (unfold n; lia).
  assert (Hd : (n <= List.length (sense_buffer cmnd))%nat) by (unfold n; lia).
  split; [rewrite memcpy_length; [exact Hlen | exact Hs | exact Hd] |].
  destruct (memcpy_prefix (sense_buffer cmnd) (sense scst_cmnd) n Hs) as [H1 H2].
  repeat split; assumption.
Qed.


End ResponseProperties.

(** ** More on the session machine *)

Section MachineExtras.
Context {abi : kernel_abi}.
Import Aen Inv MachineView.





(** X24: the sBUG_ON of [scst_process_aens] never fires: in every
    reachable state a run of the loop, by the worker or by the cleanup pass,
    can take its next step, because only AENs of the SCSI kind are ever
    enqueued. *)
Theorem drains_never_hit_bug_on name num h ls s g :
  run (init (new_sess name num h)) ls = Some s ->
  (worker s <> WIdle -> step s (aen_work_step g) <> None) /\
  (forall pc, remover s = RCleanup pc -> step s (remove_step g) <> None).
Proof.
  intros Hrun.
  assert (I : invariant s) by (eapply inv_run; [apply inv_init | exact Hrun]).
  pose proof (inv_kind _ I) as Hk. unfold in_flight in Hk.
  destruct s as [sess due w r tr].
  cbn [m_sess worker remover] in *.
  split.
  - intros Hw. destruct w as [| pc]; [contradiction |].
    cbn [step worker m_sess].
    destruct pc as [| x sh | x sh];
      cbn [drain_step drain_held] in *.
    + destruct (process_aens_pop g sess) as [[[x sh] sess'] |]; discriminate.
    + assert (Hx : event_fn x = SCST_AEN_SCSI).
      { rewrite !Forall_app in Hk. destruct Hk as ((Hx & _) & _).
        inversion Hx; assumption. }
      unfold process_aens_deliver. cbn [negb].
      apply Z.eqb_eq in Hx. rewrite Hx. cbn [negb].
      destruct sh; discriminate.
    + discriminate.
  - intros pc ->. cbn [step remover m_sess].
    destruct pc as [| x sh | x sh]; cbn [drain_step].
    + destruct (process_aens_pop g sess) as [[[x sh] sess'] |]; discriminate.
    + unfold process_aens_deliver. discriminate.
    + discriminate.
Qed.

(** X25: as long as [cancel_work_sync] has not returned in
    [scst_local_release_adapter], the acknowledged items, then the item in
    flight (at most one), then the queue are the enqueued items in their
    order; so of two items the one enqueued first is acknowledged first. *)
Theorem acknowledged_in_order_until_cancel name num h ls s :
  run (init (new_sess name num h)) ls = Some s ->
  before_cancel (remover s) = true ->
  acked (trace s) ++ in_flight s ++ aen_work_list (m_sess s)
    = enqueued (trace s) /\
  (List.length (in_flight s) <= 1)%nat /\
  forall i j A B, (i < j)%nat ->
    nth_error (enqueued (trace s)) i = Some A ->
    nth_error (enqueued (trace s)) j = Some B ->
    (j < List.length (acked (trace s)))%nat ->
    nth_error (acked (trace s)) i = Some A /\
    nth_error (acked (trace s)) j = Some B.
Proof.
  intros Hrun Hb.
  apply fifo_until_cancel; [| exact Hb].
  eapply inv_run; [apply inv_init | exact Hrun].
Qed.

Lemma process_aens_items_deliveries c sh q :
  (c = true \/ Forall (fun a => event_fn a = SCST_AEN_SCSI) q) ->
  process_aens_items c sh q = Some (deliveries_of c sh q).
Proof.
  intros Hc. induction q as [| a q IH]; [reflexivity |].
  cbn [process_aens_items deliveries_of flat_map].
  assert (Hd : process_aens_deliver c a sh
               = Some (match sh with
                       | Some h => if c then [] else [scsi_scan_target h (Some a)]
                       | None => []
                       end)).
  { unfold process_aens_deliver. destruct c.
    - destruct sh; reflexivity.
    - destruct Hc as [Hc | Hc]; [discriminate |].
      inversion Hc as [| ? ? Ha _]; subst. apply Z.eqb_eq in Ha. rewrite Ha.
      destruct sh; reflexivity. }
  rewrite Hd, IH.
  - rewrite <- app_assoc. reflexivity.
  - destruct Hc as [Hc | Hc]; [left; exact Hc |].
    right. inversion Hc; assumption.
Qed.

Lemma deliveries_of_readings c sh q :
  acked (deliveries_of c sh q) = q /\
  scanned (deliveries_of c sh q)
    = match sh with
      | Some _ => if c then [] else q
      | None => []
      end.
Proof.
  unfold deliveries_of.
  induction q as [| a q [IH1 IH2]]; [destruct sh, c; split; reflexivity |].
  cbn [flat_map]. rewrite !acked_app, !scanned_app, IH1, IH2.
  destruct sh, c; split; reflexivity.
Qed.

(** X26: a run of [scst_process_aens] with nothing in between empties the
    queue and acknowledges every item once, in queue order; it rescans for
    each item when it is not the cleanup pass and the session has a host it
    can get, and for none otherwise, and makes no other call. *)
Theorem process_aens_takes_the_queue_in_order g c sess :
  (c = true \/
   Forall (fun a => event_fn a = SCST_AEN_SCSI) (aen_work_list sess)) ->
  exists evs,
    scst_process_aens g c sess = Some (set_aen_work_list [] sess, evs) /\
    acked evs = aen_work_list sess /\
    scanned evs
      = (if c then []
         else match shost sess with
              | Some _ => if g then aen_work_list sess else []
              | None => []
              end) /\
    Forall (fun ev => Inv.is_delivery ev = true) evs.
Proof.
  intros Hc. unfold scst_process_aens.
  rewrite process_aens_items_deliveries by exact Hc.
  eexists. split; [reflexivity |].
  match goal with
  | |- context [deliveries_of c ?sh _] =>
      destruct (deliveries_of_readings c sh (aen_work_list sess)) as [H1 H2]
  end.
  split; [exact H1 |]. split.
  - rewrite H2. destruct (shost sess), g, c; reflexivity.
  - unfold deliveries_of. apply Forall_flat_map, Forall_forall.
    intros a _. destruct (shost sess), g, c; repeat constructor.
Qed.

End MachineExtras.

Section AsyncClose.
Context {abi : kernel_abi}.
Import Registry RegistryView.

Lemma device_unregister_remove_work b sess :
  Aen.device_unregister (set_remove_work_queued b sess)
  = (set_remove_work_queued b (fst (Aen.device_unregister sess)),
     snd (Aen.device_unregister sess)).
Proof.
  unfold Aen.device_unregister, Aen.scst_local_driver_remove,
    Aen.scst_local_release_adapter, Aen.scst_process_aens.
  cbn [unregistering set_unregistering set_shost set_aen_work_queued
       set_remove_work_queued aen_work_list shost].
  rewrite !process_aens_items_cleanup. reflexivity.
Qed.

Lemma get_session_middle st l1 t l2 s1 sess s2 :
  scst_local_tgts_list st = l1 ++ t :: l2 ->
  sessions_list t = s1 ++ sess :: s2 ->
  get_session (List.length l1) (List.length s1) st = Some sess.
Proof.
  intros Hl Hs. unfold get_session.
  rewrite Hl, nth_error_middle, Hs. apply nth_error_middle.
Qed.

(** X11: an asynchronous close followed by the run of the work it has
    queued leaves the registry as the synchronous close does, and makes the
    same calls in the same order, but for the [schedule_work] in between;
    after the asynchronous close alone the session is still in the list,
    with its latch set and its removal queued. *)
Theorem async_close_then_work_is_sync_close st l1 t l2 s1 sess s2 :
  scst_local_tgts_list st = l1 ++ t :: l2 ->
  sessions_list t = s1 ++ sess :: s2 ->
  unregistering sess = false ->
  let ti := List.length l1 in
  let si := List.length s1 in
  let sync := scst_local_close_session_impl ti si false st in
  let queued := scst_local_close_session_impl ti si true st in
  let async := scst_remove_work_fn ti si queued in
  scst_local_tgts_list queued
    = l1 ++ set_sessions_list
              (s1 ++ set_remove_work_queued true (set_unregistering true sess)
                  :: s2) t :: l2 /\
  calls queued = calls st ++ [latch_set; schedule_work_remove] /\
  scst_local_tgts_list async = scst_local_tgts_list sync /\
  scst_local_tgts_list sync
    = l1 ++ set_sessions_list (s1 ++ s2) t :: l2 /\
  exists evs,
    calls sync = calls st ++ latch_set :: evs /\
    calls async = calls st ++ latch_set :: schedule_work_remove :: evs.
Proof.
  intros Hl Hs Hu ti si sync queued async. subst ti si.
  assert (Hq : queued
    = log [latch_set; schedule_work_remove]
        (set_tgts (l1 ++ set_sessions_list
                     (s1 ++ set_remove_work_queued true
                              (set_unregistering true sess) :: s2) t :: l2) st)).
  { unfold queued, scst_local_close_session_impl.
    rewrite (get_session_middle st l1 t l2 s1 sess s2 Hl Hs).
    unfold close_session_impl_sess, Aen.close_session_mark. rewrite Hu.
    unfold put_session. rewrite Hl, alter_nth_middle, Hs, alter_nth_middle.
    reflexivity. }
  assert (Hsync : sync
    = log (snd (close_session_impl_sess false sess))
        (set_tgts (l1 ++ set_sessions_list (s1 ++ s2) t :: l2) st)).
  { unfold sync, scst_local_close_session_impl.
    rewrite (get_session_middle st l1 t l2 s1 sess s2 Hl Hs).
    rewrite (close_session_sync_calls _ Hu).
    unfold put_session. rewrite Hl, alter_nth_middle, Hs, remove_nth_middle.
    reflexivity. }
  assert (Ha : async
    = log (list_del_session
           :: snd (Aen.device_unregister (set_unregistering true sess)))
        (set_tgts (l1 ++ set_sessions_list (s1 ++ s2) t :: l2) queued)).
  { unfold async, scst_remove_work_fn.
    rewrite (get_session_middle queued l1 _ l2 s1 _ s2)
      by (rewrite Hq; reflexivity).
    cbn [remove_work_queued set_remove_work_queued].
    rewrite !device_unregister_remove_work. cbn [snd].
    unfold put_session.
    assert (Htq : scst_local_tgts_list queued
                  = l1 ++ set_sessions_list
                      (s1 ++ set_remove_work_queued true
                               (set_unregistering true sess) :: s2) t :: l2)
      by (rewrite Hq; reflexivity).
    rewrite Htq, alter_nth_middle. cbn [sessions_list set_sessions_list].
    rewrite remove_nth_middle. destruct t; reflexivity. }
  split; [rewrite Hq; reflexivity |].
  split; [rewrite Hq; reflexivity |].
  split; [rewrite Ha, Hsync; reflexivity |].
  split; [rewrite Hsync; reflexivity |].
  exists (list_del_session
          :: snd (Aen.device_unregister (set_unregistering true sess))).
  split.
  - rewrite Hsync. unfold close_session_impl_sess, Aen.close_session_mark.
    rewrite Hu.
    destruct (Aen.device_unregister (set_unregistering true sess)).
    reflexivity.
  - rewrite Ha, Hq. cbn [calls log set_tgts]. rewrite <- app_assoc.
    reflexivity.
Qed.

End AsyncClose.

(** ** The properties at work on the examples *)

Lemma linux_errnos_nonzero : @RegistryView.errnos_nonzero linux_abi.
Proof. repeat split; discriminate. Qed.

Lemma default_is_first_tgt :
  RegistryView.first_tgt_named "scst_local_tgt"
    (Registry.scst_local_tgts_list MoreExamples.st_default)
    [] MoreExamples.tgt_default [].
Proof. split; [reflexivity |]. split; [constructor | reflexivity]. Qed.

Lemma default_is_first_sess :
  RegistryView.first_sess_named "scst_local_host"
    (sessions_list MoreExamples.tgt_default)
    [] MoreExamples.sess_default [].
Proof. split; [reflexivity |]. split; [constructor | reflexivity]. Qed.

Lemma add_target_all_or_nothing_witness :
  Registry.scst_local_tgts_list
    (snd (@Registry.scst_local_sysfs_add_target linux_abi Registry.obliging
            "second" [("lun", "0")] MoreExamples.st_default))%string
  = Registry.scst_local_tgts_list MoreExamples.st_default.
Proof.
  apply (@add_target_all_or_nothing linux_abi). vm_compute. discriminate.
Defined.

Lemma add_target_adds_requested_sessions_witness :
  exists t,
    Registry.scst_local_tgts_list
      (snd (@Registry.scst_local_sysfs_add_target linux_abi Registry.obliging
              "second" [("session_name", "a"); ("SESSION_NAME", "b")]
              MoreExamples.st_default))%string
      = Registry.scst_local_tgts_list MoreExamples.st_default ++ [t] /\
    tgt_name t = "second"%string /\
    map initiator_name (sessions_list t) = ["a"; "b"]%string.
Proof.
  destruct (@add_target_adds_requested_sessions linux_abi Registry.obliging
              "second" [("session_name", "a"); ("SESSION_NAME", "b")]%string
              MoreExamples.st_default linux_errnos_nonzero eq_refl)
    as (t & Hl & Hn & _ & _ & Hs & _).
  exists t. split; [exact Hl |]. split; [exact Hn | exact Hs].
Defined.

Lemma add_then_del_target_restores_witness :
  let st1 :=
    snd (@Registry.scst_local_sysfs_add_target linux_abi Registry.obliging
           "second" [("session_name", "a")] MoreExamples.st_default)%string in
  fst (@Registry.scst_local_sysfs_del_target linux_abi "second" st1) = 0 /\
  Registry.scst_local_tgts_list
    (snd (@Registry.scst_local_sysfs_del_target linux_abi "second" st1))
  = Registry.scst_local_tgts_list MoreExamples.st_default.
Proof.
  apply (@add_then_del_target_restores linux_abi Registry.obliging "second"
           [("session_name", "a")]%string MoreExamples.st_default
           linux_errnos_nonzero).
  - repeat constructor. vm_compute. discriminate.
  - reflexivity.
Defined.

Lemma del_target_removes_first_match_witness :
  @Registry.scst_local_sysfs_del_target linux_abi "absent"
    MoreExamples.st_default = (-2, MoreExamples.st_default) /\
  exists evs,
    @Registry.scst_local_sysfs_del_target linux_abi "scst_local_tgt"
      MoreExamples.st_default
    = (0, Registry.log evs (Registry.set_tgts [] MoreExamples.st_default)) /\
    RegistryView.unregistered_targets evs = ["scst_local_tgt"%string].
Proof.
  destruct (@del_target_removes_first_match linux_abi "absent"
              MoreExamples.st_default eq_refl) as (Hno & _).
  destruct (@del_target_removes_first_match linux_abi "scst_local_tgt"
              MoreExamples.st_default eq_refl) as (_ & Hyes).
  split.
  - apply Hno. repeat constructor. vm_compute. discriminate.
  - destruct (Hyes [] MoreExamples.tgt_default [] eq_refl
                (Forall_nil _) eq_refl) as (evs & He & Hu & _).
    exists evs. split; [exact He | exact Hu].
Defined.

Lemma mgmt_cmd_rejections_change_nothing_witness :
  @Registry.scst_local_sysfs_mgmt_cmd linux_abi Registry.obliging
    "del_session" "scst_local_tgt" "nobody" MoreExamples.st_default
  = (-22, MoreExamples.st_default).
Proof.
  apply (@mgmt_cmd_rejections_change_nothing linux_abi); [reflexivity |].
  right. right. right.
  split; [vm_compute; discriminate |]. split; [reflexivity |].
  exists [], MoreExamples.tgt_default, [].
  split; [exact default_is_first_tgt |].
  repeat constructor. vm_compute. discriminate.
Defined.

Lemma del_session_unlinks_and_unregisters_witness :
  @Registry.scst_local_sysfs_mgmt_cmd linux_abi Registry.obliging
    "DEL_SESSION" "scst_local_tgt" "scst_local_host" MoreExamples.st_default
  = (0,
     Registry.log
       [latch_set; list_del_session; scsi_remove_host (Some 0%nat);
        cancel_work_sync_aen; scst_unregister_session]
       (Registry.set_tgts
          [set_sessions_list [] MoreExamples.tgt_default]
          MoreExamples.st_default)).
Proof.
  apply (@del_session_unlinks_and_unregisters linux_abi Registry.obliging
           "DEL_SESSION" "scst_local_tgt" "scst_local_host"
           MoreExamples.st_default [] MoreExamples.tgt_default []
           [] MoreExamples.sess_default []).
  - reflexivity.
  - discriminate.
  - discriminate.
  - vm_compute. discriminate.
  - reflexivity.
  - exact default_is_first_tgt.
  - exact default_is_first_sess.
Defined.

Lemma add_session_appends_to_its_target_witness :
  exists sess,
    Registry.scst_local_tgts_list
      (snd (@Registry.scst_local_sysfs_mgmt_cmd linux_abi Registry.obliging
              "add_session" "scst_local_tgt" "second"
              MoreExamples.st_default))
    = [set_sessions_list [MoreExamples.sess_default; sess]
         MoreExamples.tgt_default] /\
    initiator_name sess = "second"%string /\ number sess = 2.
Proof.
  destruct (@add_session_appends_to_its_target linux_abi Registry.obliging
              "add_session" "scst_local_tgt" "second" MoreExamples.st_default
              [] MoreExamples.tgt_default [] linux_errnos_nonzero eq_refl
              ltac:(discriminate) ltac:(discriminate) eq_refl
              default_is_first_tgt) as (_ & Hok).
  destruct (Hok eq_refl) as (sess & Hl & Hn & Hnum & _).
  exists sess. split; [exact Hl |]. split; [exact Hn | exact Hnum].
Defined.

Lemma add_then_del_session_restores_witness :
  let st1 :=
    snd (@Registry.scst_local_sysfs_mgmt_cmd linux_abi Registry.obliging
           "add_session" "scst_local_tgt" "second" MoreExamples.st_default) in
  fst (@Registry.scst_local_sysfs_mgmt_cmd linux_abi Registry.obliging
         "del_session" "scst_local_tgt" "second" st1) = 0 /\
  Registry.scst_local_tgts_list
    (snd (@Registry.scst_local_sysfs_mgmt_cmd linux_abi Registry.obliging
            "del_session" "scst_local_tgt" "second" st1))
  = Registry.scst_local_tgts_list MoreExamples.st_default.
Proof.
  apply (@add_then_del_session_restores linux_abi Registry.obliging
           "add_session" "del_session" "scst_local_tgt" "second"
           MoreExamples.st_default [] MoreExamples.tgt_default []
           linux_errnos_nonzero eq_refl).
  - discriminate.
  - discriminate.
  - reflexivity.
  - vm_compute. discriminate.
  - reflexivity.
  - exact default_is_first_tgt.
  - repeat constructor. vm_compute. discriminate.
  - reflexivity.
Defined.

Lemma exit_unregisters_every_target_and_open_session_witness :
  exists evs,
    Registry.calls MoreExamples.st_after_exit
      = Registry.calls MoreExamples.st_default ++ evs /\
    RegistryView.unregistered_targets evs = ["scst_local_tgt"%string] /\
    List.length (filter RegistryView.is_unregister_session evs) = 1%nat.
Proof.
  exact (@exit_unregisters_every_target_and_open_session linux_abi
           MoreExamples.st_default MoreExamples.st_after_exit eq_refl).
Defined.

Lemma init_reports_success_without_workqueue_witness :
  exists tr,
    @Init.scst_local_init linux_abi MoreExamples.env_no_workqueue
      Registry.empty_state = (0, Registry.empty_state, tr) /\
    Init.held_after [] tr = Some [].
Proof.
  apply (@init_reports_success_without_workqueue linux_abi
           MoreExamples.env_no_workqueue Registry.empty_state);
    try reflexivity; cbn; lia.
Defined.

Lemma init_adds_the_default_target_witness :
  Registry.scst_local_tgts_list
    (snd (fst (@Init.scst_local_init linux_abi MoreExamples.env_granting
                 Registry.empty_state)))
  = [MoreExamples.tgt_default].
Proof.
  pose proof (@init_adds_the_default_target linux_abi
                MoreExamples.env_granting Registry.empty_state
                linux_errnos_nonzero) as H.
  assert (Hg : Init.resources_granted MoreExamples.env_granting)
    by (repeat split; cbn; lia).
  specialize (H Hg).
  destruct (@Init.scst_local_init linux_abi MoreExamples.env_granting
              Registry.empty_state) as [[ret st'] tr] eqn:E.
  destruct H as (_ & H).
  assert (Hret : ret = 0) by (vm_compute in E; congruence).
  exact (H eq_refl Hret).
Defined.

Lemma transport_id_store_show_round_trip_witness :
  let '(res, sess', st') :=
    @TransportId.scst_local_transport_id_store linux_abi true [1; 2; 3]
      MoreExamples.tr_sess_300 MoreExamples.st_default in
  res = 3 /\
  @TransportId.scst_local_transport_id_show linux_abi scst_engine_abi false
    sess' MoreExamples.st_default = (3, [1; 2; 3], MoreExamples.st_default).
Proof.
  pose proof (@transport_id_store_show_round_trip linux_abi scst_engine_abi
                false [1; 2; 3] MoreExamples.tr_sess_300
                MoreExamples.st_default eq_refl ltac:(discriminate)) as H.
  destruct (@TransportId.scst_local_transport_id_store linux_abi true [1; 2; 3]
              MoreExamples.tr_sess_300 MoreExamples.st_default)
    as [[res sess'] st'].
  destruct H as (Hres & _ & _ & Hshow & _).
  split; [exact Hres | exact Hshow].
Defined.

Lemma transport_id_store_clears_previous_id_witness :
  let stored := TransportId.set_transport_id (Some [9; 9])
                  MoreExamples.tr_sess_300 in
  let '(res, sess', st') :=
    @TransportId.scst_local_transport_id_store linux_abi false [1; 2; 3]
      stored MoreExamples.st_default in
  res = -12 /\ TransportId.transport_id sess' = None.
Proof.
  intros stored.
  pose proof (@transport_id_store_clears_previous_id linux_abi scst_engine_abi
                false [1; 2; 3] stored MoreExamples.st_default eq_refl
                (or_intror eq_refl)) as H.
  destruct (@TransportId.scst_local_transport_id_store linux_abi false [1; 2; 3]
              stored MoreExamples.st_default) as [[res sess'] st'].
  destruct H as (Hres & _ & Hid & _).
  split; [exact Hres | exact Hid].
Defined.

Lemma transport_id_shown_is_the_one_reported_witness :
  exists id,
    List.length id = 24%nat /\
    @TransportId.scst_local_transport_id_show linux_abi scst_engine_abi true
      MoreExamples.tr_sess_300 MoreExamples.st_default
    = (Z.of_nat (List.length id), id, MoreExamples.st_default).
Proof.
  eexists. split; [| apply (@transport_id_shown_is_the_one_reported
                               linux_abi scst_engine_abi true
                               MoreExamples.tr_sess_300 MoreExamples.st_default);
                     [reflexivity | vm_compute; reflexivity]].
  reflexivity.
Defined.

Lemma version_shown_is_version_reported_witness :
  snd (fst (@VersionAttr.scst_local_scsi_transport_version_show linux_abi
              scst_engine_abi (Some MoreExamples.tgt_default)
              MoreExamples.st_default))
  = ("0xbe0" ++ String "010" "")%string.
Proof.
  destruct (@version_shown_is_version_reported linux_abi scst_engine_abi
              MoreExamples.tgt_default MoreExamples.st_default eq_refl)
    as ((text & Hs & Ht) & _).
  rewrite Hs. cbn [fst snd]. rewrite Ht. reflexivity.
Defined.

Lemma version_store_truncates_to_16_bits_witness :
  exists t',
    @VersionAttr.scst_local_scsi_transport_version_store linux_abi
      scst_engine_abi (VersionAttr.parsed 65536) 6
      (Some MoreExamples.tgt_default) MoreExamples.st_default
    = (6, Some t', MoreExamples.st_default) /\
    scsi_transport_version t' = 0 /\
    Version.scst_local_get_scsi_transport_version t' = 0x0BE0.
Proof.
  destruct (@version_store_truncates_to_16_bits linux_abi scst_engine_abi
              65536 6 MoreExamples.tgt_default MoreExamples.st_default eq_refl)
    as ((t' & Hs & Hv & Hg & _) & _).
  exists t'. split; [exact Hs |]. split; [exact Hv | exact Hg].
Defined.

Lemma copy_sense_stays_in_the_buffer_witness :
  let c := @Response.scst_local_copy_sense scst_engine_abi
             MoreExamples.scmd_fresh MoreExamples.cmd_with_sense in
  List.length (Response.sense_buffer c) = 96%nat /\
  firstn 4 (Response.sense_buffer c) = [0x70; 0; 5; 0].
Proof.
  destruct (@copy_sense_stays_in_the_buffer scst_engine_abi
              MoreExamples.scmd_fresh MoreExamples.cmd_with_sense eq_refl)
    as (Hlen & Hpre & _).
  split; [exact Hlen | exact Hpre].
Defined.


Lemma drains_never_hit_bug_on_witness :
  @Aen.step linux_abi Examples.after_two_reports (Aen.aen_work_step true)
    <> None.
Proof.
  apply (@drains_never_hit_bug_on linux_abi "scst_local_host" 1 0%nat
           Examples.sched_two_reports Examples.after_two_reports true eq_refl).
  discriminate.
Defined.

Lemma acknowledged_in_order_until_cancel_witness :
  Aen.acked (Aen.trace Examples.after_two_reports)
    ++ Aen.in_flight Examples.after_two_reports
    ++ aen_work_list (Aen.m_sess Examples.after_two_reports)
  = [Examples.aen_a; Examples.aen_b].
Proof.
  exact (proj1 (@acknowledged_in_order_until_cancel linux_abi
                  "scst_local_host" 1 0%nat Examples.sched_two_reports
                  Examples.after_two_reports eq_refl eq_refl)).
Defined.

Lemma process_aens_takes_the_queue_in_order_witness :
  exists evs,
    @Aen.scst_process_aens linux_abi true false MoreExamples.sess_pending
      = Some (set_aen_work_list [] MoreExamples.sess_pending, evs) /\
    Aen.acked evs = [Examples.aen_a; Examples.aen_b] /\
    Aen.scanned evs = [Examples.aen_a; Examples.aen_b].
Proof.
  assert (Hk : false = true \/
               Forall (fun a => event_fn a = @SCST_AEN_SCSI linux_abi)
                      (aen_work_list MoreExamples.sess_pending))
    by (right; repeat constructor).
  destruct (@process_aens_takes_the_queue_in_order linux_abi true false
              MoreExamples.sess_pending Hk)
    as (evs & He & Ha & Hs & _).
  exists evs. split; [exact He |]. split; [exact Ha | exact Hs].
Defined.

Lemma async_close_then_work_is_sync_close_witness :
  Registry.scst_local_tgts_list
    (@Registry.scst_remove_work_fn linux_abi 0 0
       (@Registry.scst_local_close_session_impl linux_abi 0 0 true
          MoreExamples.st_default))
  = Registry.scst_local_tgts_list
      (@Registry.scst_local_close_session_impl linux_abi 0 0 false
         MoreExamples.st_default).
Proof.
  destruct (@async_close_then_work_is_sync_close linux_abi
              MoreExamples.st_default [] MoreExamples.tgt_default []
              [] MoreExamples.sess_default [] eq_refl eq_refl eq_refl)
    as (_ & _ & H & _).
  exact H.
Defined.
